(** * chatgpt-pr-review-reply: a shallow embedding of [main.py]

    The development follows the source file top to bottom:

    - Python values the program manipulates ([str] as [string] over the
      code points 0..255, [int] as [Z], exceptions as a [result] type,
      the insertion-ordered [dict] as an association list);
    - the fragment of the [re] module the two patterns of the program use,
      as a backtracking matcher;
    - [code_type], [prompt], [line_start_patch], [files_for_review];
    - the calls to the version-control host and to the completion service
      as events of a trace, answered by an environment that may depend on
      everything that happened before; [review], [handle_replies], [main].

    Theorems come after all definitions. *)

From Stdlib Require Import Bool Arith ZArith List Ascii String Lia.
From Stdlib Require Import DecimalString DecimalPos Permutation.
Import ListNotations.

Local Open Scope string_scope.
Local Open Scope Z_scope.

(* ================================================================= *)
(** ** Python values *)

Module Py.

(** Exceptions raised by the code under study.  [ServiceError] stands for
    whatever a client library of the host or of the completion service
    raises. *)
Inductive exn : Type :=
  | AttributeError
  | ValueError
  | TypeError
  | ServiceError (msg : string).

Inductive result (A : Type) : Type :=
  | Ok (a : A)
  | Raise (e : exn).

Arguments Ok {A} a.
Arguments Raise {A} e.

Definition is_ok {A} (r : result A) : bool :=
  match r with Ok _ => true | Raise _ => false end.

Definition bind {A B} (r : result A) (k : A -> result B) : result B :=
  match r with
  | Ok a => k a
  | Raise e => Raise e
  end.

(** The line feed, the only character the dot of a pattern refuses. *)
Definition LF : ascii := ascii_of_nat 10.
Definition nl : string := String LF "".

(** [int(s)] on the strings the program passes to it: the text of a
    group of digits, so decimal digits only.  The empty string and any
    other character raise [ValueError].  The integer is unbounded; the
    interpreter's limit on the length of a converted string, a setting
    of the run, is not modelled. *)
Definition digit_value (c : ascii) : option Z :=
  let n := nat_of_ascii c in
  if ((48 <=? n) && (n <=? 57))%nat then Some (Z.of_nat (n - 48)) else None.

Fixpoint int_from (acc : Z) (s : string) : result Z :=
  match s with
  | EmptyString => Ok acc
  | String c s' =>
      match digit_value c with
      | Some d => int_from (10 * acc + d) s'
      | None => Raise ValueError
      end
  end.

Definition int (s : string) : result Z :=
  match s with
  | EmptyString => Raise ValueError
  | _ => int_from 0 s
  end.

(** [s.split(",")]: the pieces between commas, at least one piece. *)
Fixpoint split_on (sep : ascii) (s : string) : list string :=
  match s with
  | EmptyString => [EmptyString]
  | String c s' =>
      if Ascii.eqb c sep then EmptyString :: split_on sep s'
      else match split_on sep s' with
           | piece :: pieces => String c piece :: pieces
           | [] => [String c EmptyString]
           end
  end.

End Py.

Import Py.

Notation "x <- c1 ;; c2" := (Py.bind c1 (fun x => c2))
  (at level 61, c1 at next level, right associativity).

(* ================================================================= *)
(** ** The fragment of [re] used by the program

    Both patterns are a sequence of atoms: an anchor, one character of a
    class, a greedy starred class, or a captured greedy starred class.
    The matcher backtracks the way [re] does: a star first takes as many
    characters as it can and gives them back one at a time. *)

Module Re.

Definition charclass := ascii -> bool.

Inductive atom : Type :=
  | Bos                        (* the caret, without MULTILINE *)
  | Eos                        (* the dollar, without MULTILINE *)
  | One (cls : charclass)      (* one character of the class *)
  | Many (cls : charclass)     (* the starred class *)
  | Group (cls : charclass).   (* the starred class, captured *)

Definition regex := list atom.

(** [.] without DOTALL. *)
Definition dot : charclass := fun c => negb (Ascii.eqb c LF).
(** [\d] on the code points below 256. *)
Definition digit : charclass :=
  fun c => ((48 <=? nat_of_ascii c) && (nat_of_ascii c <=? 57))%nat.
Definition lit (a : ascii) : charclass := fun c => Ascii.eqb c a.
Definition other_than (a : ascii) : charclass := fun c => negb (Ascii.eqb c a).
Definition one_of (a b : ascii) : charclass :=
  fun c => Ascii.eqb c a || Ascii.eqb c b.

(** [$] holds at the end of the text and just before a final line feed. *)
Definition at_eos (s : string) : bool :=
  match s with
  | EmptyString => true
  | String c EmptyString => Ascii.eqb c LF
  | _ => false
  end.

(** A continuation: what remains of the pattern, run on what remains of
    the text. *)
Definition cont (R : Type) : Type := bool -> string -> option R.

(** The starred class: the longest run first, then shorter ones. *)
Fixpoint many (cls : charclass) (k : cont (list string)) (start : bool)
    (s : string) {struct s} : option (list string) :=
  match s with
  | String c s' =>
      if cls c then
        match many cls k false s' with
        | Some gs => Some gs
        | None => k start s
        end
      else k start s
  | EmptyString => k start s
  end.

(** The same, returning the run it settled on. *)
Fixpoint group (cls : charclass) (k : cont (list string)) (start : bool)
    (s : string) {struct s} : option (string * list string) :=
  match s with
  | String c s' =>
      if cls c then
        match group cls k false s' with
        | Some (g, gs) => Some (String c g, gs)
        | None => option_map (pair EmptyString) (k start s)
        end
      else option_map (pair EmptyString) (k start s)
  | EmptyString => option_map (pair EmptyString) (k start s)
  end.

(** [match_here re start s]: the groups captured when [re] matches a
    prefix of [s]; [start] tells whether [s] begins at position 0 of the
    searched text. *)
Fixpoint match_here (re : regex) (start : bool) (s : string) {struct re}
  : option (list string) :=
  match re with
  | [] => Some []
  | Bos :: re' => if start then match_here re' start s else None
  | Eos :: re' => if at_eos s then match_here re' start s else None
  | One cls :: re' =>
      match s with
      | String c s' => if cls c then match_here re' false s' else None
      | EmptyString => None
      end
  | Many cls :: re' => many cls (match_here re') start s
  | Group cls :: re' =>
      option_map (fun p => fst p :: snd p) (group cls (match_here re') start s)
  end.

(** [search(re, s)]: the first position, from the left, where [re]
    matches. *)
Fixpoint search_from (re : regex) (start : bool) (s : string)
  : option (list string) :=
  match match_here re start s with
  | Some gs => Some gs
  | None =>
      match s with
      | String _ s' => search_from re false s'
      | EmptyString => None
      end
  end.

Definition search (re : regex) (s : string) : option (list string) :=
  search_from re true s.

(** [m.group(1)] of a successful match of a pattern with one group. *)
Definition group1 (gs : list string) : string := nth 0 gs EmptyString.

End Re.

(* ================================================================= *)
(** ** [code_type] and [prompt] *)

(** The pattern of [code_type]: caret, any characters, a literal dot, a
    captured run of characters other than the dot, dollar. *)
Definition code_type_re : Re.regex :=
  [Re.Bos; Re.Many Re.dot; Re.One (Re.lit "."); Re.Group (Re.other_than "."); Re.Eos].

(** The function falls off its end, returning [None], when the pattern
    does not match or no [case] applies. *)
Definition code_type (filename : string) : option string :=
  match Re.search code_type_re filename with
  | Some gs =>
      let ext := Re.group1 gs in
      if String.eqb ext "js" then Some "JavaScript"
      else if String.eqb ext "ts" then Some "TypeScript"
      else if String.eqb ext "java" then Some "Java"
      else if String.eqb ext "py" then Some "Python"
      else if String.eqb ext "sh" then Some "Bash"
      else None
  | None => None
  end.

(** Truth value of an optional string: [None] and [""] are false. *)
Definition truthy_str (o : option string) : bool :=
  match o with
  | Some EmptyString | None => false
  | Some _ => true
  end.

(** The variable [code] of [prompt] after the [if]. *)
Definition code_label (filename : string) : string :=
  let code := "code" in
  let type := code_type filename in
  if truthy_str type
  then match type with Some t => t ++ " " ++ code | None => code end
  else code.

Definition prompt (filename contents : string) : string :=
  let code := code_label filename in
  "Please evaluate the  " ++ code ++ " below." ++ nl ++
  "Provide answers to the following questions in numbered lists" ++ nl ++
  "   - does the code below has obvious bugs?" ++ nl ++
  "   - are there any security issues in the code?" ++ nl ++
  "   - how do you assess the readability of the code?" ++ nl ++
  "   - are there any code duplication in the provided code?" ++ nl ++
  "   - are variable names descriptive enough?" ++ nl ++
  "   - is the code well documented?" ++ nl ++
  "   - can you identify possible performance improvements for this code?" ++ nl ++
  "At the end of your answer, please summarize and explain what changes should be performed in the " ++
  "provided code to improve its quality" ++ nl ++
  "If a question doesn't have a new suggestion omit it from your answer." ++
  "```" ++ nl ++ contents ++ nl ++ "```".

(* ================================================================= *)
(** ** [line_start_patch] *)

(** The pattern of [line_start_patch]: caret, two at signs, a space, a
    minus or a plus, a captured run of digits, a comma. *)
Definition patch_re : Re.regex :=
  [Re.Bos; Re.One (Re.lit "@"); Re.One (Re.lit "@"); Re.One (Re.lit " ");
   Re.One (Re.one_of "-" "+"); Re.Group Re.digit; Re.One (Re.lit ",")].

(** [match.group(1)] on [None] raises [AttributeError]; [int] of an empty
    group raises [ValueError]. *)
Definition line_start_patch (patch : string) : result Z :=
  match Re.search patch_re patch with
  | None => Raise AttributeError
  | Some gs => Py.int (Re.group1 gs)
  end.

(* ================================================================= *)
(** ** Data of the version-control host *)

(** An entry of [commit.files].  [patch] is [None] when the host sends no
    patch for the file. *)
Record File : Type := mkFile {
  filename : string;
  status : string;
  patch : option string
}.

Record Commit : Type := mkCommit {
  sha : string;
  files : list File
}.

(** A pull request as the program reads it: [pull.get_commits()], in the
    order the host reports the commits. *)
Record PullRequest : Type := mkPull {
  get_commits : list Commit
}.

(** A comment of the pull request, with the attributes [handle_replies]
    reads. *)
Record Comment : Type := mkComment {
  id : Z;
  user_login : string;
  reply_to_id : option Z;
  body : string;
  original_commit_id : string;
  path : string;
  original_position : option Z;
  diff_hunk : string
}.

(** The dictionary appended to [comments] in [main]. *)
Record ReviewComment : Type := mkReviewComment {
  rc_path : string;
  rc_line : Z;
  rc_body : string
}.

(* ================================================================= *)
(** ** [files_for_review] *)

(** The dictionary [changes]: keys in insertion order, each key once. *)
Module Dict.

Definition t (V : Type) : Type := list (string * V).

Fixpoint get {V} (d : t V) (k : string) : option V :=
  match d with
  | [] => None
  | (k', v) :: d' => if String.eqb k' k then Some v else get d' k
  end.

(** [d[k] = v]: an existing key keeps its place, a new key goes last. *)
Fixpoint set {V} (d : t V) (k : string) (v : V) : t V :=
  match d with
  | [] => [(k, v)]
  | (k', v') :: d' =>
      if String.eqb k' k then (k', v) :: d' else (k', v') :: set d' k v
  end.

Definition items {V} (d : t V) : list (string * V) := d.
Definition keys {V} (d : t V) : list string := map fst d.

End Dict.

(** [x in l] for strings. *)
Definition str_in (x : string) (l : list string) : bool :=
  existsb (String.eqb x) l.

(** [line_start_patch(file.patch)]: [search] refuses [None]. *)
Definition line_start_patch_of (p : option string) : result Z :=
  match p with
  | Some s => line_start_patch s
  | None => Raise TypeError
  end.

Section ChangeSelector.

(** [fnmatch(name, pattern)] of the standard library. *)
Variable fnmatch : string -> string -> bool.

Definition changes_t : Type := Dict.t (Z * Commit).

(** A stored value is a pair, hence true; only a missing key is false. *)
Definition truthy_entry (o : option (Z * Commit)) : bool :=
  match o with Some _ => true | None => false end.

(** The loop over [patterns], for one file of one commit. *)
Fixpoint for_patterns (commit : Commit) (file : File) (patterns : list string)
    (changes : changes_t) : result changes_t :=
  match patterns with
  | [] => Ok changes
  | pattern :: patterns' =>
      if fnmatch (filename file) pattern
         && negb (truthy_entry (Dict.get changes (filename file)))
      then
        line <- line_start_patch_of (patch file) ;;
        for_patterns commit file patterns'
          (Dict.set changes (filename file) (line, commit))
      else for_patterns commit file patterns' changes
  end.

(** The loop over [commit.files]. *)
Fixpoint for_files (commit : Commit) (fs : list File) (patterns : list string)
    (changes : changes_t) : result changes_t :=
  match fs with
  | [] => Ok changes
  | file :: fs' =>
      if str_in (status file) ["unchanged"; "removed"]
      then for_files commit fs' patterns changes
      else
        changes' <- for_patterns commit file patterns changes ;;
        for_files commit fs' patterns changes'
  end.

(** The loop over [commits]. *)
Fixpoint for_commits (commits : list Commit) (patterns : list string)
    (changes : changes_t) : result changes_t :=
  match commits with
  | [] => Ok changes
  | commit :: commits' =>
      changes' <- for_files commit (files commit) patterns changes ;;
      for_commits commits' patterns changes'
  end.

Definition files_for_review (pull : PullRequest) (patterns : list string)
  : result (list (string * Z * Commit)) :=
  changes <- for_commits (get_commits pull) patterns [] ;;
  Ok (map (fun x => (fst x, Z.max 1 (fst (snd x)), snd (snd x)))
          (Dict.items changes)).

End ChangeSelector.

(** The wildcards of [fnmatch] without bracket expressions: a star for any
    run of characters, a question mark for any one character.  It is the
    pattern language of the examples below. *)
Fixpoint wildcard (pattern name : string) {struct pattern} : bool :=
  match pattern with
  | EmptyString => match name with EmptyString => true | _ => false end
  | String p pattern' =>
      if Ascii.eqb p "*" then
        (fix star (name : string) : bool :=
           wildcard pattern' name
           || match name with
              | String _ name' => star name'
              | EmptyString => false
              end) name
      else
        match name with
        | String c name' =>
            (Ascii.eqb p "?" || Ascii.eqb p c) && wildcard pattern' name'
        | EmptyString => false
        end
  end.

Definition fnmatch_wildcard (name pattern : string) : bool :=
  wildcard pattern name.

(* ================================================================= *)
(** ** Calls to the host and to the completion service

    Every call the program makes leaves an event with its arguments and
    its answer.  The environment computes an answer from the call and
    from the trace of all earlier events, so one call may be answered
    differently at different times.  The process-wide assignments of
    [openai.api_key] are not part of the model. *)

(** [str(n)] inside an f-string. *)
Definition str_of_int (n : Z) : string := NilZero.string_of_int (Z.to_int n).

Definition str_of_position (p : option Z) : string :=
  match p with
  | Some n => str_of_int n
  | None => "None"
  end.

Definition bot_login : string := "github-actions[bot]".

Section Program.

(** The type of [--openai_temperature]; the program only passes it on. *)
Variable float : Type.
Variable fnmatch : string -> string -> bool.

Inductive event : Type :=
  | GetPull (token : string) (pr_id : Z) (r : result PullRequest)
  | GetContents (path ref : string) (r : result string)
  | ChatCompletionCreate (model : string) (temperature : float)
      (max_tokens : Z) (content : string) (r : result string)
  | GetIssueComments (r : result (list Comment))
  | CompletionCreate (engine prompt : string) (temperature : float)
      (max_tokens : Z) (r : result string)
  | CreateReply (comment_id : Z) (text : string) (r : result unit)
  | CreateReview (body event : string) (comments : list ReviewComment)
      (r : result unit)
  | Print (line : string).

Definition trace : Type := list event.

Record Env : Type := mkEnv {
  host_get_pull : trace -> string -> Z -> result PullRequest;
  host_get_contents : trace -> string -> string -> result string;
  host_get_issue_comments : trace -> result (list Comment);
  host_create_reply : trace -> Z -> string -> result unit;
  host_create_review :
    trace -> string -> string -> list ReviewComment -> result unit;
  openai_chat : trace -> string -> float -> Z -> string -> result string;
  openai_completion : trace -> string -> string -> float -> Z -> result string
}.

Variable env : Env.

(** A computation reads the trace so far, extends it, and returns or
    raises. *)
Definition M (A : Type) : Type := trace -> trace * result A.

Definition ret {A} (a : A) : M A := fun t => (t, Ok a).
Definition raise {A} (e : exn) : M A := fun t => (t, Raise e).
Definition lift {A} (r : result A) : M A := fun t => (t, r).

Definition mbind {A B} (m : M A) (k : A -> M B) : M B :=
  fun t =>
    match m t with
    | (t', Ok a) => k a t'
    | (t', Raise e) => (t', Raise e)
    end.

Notation "x <~ c1 ;; c2" := (mbind c1 (fun x => c2))
  (at level 61, c1 at next level, right associativity).

(** A call: ask the environment, log the call with its answer. *)
Definition call {A} (ask : trace -> result A) (log : result A -> event) : M A :=
  fun t => let r := ask t in ((t ++ [log r])%list, r).

Definition get_pull (token : string) (pr_id : Z) : M PullRequest :=
  call (fun t => host_get_pull env t token pr_id) (GetPull token pr_id).

Definition get_contents (path ref : string) : M string :=
  call (fun t => host_get_contents env t path ref) (GetContents path ref).

Definition get_issue_comments : M (list Comment) :=
  call (host_get_issue_comments env) GetIssueComments.

Definition create_reply (comment_id : Z) (text : string) : M unit :=
  call (fun t => host_create_reply env t comment_id text)
       (CreateReply comment_id text).

Definition create_review (body event : string) (comments : list ReviewComment)
  : M unit :=
  call (fun t => host_create_review env t body event comments)
       (CreateReview body event comments).

Definition chat_completion_create (model : string) (temperature : float)
    (max_tokens : Z) (content : string) : M string :=
  call (fun t => openai_chat env t model temperature max_tokens content)
       (ChatCompletionCreate model temperature max_tokens content).

Definition completion_create (engine prompt : string) (temperature : float)
    (max_tokens : Z) : M string :=
  call (fun t => openai_completion env t engine prompt temperature max_tokens)
       (CompletionCreate engine prompt temperature max_tokens).

Definition print (line : string) : M unit := fun t => ((t ++ [Print line])%list, Ok tt).

(** A [for] loop whose body returns nothing. *)
Fixpoint for_each {A} (body : A -> M unit) (l : list A) : M unit :=
  match l with
  | [] => ret tt
  | x :: l' => _ <~ body x ;; for_each body l'
  end.

(* ----------------------------------------------------------------- *)
(** *** [review] *)

Definition review (filename content model : string) (temperature : float)
    (max_tokens : Z) : M string :=
  chat_review <~
    chat_completion_create model temperature max_tokens
      (prompt filename content) ;;
  ret ("*ChatGPT review for " ++ filename ++ ":*" ++ nl ++ chat_review).

(* ----------------------------------------------------------------- *)
(** *** [handle_replies] *)

Definition is_bot (c : Comment) : bool := String.eqb (user_login c) bot_login.

(** [reply.reply_to_id == comment.id] *)
Definition replies_to (reply comment : Comment) : bool :=
  match reply_to_id reply with
  | Some n => n =? id comment
  | None => false
  end.

(** The list [replies] built for a comment of the bot. *)
Definition human_replies (comments : list Comment) (comment : Comment)
  : list Comment :=
  filter (fun reply => replies_to reply comment && negb (is_bot reply)) comments.

(** The list [bot_replies] built for a reply. *)
Definition bot_replies (comments : list Comment) (reply : Comment)
  : list Comment :=
  filter (fun bot_reply => replies_to bot_reply reply && is_bot bot_reply)
         comments.

Definition reply_prompt (reply : Comment) : string :=
  body reply ++ nl ++ nl ++ original_commit_id reply ++ ":" ++ nl ++
  path reply ++ " line " ++ str_of_position (original_position reply) ++ nl ++
  "```" ++ diff_hunk reply ++ "```".

(** The body of [for reply in replies]. *)
Definition handle_reply (comments : list Comment) (model : string)
    (temperature : float) (max_tokens : Z) (reply : Comment) : M unit :=
  match bot_replies comments reply with
  | _ :: _ =>
      print ("Skipped already handled reply from " ++ user_login reply ++
             ": " ++ body reply)
  | [] =>
      let question := reply_prompt reply in
      response <~ completion_create model question temperature max_tokens ;;
      _ <~ create_reply (id reply) response ;;
      print ("Handled reply from " ++ user_login reply ++ ": " ++ body reply)
  end.

(** The body of [for comment in comments]. *)
Definition handle_comment (comments : list Comment) (model : string)
    (temperature : float) (max_tokens : Z) (comment : Comment) : M unit :=
  if is_bot comment then
    for_each (handle_reply comments model temperature max_tokens)
             (human_replies comments comment)
  else
    print ("Skipped non-bot comment from " ++ user_login comment ++
           ": " ++ body comment).

Definition handle_replies (github_token : string) (github_pr_id : Z)
    (api_key model : string) (temperature : float) (max_tokens : Z) : M unit :=
  _ <~ get_pull github_token github_pr_id ;;
  comments <~ get_issue_comments ;;
  for_each (handle_comment comments model temperature max_tokens) comments.

(* ----------------------------------------------------------------- *)
(** *** [main] *)

Record Args : Type := mkArgs {
  openai_api_key : string;
  github_token : string;
  github_pr_id : Z;
  openai_model : string;
  openai_temperature : float;
  openai_max_tokens : Z;
  (** [--files] has no default: [None] when the flag is absent. *)
  arg_files : option string
}.

(** The loop over [files_for_review(pull, file_patterns)], with the list
    [comments] it appends to. *)
Fixpoint main_loop (args : Args) (records : list (string * Z * Commit))
    (comments : list ReviewComment) : M (list ReviewComment) :=
  match records with
  | [] => ret comments
  | (filename, line, commit) :: records' =>
      content <~ get_contents filename (sha commit) ;;
      if (String.length content =? 0)%nat
      then main_loop args records' comments
      else
        body <~ review filename content (openai_model args)
                  (openai_temperature args) (openai_max_tokens args) ;;
        main_loop args records'
                  (comments ++ [mkReviewComment filename line body])%list
  end.

Definition review_title : string := "**ChatGPT code review**".

(** The final [if] of [main]. *)
Definition main_submit (args : Args) (comments : list ReviewComment) : M unit :=
  if (0 <? List.length comments)%nat then
    _ <~ handle_replies (github_token args) (github_pr_id args)
           (openai_api_key args) (openai_model args)
           (openai_temperature args) (openai_max_tokens args) ;;
    create_review review_title "COMMENT" comments
  else ret tt.

Definition main (args : Args) : M unit :=
  file_patterns <~
    match arg_files args with
    | Some s => ret (Py.split_on "," s)
    | None => raise AttributeError
    end ;;
  pull <~ get_pull (github_token args) (github_pr_id args) ;;
  records <~ lift (files_for_review fnmatch pull file_patterns) ;;
  comments <~ main_loop args records [] ;;
  main_submit args comments.

End Program.

Arguments GetPull {float}.
Arguments GetContents {float}.
Arguments ChatCompletionCreate {float}.
Arguments GetIssueComments {float}.
Arguments CompletionCreate {float}.
Arguments CreateReply {float}.
Arguments CreateReview {float}.
Arguments Print {float}.
Arguments mkEnv {float}.
Arguments host_get_pull {float}.
Arguments host_get_contents {float}.
Arguments host_get_issue_comments {float}.
Arguments host_create_reply {float}.
Arguments host_create_review {float}.
Arguments openai_chat {float}.
Arguments openai_completion {float}.
Arguments mkArgs {float}.
Arguments openai_api_key {float}.
Arguments github_token {float}.
Arguments github_pr_id {float}.
Arguments openai_model {float}.
Arguments openai_temperature {float}.
Arguments openai_max_tokens {float}.
Arguments arg_files {float}.
Arguments ret {float A}.
Arguments raise {float A}.
Arguments lift {float A}.
Arguments mbind {float A B}.
Arguments call {float A}.
Arguments get_pull {float}.
Arguments get_contents {float}.
Arguments get_issue_comments {float}.
Arguments create_reply {float}.
Arguments create_review {float}.
Arguments chat_completion_create {float}.
Arguments completion_create {float}.
Arguments print {float}.
Arguments for_each {float A}.
Arguments review {float}.
Arguments handle_reply {float}.
Arguments handle_comment {float}.
Arguments handle_replies {float}.
Arguments main_loop {float}.
Arguments main_submit {float}.
Arguments main {float}.

(* ================================================================= *)
(** ** Vocabulary of the statements

    Definitions written from the wording of the specification, against
    which the functions above are compared. *)

Module Spec.

Fixpoint all_digits (s : string) : bool :=
  match s with
  | EmptyString => true
  | String c s' => Re.digit c && all_digits s'
  end.

(** The number a digit sequence denotes in base ten: every digit weighs
    ten to the number of digits after it. *)
Fixpoint decimal (ds : string) : Z :=
  match ds with
  | EmptyString => 0
  | String d ds' =>
      Z.of_nat (nat_of_ascii d - 48) * 10 ^ Z.of_nat (String.length ds')
      + decimal ds'
  end.

(** The longest run of digits at the head of a string, and what follows. *)
Fixpoint span_digits (s : string) : string * string :=
  match s with
  | String c s' =>
      if Re.digit c
      then let (ds, rest) := span_digits s' in (String c ds, rest)
      else (EmptyString, s)
  | EmptyString => (EmptyString, EmptyString)
  end.

(** The digits between the sign and the comma of a text that starts with
    two at signs, a space, a sign, digits (maybe none) and a comma. *)
Definition header_digits (s : string) : option string :=
  match s with
  | String "@" (String "@" (String " " (String sign s'))) =>
      if Ascii.eqb sign "-" || Ascii.eqb sign "+" then
        match span_digits s' with
        | (ds, String "," _) => Some ds
        | _ => None
        end
      else None
  | _ => None
  end.

(** A text that begins with a hunk header whose number has at least one
    digit. *)
Definition is_hunk_header (s : string) : bool :=
  match header_digits s with
  | Some (String _ _) => true
  | _ => false
  end.

(** The text before and after the last dot of a name, if it has a dot. *)
Fixpoint split_last_dot (s : string) : option (string * string) :=
  match s with
  | EmptyString => None
  | String c s' =>
      match split_last_dot s' with
      | Some (stem, ext) => Some (String c stem, ext)
      | None => if Ascii.eqb c "." then Some (EmptyString, s') else None
      end
  end.

Definition extension (filename : string) : option string :=
  option_map snd (split_last_dot filename).

(** The languages the specification lists, by extension. *)
Definition languages : list (string * string) :=
  [("js", "JavaScript"); ("ts", "TypeScript"); ("java", "Java");
   ("py", "Python"); ("sh", "Bash")].

Fixpoint lookup (k : string) (table : list (string * string)) : option string :=
  match table with
  | [] => None
  | (k', v) :: table' => if String.eqb k k' then Some v else lookup k table'
  end.

(** The label of the code block for an extension, or for none. *)
Definition label_of_extension (ext : option string) : string :=
  match ext with
  | Some e =>
      match lookup e languages with
      | Some language => language ++ " code"
      | None => "code"
      end
  | None => "code"
  end.

Fixpoint has_char (a : ascii) (s : string) : bool :=
  match s with
  | EmptyString => false
  | String c s' => Ascii.eqb c a || has_char a s'
  end.

(** The entries of [commit.files] over all commits, in the order the
    program visits them. *)
Definition entries (commits : list Commit) : list (Commit * File) :=
  flat_map (fun c => map (pair c) (files c)) commits.

(** An entry the selector looks at: its status is neither "unchanged"
    nor "removed", and its name matches one of the patterns. *)
Definition selected (fnmatch : string -> string -> bool)
    (patterns : list string) (f : File) : bool :=
  negb (String.eqb (status f) "unchanged" || String.eqb (status f) "removed")
  && existsb (fnmatch (filename f)) patterns.

(** A commit has a selected entry for a name. *)
Definition touches (fnmatch : string -> string -> bool)
    (patterns : list string) (c : Commit) (name : string) : bool :=
  existsb (fun f => String.eqb (filename f) name && selected fnmatch patterns f)
          (files c).

(** The names of the selected entries, in visiting order, with repeats. *)
Definition selected_names (fnmatch : string -> string -> bool)
    (patterns : list string) (pull : PullRequest) : list string :=
  map (fun e => filename (snd e))
      (filter (fun e => selected fnmatch patterns (snd e))
              (entries (get_commits pull))).

(** A list without its repeats: every element stays where it first
    occurs. *)
Fixpoint first_occurrences_from (seen l : list string) : list string :=
  match l with
  | [] => []
  | x :: l' =>
      if str_in x seen then first_occurrences_from seen l'
      else x :: first_occurrences_from (x :: seen) l'
  end.

Definition first_occurrences (l : list string) : list string :=
  first_occurrences_from [] l.

(** The algorithm of the Change Selector as the specification words it:
    one pass over the entries; a selected entry whose name is not yet
    recorded is recorded with the parsed line of its patch and its
    commit; a patch that does not parse fails the whole pass. *)
Fixpoint select (fnmatch : string -> string -> bool) (patterns : list string)
    (es : list (Commit * File)) (recorded : list (string * (Z * Commit)))
  : result (list (string * (Z * Commit))) :=
  match es with
  | [] => Ok recorded
  | (c, f) :: es' =>
      if selected fnmatch patterns f
         && negb (str_in (filename f) (map fst recorded))
      then
        line <- line_start_patch_of (patch f) ;;
        select fnmatch patterns es'
               (recorded ++ [(filename f, (line, c))])%list
      else select fnmatch patterns es' recorded
  end.

(** The name of a record of the selector's output. *)
Definition record_name (r : string * Z * Commit) : string := fst (fst r).

(** The name has a line feed somewhere before its last dot. *)
Definition line_feed_before_last_dot (filename : string) : bool :=
  match split_last_dot filename with
  | Some (stem, _) => has_char LF stem
  | None => false
  end.

Section Traces.

Context {float : Type}.

(** What a trace shows of each kind of call. *)

(** The files fetched with success: path and content. *)
Definition fetches (tr : trace float) : list (string * string) :=
  flat_map (fun e => match e with
                     | GetContents path _ (Ok content) => [(path, content)]
                     | _ => []
                     end) tr.

(** The prompts sent to the chat endpoint. *)
Definition chats (tr : trace float) : list string :=
  flat_map (fun e => match e with
                     | ChatCompletionCreate _ _ _ content _ => [content]
                     | _ => []
                     end) tr.

(** The prompts sent to the legacy completion endpoint. *)
Definition asked (tr : trace float) : list string :=
  flat_map (fun e => match e with
                     | CompletionCreate _ prompt _ _ _ => [prompt]
                     | _ => []
                     end) tr.

(** The comments a reply was posted to. *)
Definition posts (tr : trace float) : list Z :=
  flat_map (fun e => match e with
                     | CreateReply comment_id _ _ => [comment_id]
                     | _ => []
                     end) tr.

(** The reviews created: title, event and comments. *)
Definition reviews (tr : trace float)
  : list (string * string * list ReviewComment) :=
  flat_map (fun e => match e with
                     | CreateReview body ev comments _ => [(body, ev, comments)]
                     | _ => []
                     end) tr.

Definition raised {A} (r : result A) : option exn :=
  match r with Ok _ => None | Raise x => Some x end.

(** The exception a call was answered with, if it failed. *)
Definition failure (e : event float) : option exn :=
  match e with
  | GetPull _ _ r => raised r
  | GetContents _ _ r => raised r
  | ChatCompletionCreate _ _ _ _ r => raised r
  | GetIssueComments r => raised r
  | CompletionCreate _ _ _ _ r => raised r
  | CreateReply _ _ r => raised r
  | CreateReview _ _ _ r => raised r
  | Print _ => None
  end.

(** The files asked for, answered or not: path and commit. *)
Definition fetch_requests (tr : trace float) : list (string * string) :=
  flat_map (fun e => match e with
                     | GetContents path ref _ => [(path, ref)]
                     | _ => []
                     end) tr.

(** Nothing follows a failed call, and the exception of the failed call
    is the outcome of the run. *)
Fixpoint fail_fast (added : trace float) (outcome : option exn) : Prop :=
  match added with
  | [] => True
  | ev :: rest =>
      match failure ev with
      | None => fail_fast rest outcome
      | Some e => rest = [] /\ outcome = Some e
      end
  end.

(** A computation that stops at the first failed call. *)
Definition fails_fast {A} (m : M float A) : Prop :=
  forall t t' r, m t = (t', r) ->
    exists added, t' = (t ++ added)%list /\ fail_fast added (raised r).

(** The events of the loop of [main]. *)
Definition loop_event (e : event float) : bool :=
  match e with
  | GetContents _ _ _ | ChatCompletionCreate _ _ _ _ _ => true
  | _ => false
  end.

(** The events of [handle_replies]. *)
Definition handler_event (e : event float) : bool :=
  match e with
  | GetPull _ _ _ | GetIssueComments _ | CompletionCreate _ _ _ _ _
  | CreateReply _ _ _ | Print _ => true
  | _ => false
  end.

End Traces.

(** A fetched file with some content. *)
Definition nonempty (pc : string * string) : bool :=
  negb (String.length (snd pc) =? 0)%nat.

(** The prompt built for a fetched file. *)
Definition prompt_of (pc : string * string) : string :=
  prompt (fst pc) (snd pc).

(** What the loop of [main] leaves in the trace: fetches and chat
    requests only, one request per fetched file with some content, with
    the prompt of that file, in the same order; no file fetched twice. *)
Definition loop_trace {float : Type} (loop : trace float) : Prop :=
  forallb loop_event loop = true
  /\ chats loop = map prompt_of (filter nonempty (fetches loop))
  /\ NoDup (map fst (fetches loop)).

(** Where a comment of the loop of [main] comes from: a record, whose
    name and line it carries, and the answer of a chat request made with
    the prompt of that file's fetched content, which it carries under a
    heading. *)
Definition comment_origin {float : Type} (args : Args float)
    (records : list (string * Z * Commit)) (added : trace float)
    (c : ReviewComment) : Prop :=
  (exists commit, In (rc_path c, rc_line c, commit) records)
  /\ exists content text,
       content <> ""
       /\ In (rc_path c, content) (fetches added)
       /\ In (ChatCompletionCreate (openai_model args)
                (openai_temperature args) (openai_max_tokens args)
                (prompt (rc_path c) content) (Ok text)) added
       /\ rc_body c
          = "*ChatGPT review for " ++ rc_path c ++ ":*" ++ nl ++ text.

(** A comment written by the automation identity answers [target]. *)
Definition bot_answers (target : Comment) (c : Comment) : bool :=
  replies_to c target && is_bot c.

(** The human replies to comments of the bot that no comment of the bot
    answers. *)
Definition unanswered (comments : list Comment) : list Comment :=
  filter (fun reply =>
            negb (is_bot reply)
            && existsb (fun c => is_bot c && replies_to reply c) comments
            && negb (existsb (bot_answers reply) comments))
         comments.

(** The unanswered replies met while visiting one comment, in the order
    [handle_replies] meets them. *)
Definition pending_of (comments : list Comment) (comment : Comment)
  : list Comment :=
  if is_bot comment
  then filter (fun reply => negb (existsb (bot_answers reply) comments))
              (human_replies comments comment)
  else [].

(** What handling one reply adds to the trace when nothing fails: for an
    answered reply no call at all; for an unanswered one a completion
    request with the prompt of the reply, then its answer posted as a
    reply to that reply, then a line of output. *)
Definition reply_part {float : Type} (comments : list Comment)
    (model : string) (temperature : float) (max_tokens : Z)
    (reply : Comment) (part : trace float) : Prop :=
  if existsb (bot_answers reply) comments
  then exists line, part = [Print line]
  else exists text line,
         part = [CompletionCreate model (reply_prompt reply) temperature
                   max_tokens (Ok text);
                 CreateReply (id reply) text (Ok tt);
                 Print line].

(** The same for one comment of the list. *)
Definition comment_part {float : Type} (comments : list Comment)
    (model : string) (temperature : float) (max_tokens : Z)
    (comment : Comment) (part : trace float) : Prop :=
  if is_bot comment
  then exists parts,
         part = List.concat parts
         /\ Forall2 (reply_part comments model temperature max_tokens)
                    (human_replies comments comment) parts
  else exists line, part = [Print line].

(** [sub] occurs in [s]. *)
Definition contains (s sub : string) : Prop :=
  exists before after, s = before ++ sub ++ after.

End Spec.

(* ================================================================= *)
(** ** Sample pull requests *)

Module Samples.

(** [a.py] is modified in the first commit and again in the second. *)
Definition c1 : Commit :=
  mkCommit "c1"
    [mkFile "a.py" "modified" (Some "@@ -3,2 +3,4 @@ import os");
     mkFile "gone.py" "removed" (Some "@@ -1,2 +0,0 @@");
     mkFile "same.py" "unchanged" None].

Definition c2 : Commit :=
  mkCommit "c2"
    [mkFile "a.py" "modified" (Some "@@ -9,2 +9,4 @@ def f():");
     mkFile "README.md" "modified" (Some "@@ -1,1 +1,2 @@")].

Definition twice : PullRequest := mkPull [c1; c2].

(** One commit adds [app.ts]: the header starts at line 0. *)
Definition commit1 : Commit :=
  mkCommit "commit1" [mkFile "app.ts" "added" (Some "@@ -0,0 +1,10 @@")].

Definition one_file : PullRequest := mkPull [commit1].

(** Names recorded against the alphabet: [z.py] before [b.py] before
    [a.py], the last one changed again later. *)
Definition k1 : Commit :=
  mkCommit "k1"
    [mkFile "z.py" "added" (Some "@@ -0,0 +1,3 @@");
     mkFile "b.py" "modified" (Some "@@ -5,3 +5,4 @@")].

Definition k2 : Commit :=
  mkCommit "k2"
    [mkFile "a.py" "renamed" (Some "@@ -7,1 +7,1 @@");
     mkFile "z.py" "modified" (Some "@@ -2,1 +2,2 @@")].

Definition unordered : PullRequest := mkPull [k1; k2].

(** Two comments of the bot, and one human reply to the first. *)
Definition bot_a : Comment :=
  mkComment 1 bot_login None "*ChatGPT review for a.py:*" "c1" "a.py"
            (Some 3) "@@ -3,2 +3,4 @@ import os".

Definition bot_b : Comment :=
  mkComment 2 bot_login None "*ChatGPT review for b.py:*" "c1" "b.py"
            (Some 5) "@@ -5,3 +5,4 @@".

Definition human_reply : Comment :=
  mkComment 3 "alice" (Some 1) "Why is this a bug?" "c1" "a.py"
            (Some 3) "@@ -3,2 +3,4 @@ import os".

(** The answer of the bot to that reply, from an earlier run. *)
Definition bot_answer : Comment :=
  mkComment 4 bot_login (Some 3) "Because of the import." "c1" "a.py"
            (Some 3) "@@ -3,2 +3,4 @@ import os".

Definition thread_open : list Comment := [bot_a; bot_b; human_reply].
Definition thread_closed : list Comment :=
  [bot_a; bot_b; human_reply; bot_answer].

(** A host that serves a pull request and a thread, with one empty file,
    and a completion service with fixed answers.  The temperature is
    kept as the text of the flag. *)
Definition env_of (pull : PullRequest) (thread : list Comment) : Env string :=
  mkEnv
    (fun _ _ _ => Ok pull)
    (fun _ path _ => Ok (if String.eqb path "empty.py" then "" else "x = 1"))
    (fun _ => Ok thread)
    (fun _ _ _ => Ok tt)
    (fun _ _ _ _ => Ok tt)
    (fun _ _ _ _ _ => Ok "No obvious bugs.")
    (fun _ _ _ _ _ => Ok "Here is why.").

(** One commit with a file that has content and a file that is empty. *)
Definition e1 : Commit :=
  mkCommit "e1"
    [mkFile "full.py" "added" (Some "@@ -0,0 +1,1 @@");
     mkFile "empty.py" "added" (Some "@@ -0,0 +0,0 @@")].

Definition with_empty : PullRequest := mkPull [e1].
Definition only_empty : PullRequest :=
  mkPull [mkCommit "e2" [mkFile "empty.py" "added" (Some "@@ -0,0 +0,0 @@")]].

Definition args_of (patterns : string) : Args string :=
  mkArgs "sk-key" "ghp-token" 7 "gpt-3.5-turbo" "0.5" 2048 (Some patterns).

(** The same host with a completion service that refuses every chat
    request. *)
Definition env_chat_down (pull : PullRequest) (thread : list Comment)
  : Env string :=
  mkEnv
    (fun _ _ _ => Ok pull)
    (fun _ path _ => Ok (if String.eqb path "empty.py" then "" else "x = 1"))
    (fun _ => Ok thread)
    (fun _ _ _ => Ok tt)
    (fun _ _ _ _ => Ok tt)
    (fun _ _ _ _ _ => Raise (ServiceError "rate limit"))
    (fun _ _ _ _ _ => Ok "Here is why.").

(** The same host with a completion service that refuses every legacy
    completion request. *)
Definition env_completion_down (pull : PullRequest) (thread : list Comment)
  : Env string :=
  mkEnv
    (fun _ _ _ => Ok pull)
    (fun _ path _ => Ok (if String.eqb path "empty.py" then "" else "x = 1"))
    (fun _ => Ok thread)
    (fun _ _ _ => Ok tt)
    (fun _ _ _ _ => Ok tt)
    (fun _ _ _ _ _ => Ok "No obvious bugs.")
    (fun _ _ _ _ _ => Raise (ServiceError "overloaded")).

(** A first entry without a hunk header, then a sound entry of the same
    name in a later commit. *)
Definition broken : PullRequest :=
  mkPull
    [mkCommit "b1" [mkFile "logo.py" "added" (Some "Binary files differ")];
     mkCommit "b2" [mkFile "logo.py" "modified" (Some "@@ -1,2 +1,3 @@")]].

(** Entries that are skipped or match nothing, with patches that would
    not parse. *)
Definition nothing_to_review : PullRequest :=
  mkPull
    [mkCommit "n1"
       [mkFile "old.py" "removed" None;
        mkFile "same.py" "unchanged" (Some "no header");
        mkFile "notes.txt" "added" (Some "@@ -1 +1 @@")]].

End Samples.

(* ================================================================= *)
(** * Theorems *)

(* ================================================================= *)
(** ** Strings and the matcher *)

Lemma append_assoc (a b c : string) : (a ++ b) ++ c = a ++ (b ++ c).
Proof. induction a as [|x a IH]; simpl; [reflexivity | now rewrite IH]. Qed.

Lemma append_nil_r (a : string) : a ++ "" = a.
Proof. induction a as [|x a IH]; simpl; [reflexivity | now rewrite IH]. Qed.

Lemma length_append (a b : string) :
  String.length (a ++ b) = (String.length a + String.length b)%nat.
Proof. induction a as [|x a IH]; simpl; [reflexivity | now rewrite IH]. Qed.

(** A pattern anchored at the start is only tried at position 0. *)
Lemma search_from_bos_false (re : Re.regex) (s : string) :
  Re.search_from (Re.Bos :: re) false s = None.
Proof. induction s as [|c s IH]; simpl; [reflexivity | exact IH]. Qed.

Lemma search_bos (re : Re.regex) (s : string) :
  Re.search (Re.Bos :: re) s = Re.match_here re true s.
Proof.
  unfold Re.search.
  destruct s as [|c s]; simpl.
  - now destruct (Re.match_here re true "").
  - destruct (Re.match_here re true (String c s)); [reflexivity|].
    apply search_from_bos_false.
Qed.

Lemma digit_not_comma (c : ascii) : Re.digit c = true -> Re.lit "," c = false.
Proof.
  unfold Re.digit, Re.lit. intros H.
  destruct (Ascii.eqb_spec c ","); [subst; discriminate H | reflexivity].
Qed.

(** The captured digits followed by a comma: the longest run of digits,
    provided a comma follows it; giving digits back never helps. *)
Lemma group_digits_comma (start : bool) (s : string) :
  Re.group Re.digit (Re.match_here [Re.One (Re.lit ",")]) start s =
  match Spec.span_digits s with
  | (ds, String "," _) => Some (ds, [])
  | _ => None
  end.
Proof.
  revert start. induction s as [|c s IH]; intros start; simpl; [reflexivity|].
  destruct (Re.digit c) eqn:Hd.
  - rewrite IH. destruct (Spec.span_digits s) as [ds rest].
    destruct rest as [|r rest]; simpl.
    + now rewrite (digit_not_comma c Hd).
    + destruct (Ascii.eqb_spec r ",") as [->|Hr].
      * reflexivity.
      * rewrite (digit_not_comma c Hd).
        destruct r as [[] [] [] [] [] [] [] []]; try reflexivity.
  - unfold Re.lit. destruct (Ascii.eqb_spec c ",") as [->|Hc]; [reflexivity|].
    destruct c as [[] [] [] [] [] [] [] []]; try reflexivity. now elim Hc.
Qed.

Lemma match_patch_re (s : string) :
  Re.search patch_re s = option_map (fun ds => [ds]) (Spec.header_digits s).
Proof.
  unfold patch_re. rewrite search_bos.
  destruct s as [|a0 s]; [reflexivity|].
  destruct s as [|a1 s]; [simpl; now destruct a0 as [[] [] [] [] [] [] [] []]|].
  destruct s as [|a2 s];
    [simpl; destruct a0 as [[] [] [] [] [] [] [] []]; try reflexivity;
     now destruct a1 as [[] [] [] [] [] [] [] []]|].
  destruct s as [|sign s].
  { simpl. destruct a0 as [[] [] [] [] [] [] [] []]; try reflexivity;
      destruct a1 as [[] [] [] [] [] [] [] []]; try reflexivity;
      now destruct a2 as [[] [] [] [] [] [] [] []]. }
  unfold Spec.header_digits.
  cbn [Re.match_here].
  unfold Re.lit at 1 2 3.
  destruct (Ascii.eqb_spec a0 "@") as [->|H0];
    [|destruct a0 as [[] [] [] [] [] [] [] []]; try reflexivity; now elim H0].
  destruct (Ascii.eqb_spec a1 "@") as [->|H1];
    [|destruct a1 as [[] [] [] [] [] [] [] []]; try reflexivity; now elim H1].
  destruct (Ascii.eqb_spec a2 " ") as [->|H2];
    [|destruct a2 as [[] [] [] [] [] [] [] []]; try reflexivity; now elim H2].
  unfold Re.one_of.
  destruct (Ascii.eqb sign "-" || Ascii.eqb sign "+"); [|reflexivity].
  rewrite group_digits_comma.
  destruct (Spec.span_digits s) as [ds rest].
  destruct rest as [|r rest]; [reflexivity|].
  destruct r as [[] [] [] [] [] [] [] []]; reflexivity.
Qed.

(** [line_start_patch] through the vocabulary of the statements. *)
Lemma line_start_patch_unfold (s : string) :
  line_start_patch s =
  match Spec.header_digits s with
  | Some ds => Py.int ds
  | None => Raise AttributeError
  end.
Proof.
  unfold line_start_patch. rewrite match_patch_re.
  now destruct (Spec.header_digits s).
Qed.

Lemma digit_value_digit (c : ascii) :
  Re.digit c = true ->
  Py.digit_value c = Some (Z.of_nat (nat_of_ascii c - 48)).
Proof. unfold Re.digit, Py.digit_value. now intros ->. Qed.

Lemma int_from_decimal (ds : string) (acc : Z) :
  Spec.all_digits ds = true ->
  Py.int_from acc ds =
  Ok (acc * 10 ^ Z.of_nat (String.length ds) + Spec.decimal ds).
Proof.
  revert acc. induction ds as [|d ds IH]; intros acc H;
    cbn [Py.int_from Spec.all_digits Spec.decimal String.length] in *.
  - f_equal. change (10 ^ Z.of_nat 0) with 1. lia.
  - apply andb_true_iff in H as [Hd Hds].
    rewrite (digit_value_digit d Hd), (IH _ Hds). f_equal.
    rewrite Nat2Z.inj_succ, Z.pow_succ_r by lia. ring.
Qed.

Lemma int_digits (ds : string) :
  ds <> "" -> Spec.all_digits ds = true -> Py.int ds = Ok (Spec.decimal ds).
Proof.
  intros Hne H. destruct ds as [|d ds]; [now elim Hne|].
  unfold Py.int. rewrite (int_from_decimal _ 0 H). f_equal.
Qed.

Lemma span_digits_app (ds rest : string) :
  Spec.all_digits ds = true ->
  Spec.span_digits (ds ++ String "," rest) = (ds, String "," rest).
Proof.
  induction ds as [|d ds IH]; simpl; intros H; [reflexivity|].
  apply andb_true_iff in H as [Hd Hds]. now rewrite Hd, (IH Hds).
Qed.

Lemma span_digits_spec (s ds rest : string) :
  Spec.span_digits s = (ds, rest) ->
  s = ds ++ rest /\ Spec.all_digits ds = true.
Proof.
  revert ds rest. induction s as [|c s IH]; simpl; intros ds rest H.
  - now inversion H.
  - destruct (Re.digit c) eqn:Hd.
    + destruct (Spec.span_digits s) as [ds' rest'] eqn:E.
      inversion H; subst. destruct (IH _ _ eq_refl) as [-> Hall].
      simpl. now rewrite Hd, Hall.
    + now inversion H.
Qed.

(** The boolean test means what its name says. *)
Lemma is_hunk_header_iff (s : string) :
  Spec.is_hunk_header s = true <->
  exists sign ds rest,
    (sign = "-"%char \/ sign = "+"%char) /\ ds <> "" /\
    Spec.all_digits ds = true /\
    s = "@@ " ++ String sign ds ++ "," ++ rest.
Proof.
  split.
  - unfold Spec.is_hunk_header, Spec.header_digits. intros H.
    destruct s as [|a0 [|a1 [|a2 [|sign s]]]]; try discriminate H;
      try (destruct a0 as [[] [] [] [] [] [] [] []]; discriminate H);
      try (destruct a0 as [[] [] [] [] [] [] [] []]; try discriminate H;
           destruct a1 as [[] [] [] [] [] [] [] []]; try discriminate H;
           destruct a2 as [[] [] [] [] [] [] [] []]; discriminate H).
    destruct (Ascii.eqb_spec a0 "@") as [->|H0];
      [|destruct a0 as [[] [] [] [] [] [] [] []]; try discriminate H; now elim H0].
    destruct (Ascii.eqb_spec a1 "@") as [->|H1];
      [|destruct a1 as [[] [] [] [] [] [] [] []]; try discriminate H; now elim H1].
    destruct (Ascii.eqb_spec a2 " ") as [->|H2];
      [|destruct a2 as [[] [] [] [] [] [] [] []]; try discriminate H; now elim H2].
    destruct (Ascii.eqb sign "-" || Ascii.eqb sign "+") eqn:Hs;
      [|discriminate H].
    destruct (Spec.span_digits s) as [ds rest] eqn:E.
    destruct (span_digits_spec _ _ _ E) as [-> Hall].
    destruct rest as [|r rest]; [discriminate H|].
    destruct (Ascii.eqb_spec r ",") as [->|Hr];
      [|destruct r as [[] [] [] [] [] [] [] []]; try discriminate H; now elim Hr].
    destruct ds as [|d ds]; [discriminate H|].
    exists sign, (String d ds), rest. repeat split; try easy.
    + apply orb_true_iff in Hs as [Hs|Hs]; apply Ascii.eqb_eq in Hs; auto.
  - intros (sign & ds & rest & Hs & Hne & Hall & ->).
    unfold Spec.is_hunk_header, Spec.header_digits. simpl.
    assert (Ascii.eqb sign "-" || Ascii.eqb sign "+" = true) as ->
      by (destruct Hs as [->| ->]; reflexivity).
    rewrite (span_digits_app _ _ Hall).
    destruct ds; [now elim Hne | reflexivity].
Qed.

Lemma header_digits_app (sign : ascii) (ds rest : string) :
  sign = "-"%char \/ sign = "+"%char ->
  Spec.all_digits ds = true ->
  Spec.header_digits ("@@ " ++ String sign ds ++ "," ++ rest) = Some ds.
Proof.
  intros Hs Hall. unfold Spec.header_digits. simpl.
  assert (Ascii.eqb sign "-" || Ascii.eqb sign "+" = true) as ->
    by (destruct Hs as [->| ->]; reflexivity).
  now rewrite (span_digits_app _ _ Hall).
Qed.

(** A text that opens with a hunk header is parsed. *)
Lemma line_start_patch_header_ok (s : string) :
  Spec.is_hunk_header s = true -> exists n, line_start_patch s = Ok n.
Proof.
  intros H.
  apply is_hunk_header_iff in H as (sign & ds & rest & Hs & Hne & Hall & ->).
  rewrite line_start_patch_unfold, (header_digits_app _ _ _ Hs Hall).
  eexists. now apply int_digits.
Qed.

(** [int] reads back what [str] prints: the digits of the standard
    library's decimal printer denote the number printed. *)
Lemma int_from_uint_acc (u : Decimal.uint) (acc : positive) :
  Py.int_from (Z.pos acc) (NilEmpty.string_of_uint u)
  = Ok (Z.pos (Pos.of_uint_acc u acc)).
Proof.
  revert acc. induction u as [|u IH|u IH|u IH|u IH|u IH|u IH|u IH|u IH|u IH|u IH];
    intros acc; cbn [NilEmpty.string_of_uint Py.int_from Pos.of_uint_acc];
    [reflexivity|..];
    match goal with
    | |- context [Py.digit_value ?c] =>
        let v := eval vm_compute in (Py.digit_value c) in
        change (Py.digit_value c) with v
    end; cbv iota beta; rewrite <- IH; f_equal; lia.
Qed.

Lemma int_from_uint (u : Decimal.uint) :
  Py.int_from 0 (NilEmpty.string_of_uint u) = Ok (Z.of_N (Pos.of_uint u)).
Proof.
  induction u as [|u IH|u IH|u IH|u IH|u IH|u IH|u IH|u IH|u IH|u IH];
    cbn [NilEmpty.string_of_uint Py.int_from Pos.of_uint];
    [reflexivity|exact IH|..];
    match goal with
    | |- context [Py.digit_value ?c] =>
        let v := eval vm_compute in (Py.digit_value c) in
        change (Py.digit_value c) with v
    end; cbv iota beta; apply int_from_uint_acc.
Qed.

Lemma all_digits_uint (u : Decimal.uint) :
  Spec.all_digits (NilEmpty.string_of_uint u) = true.
Proof. induction u; simpl; auto. Qed.

Lemma str_of_int_digits (n : Z) :
  0 <= n ->
  str_of_int n <> "" /\ Spec.all_digits (str_of_int n) = true
  /\ Py.int (str_of_int n) = Ok n.
Proof.
  intros Hn. destruct n as [|p|p]; [now repeat split| |lia].
  unfold str_of_int, Z.to_int, NilZero.string_of_int, NilZero.string_of_uint.
  pose proof (Unsigned.to_uint_nonnil p) as Hnil.
  pose proof (int_from_uint (Pos.to_uint p)) as Hint.
  pose proof (all_digits_uint (Pos.to_uint p)) as Hall.
  rewrite Unsigned.of_to in Hint.
  destruct (Pos.to_uint p); try (now elim Hnil);
    (split; [discriminate|]); (split; [exact Hall|]); exact Hint.
Qed.

(** X3. The parser reads back the number a header was printed from:
    for every non-negative integer, a text that starts with the two at
    signs, a space, a sign, the decimal text of the integer and a comma
    is parsed to that integer. *)
Lemma line_start_patch_str_of_int (n : Z) (rest : string) :
  0 <= n ->
  line_start_patch ("@@ -" ++ str_of_int n ++ "," ++ rest) = Ok n
  /\ line_start_patch ("@@ +" ++ str_of_int n ++ "," ++ rest) = Ok n
  /\ Spec.decimal (str_of_int n) = n.
Proof.
  intros Hn. destruct (str_of_int_digits n Hn) as (Hne & Hall & Hint).
  rewrite !line_start_patch_unfold.
  change ("@@ -" ++ str_of_int n ++ "," ++ rest)
    with ("@@ " ++ String "-" (str_of_int n) ++ "," ++ rest).
  change ("@@ +" ++ str_of_int n ++ "," ++ rest)
    with ("@@ " ++ String "+" (str_of_int n) ++ "," ++ rest).
  rewrite !header_digits_app by auto.
  repeat split; try exact Hint.
  pose proof (int_digits _ Hne Hall) as Hd. congruence.
Qed.

(* ================================================================= *)
(** ** The Patch Parser *)

(** C2. A text that begins with two at signs, a space, a minus or a plus,
    a non-empty sequence of decimal digits and a comma makes
    [line_start_patch] return the integer the digits denote in base ten,
    whatever follows the comma. *)
Theorem line_start_patch_returns_number (sign : ascii) (ds rest : string) :
  sign = "-"%char \/ sign = "+"%char ->
  ds <> "" ->
  Spec.all_digits ds = true ->
  line_start_patch ("@@ " ++ String sign ds ++ "," ++ rest)
  = Ok (Spec.decimal ds).
Proof.
  intros Hs Hne Hall.
  rewrite line_start_patch_unfold, (header_digits_app _ _ _ Hs Hall).
  now apply int_digits.
Qed.

Lemma line_start_patch_returns_number_witness :
  line_start_patch "@@ -12,3 +12,4 @@" = Ok 12
  /\ line_start_patch "@@ +007,9 @@ def f():" = Ok 7.
Proof.
  split.
  - exact (line_start_patch_returns_number "-" "12" "3 +12,4 @@"
             (or_introl eq_refl) ltac:(discriminate) eq_refl).
  - exact (line_start_patch_returns_number "+" "007" "9 @@ def f():"
             (or_intror eq_refl) ltac:(discriminate) eq_refl).
Defined.

(** C3. A text that does not begin with such a header makes
    [line_start_patch] raise: [AttributeError] from [match.group] when
    the pattern does not match, [ValueError] from [int] when it matches
    with no digit.  No value is returned. *)
Theorem line_start_patch_raises (s : string) :
  Spec.is_hunk_header s = false ->
  (line_start_patch s = Raise AttributeError
   \/ line_start_patch s = Raise ValueError)
  /\ forall n, line_start_patch s <> Ok n.
Proof.
  intros H. rewrite line_start_patch_unfold.
  unfold Spec.is_hunk_header in H.
  destruct (Spec.header_digits s) as [[|d ds]|].
  - split; [now right | discriminate].
  - discriminate H.
  - split; [now left | discriminate].
Qed.

Lemma line_start_patch_raises_witness :
  Spec.is_hunk_header "@@ -,0 +1 @@" = false
  /\ ((line_start_patch "@@ -,0 +1 @@" = Raise AttributeError
       \/ line_start_patch "@@ -,0 +1 @@" = Raise ValueError)
      /\ forall n, line_start_patch "@@ -,0 +1 @@" <> Ok n).
Proof.
  split; [reflexivity|].
  exact (line_start_patch_raises "@@ -,0 +1 @@" eq_refl).
Defined.

Example line_start_patch_no_header :
  line_start_patch "diff --git a/x b/x" = Raise AttributeError
  /\ line_start_patch " @@ -1,2 +1,2 @@" = Raise AttributeError
  /\ line_start_patch "@@ -12 +12 @@" = Raise AttributeError
  /\ line_start_patch "@@ -,0 +1 @@" = Raise ValueError.
Proof. repeat split. Qed.

(* ================================================================= *)
(** ** The Prompt Builder *)

Lemma split_last_dot_none (s : string) :
  Spec.split_last_dot s = None <-> Spec.has_char "." s = false.
Proof.
  induction s as [|c s IH]; simpl; [easy|].
  destruct (Spec.split_last_dot s) as [[stem ext]|].
  - split; [discriminate|]. intros H. apply orb_false_iff in H as [_ H].
    now apply IH in H.
  - destruct (Ascii.eqb c "."); simpl; [easy|]. now rewrite <- IH.
Qed.

(** After the dot: a captured run without a dot that reaches the end. *)
Lemma group_other_than_dot_eos (start : bool) (s : string) :
  Re.group (Re.other_than ".") (Re.match_here [Re.Eos]) start s =
  if Spec.has_char "." s then None else Some (s, []).
Proof.
  revert start. induction s as [|c s IH]; intros start; [reflexivity|].
  cbn [Re.group Spec.has_char]. unfold Re.other_than at 1.
  destruct (Ascii.eqb_spec c ".") as [->|Hc]; cbn [negb orb].
  - cbn [Re.match_here Re.at_eos]. now destruct s.
  - rewrite IH. destruct (Spec.has_char "." s) eqn:Hdot; [|reflexivity].
    cbn [Re.match_here Re.at_eos]. destruct s; [discriminate Hdot | reflexivity].
Qed.

Lemma match_code_type_tail (start : bool) (c : ascii) (s : string) :
  Re.match_here [Re.One (Re.lit "."); Re.Group (Re.other_than "."); Re.Eos]
    start (String c s) =
  if Ascii.eqb c "." && negb (Spec.has_char "." s) then Some [s] else None.
Proof.
  cbn [Re.match_here]. unfold Re.lit.
  destruct (Ascii.eqb c "."); [|reflexivity].
  rewrite group_other_than_dot_eos.
  now destruct (Spec.has_char "." s).
Qed.

(** The whole pattern: the text splits at its last dot, and the part
    before the dot holds no line feed. *)
Lemma many_dot_then_extension (start : bool) (s : string) :
  Re.many Re.dot
    (Re.match_here [Re.One (Re.lit "."); Re.Group (Re.other_than "."); Re.Eos])
    start s =
  match Spec.split_last_dot s with
  | Some (stem, ext) => if Spec.has_char LF stem then None else Some [ext]
  | None => None
  end.
Proof.
  revert start. induction s as [|c s IH]; intros start; [reflexivity|].
  cbn [Re.many Spec.split_last_dot]. rewrite IH, match_code_type_tail.
  unfold Re.dot.
  destruct (Spec.split_last_dot s) as [[stem ext]|] eqn:E.
  - assert (Spec.has_char "." s = true) as Hdot.
    { destruct (Spec.has_char "." s) eqn:Hd; [reflexivity|].
      apply split_last_dot_none in Hd. congruence. }
    rewrite Hdot, andb_false_r. cbn [Spec.has_char].
    destruct (Ascii.eqb c LF); cbn [negb orb]; [reflexivity|].
    now destruct (Spec.has_char LF stem).
  - apply split_last_dot_none in E. rewrite E. cbn [negb]. rewrite andb_true_r.
    destruct (Ascii.eqb_spec c LF) as [->|Hc]; cbn [negb]; [reflexivity|].
    destruct (Ascii.eqb c "."); reflexivity.
Qed.

(** [code_type] through the vocabulary of the statements. *)
Lemma code_type_unfold (filename : string) :
  code_type filename =
  match Spec.split_last_dot filename with
  | Some (stem, ext) =>
      if Spec.has_char LF stem then None else Spec.lookup ext Spec.languages
  | None => None
  end.
Proof.
  unfold code_type, code_type_re. rewrite search_bos.
  cbn [Re.match_here]. rewrite many_dot_then_extension.
  destruct (Spec.split_last_dot filename) as [[stem ext]|]; [|reflexivity].
  destruct (Spec.has_char LF stem); [reflexivity|].
  unfold Re.group1, Spec.languages, Spec.lookup. cbn [nth].
  repeat match goal with
         | |- context [String.eqb ext ?x] => destruct (String.eqb ext x)
         end; reflexivity.
Qed.

(** The label stands right after the opening words of the prompt. *)
Lemma prompt_starts (filename contents : string) :
  exists rest,
    prompt filename contents =
    "Please evaluate the  " ++ code_label filename ++ " below." ++ rest.
Proof. unfold prompt. eexists. reflexivity. Qed.

Lemma prompt_contains_label (filename contents : string) :
  Spec.contains (prompt filename contents) (code_label filename).
Proof.
  destruct (prompt_starts filename contents) as [rest H].
  exists "Please evaluate the  ", (" below." ++ rest). exact H.
Qed.

(** The file content stands verbatim between the fences. *)
Lemma prompt_embeds_contents (filename contents : string) :
  Spec.contains (prompt filename contents)
                ("```" ++ nl ++ contents ++ nl ++ "```").
Proof.
  unfold prompt, Spec.contains.
  eexists. exists "". rewrite append_nil_r.
  repeat rewrite <- append_assoc. reflexivity.
Qed.

(** Names without a line feed before their last dot are labelled by
    their extension, as the specification lists them. *)
Lemma code_label_by_extension (filename : string) :
  Spec.line_feed_before_last_dot filename = false ->
  code_label filename = Spec.label_of_extension (Spec.extension filename).
Proof.
  unfold Spec.line_feed_before_last_dot, Spec.extension, code_label.
  rewrite code_type_unfold.
  destruct (Spec.split_last_dot filename) as [[stem ext]|]; [|reflexivity].
  intros ->. cbn [option_map snd Spec.label_of_extension].
  unfold Spec.languages, Spec.lookup.
  repeat match goal with
         | |- context [String.eqb ext ?x] => destruct (String.eqb ext x)
         end; reflexivity.
Qed.

(** A line feed before the last dot hides the extension from the
    pattern: the label is the bare one. *)
Lemma code_label_line_feed (filename : string) :
  Spec.line_feed_before_last_dot filename = true ->
  code_type filename = None /\ code_label filename = "code".
Proof.
  unfold Spec.line_feed_before_last_dot, code_label.
  rewrite code_type_unfold.
  destruct (Spec.split_last_dot filename) as [[stem ext]|]; [|discriminate].
  now intros ->.
Qed.

Example prompt_foo_py :
  code_label "foo.py" = "Python code"
  /\ code_label "foo.bin" = "code"
  /\ code_label "Makefile" = "code"
  /\ code_label "foo.PY" = "code"
  /\ code_label "a.b.ts" = "TypeScript code".
Proof. repeat split. Qed.

(** C6, at a name the program mislabels.  The name [a<LF>b.py] has the
    extension [py], which the specification labels "Python code"; the
    dot of the pattern does not cross the line feed, [search] finds no
    match, [code_type] returns [None] and the prompt carries the bare
    label. *)
Theorem prompt_label_line_feed_name :
  let filename := "a" ++ nl ++ "b.py" in
  Spec.extension filename = Some "py"
  /\ Spec.label_of_extension (Spec.extension filename) = "Python code"
  /\ Re.search code_type_re filename = None
  /\ code_type filename = None
  /\ code_label filename = "code"
  /\ forall contents, exists rest,
       prompt filename contents = "Please evaluate the  code below." ++ rest.
Proof.
  cbv zeta. repeat split.
  intros contents. unfold prompt. eexists.
  change (code_label ("a" ++ nl ++ "b.py")) with "code". reflexivity.
Qed.

(* ================================================================= *)
(** ** The Change Selector *)

Lemma str_in_In (x : string) (l : list string) : str_in x l = true <-> In x l.
Proof.
  unfold str_in. rewrite existsb_exists. split.
  - intros (y & Hy & E). apply String.eqb_eq in E. now subst.
  - intros H. exists x. split; [exact H | apply String.eqb_refl].
Qed.

Lemma str_in_false (x : string) (l : list string) :
  str_in x l = false <-> ~ In x l.
Proof.
  rewrite <- str_in_In. destruct (str_in x l); split; congruence.
Qed.

Lemma str_in_ext (x : string) (l1 l2 : list string) :
  (forall y, In y l1 <-> In y l2) -> str_in x l1 = str_in x l2.
Proof.
  intros H. destruct (str_in x l2) eqn:E.
  - apply str_in_In. apply H. now apply str_in_In.
  - apply str_in_false. intros Hin. apply str_in_false in E. apply E.
    now apply H.
Qed.

Lemma str_in_app (x : string) (l1 l2 : list string) :
  str_in x (l1 ++ l2) = str_in x l1 || str_in x l2.
Proof. unfold str_in. apply existsb_app. Qed.

Section FirstOccurrences.

Lemma first_occurrences_from_ext (s1 s2 l : list string) :
  (forall y, In y s1 <-> In y s2) ->
  Spec.first_occurrences_from s1 l = Spec.first_occurrences_from s2 l.
Proof.
  revert s1 s2. induction l as [|x l IH]; intros s1 s2 H; simpl; [reflexivity|].
  rewrite (str_in_ext x s1 s2 H).
  destruct (str_in x s2); [now apply IH|].
  f_equal. apply IH. intros y. simpl. now rewrite H.
Qed.

Lemma first_occurrences_from_In (seen l : list string) (x : string) :
  In x (Spec.first_occurrences_from seen l) <-> In x l /\ ~ In x seen.
Proof.
  revert seen. induction l as [|y l IH]; intros seen; simpl; [tauto|].
  destruct (str_in y seen) eqn:E.
  - rewrite IH. apply str_in_In in E. split.
    + tauto.
    + intros [[->|H] Hn]; tauto.
  - apply str_in_false in E. simpl. rewrite IH. simpl. split.
    + intros [->|[H Hn]]; [tauto|]. split; [tauto|]. intros Hx. apply Hn. now right.
    + intros [[->|H] Hn]; [now left|].
      destruct (string_dec y x) as [->|Hne]; [now left|]. right.
      split; [exact H|]. intros [Hx|Hx]; tauto.
Qed.

Lemma first_occurrences_from_NoDup (seen l : list string) :
  NoDup (Spec.first_occurrences_from seen l).
Proof.
  revert seen. induction l as [|y l IH]; intros seen; simpl; [constructor|].
  destruct (str_in y seen); [apply IH|].
  constructor; [|apply IH].
  rewrite first_occurrences_from_In. simpl. tauto.
Qed.

(** The vocabulary is sound: no repeats, the same elements. *)
Lemma first_occurrences_NoDup (l : list string) :
  NoDup (Spec.first_occurrences l).
Proof. apply first_occurrences_from_NoDup. Qed.

Lemma first_occurrences_In (l : list string) (x : string) :
  In x (Spec.first_occurrences l) <-> In x l.
Proof. unfold Spec.first_occurrences. rewrite first_occurrences_from_In. simpl. tauto. Qed.

End FirstOccurrences.

Section ChangeSelectorFacts.

Variable fnmatch : string -> string -> bool.
Variable patterns : list string.

Abbreviation selected := (Spec.selected fnmatch patterns).
Abbreviation select := (Spec.select fnmatch patterns).

Lemma truthy_entry_keys (changes : changes_t) (k : string) :
  truthy_entry (Dict.get changes k) = str_in k (map fst changes).
Proof.
  induction changes as [|[k' v] d IH]; simpl; [reflexivity|].
  rewrite (String.eqb_sym k k').
  destruct (String.eqb k' k); [reflexivity | exact IH].
Qed.

Lemma dict_set_absent (changes : changes_t) (k : string) (v : Z * Commit) :
  str_in k (map fst changes) = false ->
  Dict.set changes k v = (changes ++ [(k, v)])%list.
Proof.
  induction changes as [|[k' v'] d IH]; simpl; [reflexivity|].
  rewrite (String.eqb_sym k k').
  destruct (String.eqb k' k); simpl; [discriminate|].
  intros H. now rewrite IH.
Qed.

(** The loop over the patterns records the file at most once: at the
    first pattern that matches, if the name is not yet a key. *)
Lemma for_patterns_spec (commit : Commit) (file : File) (ps : list string)
    (changes : changes_t) :
  for_patterns fnmatch commit file ps changes =
  if existsb (fnmatch (filename file)) ps
     && negb (str_in (filename file) (map fst changes))
  then line <- line_start_patch_of (patch file) ;;
       Ok (changes ++ [(filename file, (line, commit))])%list
  else Ok changes.
Proof.
  revert changes. induction ps as [|p ps IH]; intros changes; simpl;
    [reflexivity|].
  rewrite truthy_entry_keys.
  destruct (fnmatch (filename file) p) eqn:Hp;
    destruct (str_in (filename file) (map fst changes)) eqn:Hin; simpl.
  - rewrite IH, Hin. now rewrite andb_false_r.
  - destruct (line_start_patch_of (patch file)) as [line|e]; simpl;
      [|reflexivity].
    rewrite IH, (dict_set_absent _ _ _ Hin), map_app, str_in_app. simpl.
    rewrite String.eqb_refl. simpl. now rewrite orb_true_r, andb_false_r.
  - rewrite IH, Hin. reflexivity.
  - rewrite IH, Hin. reflexivity.
Qed.

Lemma select_app (es1 es2 : list (Commit * File)) (recorded : changes_t) :
  select (es1 ++ es2) recorded =
  (recorded' <- select es1 recorded ;; select es2 recorded').
Proof.
  revert recorded. induction es1 as [|[c f] es1 IH]; intros recorded; simpl;
    [reflexivity|].
  destruct (selected f && negb (str_in (filename f) (map fst recorded)));
    [|apply IH].
  destruct (line_start_patch_of (patch f)); simpl; [apply IH | reflexivity].
Qed.

Lemma for_files_select (commit : Commit) (fs : list File) (changes : changes_t) :
  for_files fnmatch commit fs patterns changes =
  select (map (pair commit) fs) changes.
Proof.
  revert changes. induction fs as [|file fs IH]; intros changes; simpl;
    [reflexivity|].
  unfold Spec.selected. rewrite orb_false_r.
  destruct (String.eqb (status file) "unchanged" || String.eqb (status file) "removed");
    simpl; [apply IH|].
  rewrite for_patterns_spec.
  destruct (existsb (fnmatch (filename file)) patterns
            && negb (str_in (filename file) (map fst changes))); simpl;
    [|apply IH].
  destruct (line_start_patch_of (patch file)); simpl; [apply IH | reflexivity].
Qed.

(** The three nested loops are the one pass of the specification. *)
Lemma for_commits_select (commits : list Commit) (changes : changes_t) :
  for_commits fnmatch commits patterns changes =
  select (Spec.entries commits) changes.
Proof.
  revert changes. induction commits as [|c cs IH]; intros changes; simpl;
    [reflexivity|].
  rewrite select_app, for_files_select.
  destruct (select (map (pair c) (files c)) changes); simpl;
    [apply IH | reflexivity].
Qed.

(** The keys after the pass: the old ones, then the new names in the
    order they first occur among the selected entries. *)
Lemma select_keys (es : list (Commit * File)) (recorded recorded' : changes_t) :
  select es recorded = Ok recorded' ->
  map fst recorded' =
  (map fst recorded ++
   Spec.first_occurrences_from (map fst recorded)
     (map (fun e => filename (snd e))
          (filter (fun e => selected (snd e)) es)))%list.
Proof.
  revert recorded. induction es as [|[c f] es IH]; intros recorded; simpl.
  - intros H. inversion H. now rewrite app_nil_r.
  - destruct (selected f) eqn:Hsel; simpl; [|apply IH].
    destruct (str_in (filename f) (map fst recorded)) eqn:Hin; simpl;
      [apply IH|].
    destruct (line_start_patch_of (patch f)) as [line|e]; simpl;
      [|discriminate].
    intros H. apply IH in H. rewrite H, map_app. simpl.
    rewrite <- app_assoc. simpl. do 2 f_equal.
    apply first_occurrences_from_ext. intros y.
    rewrite in_app_iff. simpl. tauto.
Qed.

(** Where a binding of the pass comes from: it was there before, or it
    was recorded at the first selected entry of its name, with the line
    parsed from that entry's patch and that entry's commit. *)
Lemma select_origin (es : list (Commit * File)) (recorded recorded' : changes_t) :
  select es recorded = Ok recorded' ->
  forall k line c, In (k, (line, c)) recorded' ->
    In (k, (line, c)) recorded
    \/ (~ In k (map fst recorded)
        /\ exists es1 f es2,
             es = (es1 ++ (c, f) :: es2)%list
             /\ filename f = k
             /\ selected f = true
             /\ line_start_patch_of (patch f) = Ok line
             /\ forall e, In e es1 -> selected (snd e) = true ->
                          filename (snd e) <> k).
Proof.
  revert recorded. induction es as [|[c0 f0] es IH]; intros recorded; simpl.
  - intros H k line c Hin. inversion H; subst. now left.
  - destruct (selected f0 && negb (str_in (filename f0) (map fst recorded)))
      eqn:Hcond.
    + apply andb_true_iff in Hcond as [Hsel Hnew].
      apply negb_true_iff, str_in_false in Hnew.
      destruct (line_start_patch_of (patch f0)) as [line0|e] eqn:Hline; simpl;
        [|discriminate].
      intros H k line c Hin.
      destruct (IH _ H k line c Hin) as [Hold|(Hk & es1 & f & es2 & -> & Hf & Hs & Hl & Hfirst)].
      * apply in_app_iff in Hold as [Hold|[Heq|[]]]; [now left|].
        inversion Heq; subst. right. split; [exact Hnew|].
        exists [], f0, es. repeat split; try assumption. intros e [].
      * right. rewrite map_app, in_app_iff in Hk. simpl in Hk.
        split; [tauto|].
        exists ((c0, f0) :: es1), f, es2. repeat split; try assumption.
        intros e [<-|He] Hse; [simpl; tauto | now apply Hfirst].
    + intros H k line c Hin.
      destruct (IH _ H k line c Hin) as [Hold|(Hk & es1 & f & es2 & -> & Hf & Hs & Hl & Hfirst)];
        [now left|].
      right. split; [exact Hk|].
      exists ((c0, f0) :: es1), f, es2. repeat split; try assumption.
      intros e [<-|He] Hse; [|now apply Hfirst].
      simpl in *. rewrite Hse in Hcond. simpl in Hcond.
      apply negb_false_iff, str_in_In in Hcond. congruence.
Qed.

End ChangeSelectorFacts.


Section ChangeSelectorTheorems.

Variable fnmatch : string -> string -> bool.

Lemma files_for_review_select (pull : PullRequest) (patterns : list string)
    (out : list (string * Z * Commit)) :
  files_for_review fnmatch pull patterns = Ok out ->
  exists recorded,
    Spec.select fnmatch patterns (Spec.entries (get_commits pull)) [] = Ok recorded
    /\ out = map (fun x => (fst x, Z.max 1 (fst (snd x)), snd (snd x))) recorded.
Proof.
  unfold files_for_review. rewrite for_commits_select.
  destruct (Spec.select fnmatch patterns (Spec.entries (get_commits pull)) [])
    as [recorded|e]; simpl; [|discriminate].
  intros H. inversion H. now exists recorded.
Qed.

Lemma selected_true (patterns : list string) (f : File) :
  Spec.selected fnmatch patterns f = true <->
  status f <> "unchanged" /\ status f <> "removed"
  /\ exists pattern, In pattern patterns /\ fnmatch (filename f) pattern = true.
Proof.
  unfold Spec.selected.
  rewrite andb_true_iff, negb_true_iff, orb_false_iff, existsb_exists.
  now rewrite !String.eqb_neq.
Qed.

(** The entries before an entry hold every file of every earlier commit. *)
Lemma entries_split (commits : list Commit) (es1 es2 : list (Commit * File))
    (c : Commit) (f : File) :
  Spec.entries commits = (es1 ++ (c, f) :: es2)%list ->
  exists i,
    nth_error commits i = Some c /\ In f (files c)
    /\ forall j c' f', (j < i)%nat -> nth_error commits j = Some c' ->
         In f' (files c') -> In (c', f') es1.
Proof.
  revert es1. induction commits as [|c0 cs IH]; intros es1; simpl.
  - intros H. now destruct es1.
  - intros H. apply app_eq_app in H as [l [[HA HB]|[HA HB]]].
    + destruct l as [|x l].
      * simpl in HB. rewrite app_nil_r in HA.
        destruct (IH [] (eq_sym HB)) as (i & Hi & Hf & Hbefore).
        exists (S i). repeat split; try assumption.
        intros [|j] c' f' Hj Hc' Hf'; simpl in Hc'.
        -- inversion Hc'; subst c'. rewrite <- HA. now apply in_map.
        -- destruct (Hbefore j c' f' ltac:(lia) Hc' Hf').
      * inversion HB; subst x. exists 0%nat.
        assert (In (c, f) (map (pair c0) (files c0))) as Hin
          by (rewrite HA; apply in_app_iff; right; now left).
        apply in_map_iff in Hin as (f0 & E & Hf0). inversion E; subst.
        repeat split; [assumption|]. intros j c' f' Hj. lia.
    + destruct (IH l HB) as (i & Hi & Hf & Hbefore).
      exists (S i). repeat split; try assumption.
      intros [|j] c' f' Hj Hc' Hf'; simpl in Hc'; rewrite HA, in_app_iff.
      * inversion Hc'; subst c'. left. now apply in_map.
      * right. apply (Hbefore j c' f'); [lia | assumption | assumption].
Qed.

(** Every record of the output, traced back to the entry it was made
    from. *)
Lemma files_for_review_origin (pull : PullRequest) (patterns : list string)
    (out : list (string * Z * Commit)) :
  files_for_review fnmatch pull patterns = Ok out ->
  forall name line commit, In (name, line, commit) out ->
    exists es1 f es2 parsed,
      Spec.entries (get_commits pull) = (es1 ++ (commit, f) :: es2)%list
      /\ filename f = name
      /\ Spec.selected fnmatch patterns f = true
      /\ line_start_patch_of (patch f) = Ok parsed
      /\ line = Z.max 1 parsed
      /\ forall e, In e es1 -> Spec.selected fnmatch patterns (snd e) = true ->
                   filename (snd e) <> name.
Proof.
  intros H name line commit Hin.
  apply files_for_review_select in H as (recorded & Hsel & ->).
  apply in_map_iff in Hin as ([k [parsed c]] & E & Hin). simpl in E.
  inversion E; subst.
  destruct (select_origin _ _ _ _ _ Hsel _ _ _ Hin)
    as [[]|(_ & es1 & f & es2 & Hes & Hf & Hs & Hl & Hfirst)].
  exists es1, f, es2, parsed. repeat split; assumption.
Qed.

Lemma files_for_review_names (pull : PullRequest) (patterns : list string)
    (out : list (string * Z * Commit)) :
  files_for_review fnmatch pull patterns = Ok out ->
  map Spec.record_name out =
  Spec.first_occurrences (Spec.selected_names fnmatch patterns pull).
Proof.
  intros H. apply files_for_review_select in H as (recorded & Hsel & ->).
  apply select_keys in Hsel. simpl in Hsel.
  rewrite map_map. unfold Spec.record_name. simpl.
  exact Hsel.
Qed.

Lemma touches_false (patterns : list string) (c : Commit) (name : string) :
  (forall f, In f (files c) -> Spec.selected fnmatch patterns f = true ->
             filename f <> name) ->
  Spec.touches fnmatch patterns c name = false.
Proof.
  intros H. unfold Spec.touches.
  destruct (existsb _ (files c)) eqn:E; [|reflexivity].
  apply existsb_exists in E as (f & Hf & Hc).
  apply andb_true_iff in Hc as [Hn Hs]. apply String.eqb_eq in Hn.
  now elim (H f Hf Hs).
Qed.

(** C1. In the output of [files_for_review] no name occurs twice, and
    the record of a name carries the first commit, in the order of
    [pull.get_commits()], that has an entry of that name whose status is
    neither "unchanged" nor "removed" and whose name matches a pattern:
    no commit before it has such an entry. *)
Theorem files_for_review_first_commit (pull : PullRequest)
    (patterns : list string) (out : list (string * Z * Commit)) :
  files_for_review fnmatch pull patterns = Ok out ->
  NoDup (map Spec.record_name out)
  /\ forall name line commit, In (name, line, commit) out ->
       exists i,
         nth_error (get_commits pull) i = Some commit
         /\ Spec.touches fnmatch patterns commit name = true
         /\ forall j earlier, (j < i)%nat ->
              nth_error (get_commits pull) j = Some earlier ->
              Spec.touches fnmatch patterns earlier name = false.
Proof.
  intros H. split.
  - rewrite (files_for_review_names _ _ _ H). apply first_occurrences_NoDup.
  - intros name line commit Hin.
    destruct (files_for_review_origin _ _ _ H _ _ _ Hin)
      as (es1 & f & es2 & parsed & Hes & Hf & Hs & _ & _ & Hfirst).
    destruct (entries_split _ _ _ _ _ Hes) as (i & Hi & Hfi & Hbefore).
    exists i. repeat split; [assumption| |].
    + unfold Spec.touches. apply existsb_exists. exists f. split; [assumption|].
      rewrite Hs, andb_true_r. now apply String.eqb_eq.
    + intros j earlier Hj Hearlier. apply touches_false.
      intros f' Hf' Hs'. exact (Hfirst (earlier, f') (Hbefore _ _ _ Hj Hearlier Hf') Hs').
Qed.

(** C4. Every record of the output comes from an entry of its commit
    whose status is neither "unchanged" nor "removed" (and whose name
    matches a pattern); a name whose entries are all "removed" or
    "unchanged" has no record, whatever the patterns. *)
Theorem files_for_review_skips_removed_unchanged (pull : PullRequest)
    (patterns : list string) (out : list (string * Z * Commit)) :
  files_for_review fnmatch pull patterns = Ok out ->
  (forall name line commit, In (name, line, commit) out ->
     In commit (get_commits pull)
     /\ exists f, In f (files commit) /\ filename f = name
          /\ status f <> "unchanged" /\ status f <> "removed"
          /\ exists pattern,
               In pattern patterns /\ fnmatch name pattern = true)
  /\ (forall name,
        (forall commit f, In commit (get_commits pull) -> In f (files commit) ->
           filename f = name ->
           status f = "removed" \/ status f = "unchanged") ->
        ~ In name (map Spec.record_name out)).
Proof.
  intros H.
  assert (forall name line commit, In (name, line, commit) out ->
     In commit (get_commits pull)
     /\ exists f, In f (files commit) /\ filename f = name
          /\ status f <> "unchanged" /\ status f <> "removed"
          /\ exists pattern,
               In pattern patterns /\ fnmatch name pattern = true) as Hrec.
  { intros name line commit Hin.
    destruct (files_for_review_origin _ _ _ H _ _ _ Hin)
      as (es1 & f & es2 & parsed & Hes & Hf & Hs & _ & _ & _).
    destruct (entries_split _ _ _ _ _ Hes) as (i & Hi & Hfi & _).
    split; [now apply nth_error_In in Hi|].
    exists f. apply selected_true in Hs as (Hu & Hr & pattern & Hp & Hm).
    subst name. repeat split; try assumption. now exists pattern. }
  split; [exact Hrec|].
  intros name Hall Hin. apply in_map_iff in Hin as ([[n line] commit] & E & Hin).
  unfold Spec.record_name in E. simpl in E. subst n.
  destruct (Hrec _ _ _ Hin) as (Hc & f & Hf & Hn & Hu & Hr & _).
  destruct (Hall commit f Hc Hf Hn); congruence.
Qed.

(** C5. The line of every record is the number parsed from the patch of
    the entry the record was made from, raised to 1 when it is below 1
    and unchanged otherwise; it is at least 1. *)
Theorem files_for_review_line_clamped (pull : PullRequest)
    (patterns : list string) (out : list (string * Z * Commit)) :
  files_for_review fnmatch pull patterns = Ok out ->
  forall name line commit, In (name, line, commit) out ->
    exists f header parsed,
      In f (files commit) /\ filename f = name
      /\ patch f = Some header
      /\ line_start_patch header = Ok parsed
      /\ line = Z.max 1 parsed
      /\ (parsed <= 0 -> line = 1)
      /\ (1 <= parsed -> line = parsed)
      /\ 1 <= line.
Proof.
  intros H name line commit Hin.
  destruct (files_for_review_origin _ _ _ H _ _ _ Hin)
    as (es1 & f & es2 & parsed & Hes & Hf & _ & Hl & Hline & _).
  destruct (entries_split _ _ _ _ _ Hes) as (i & _ & Hfi & _).
  unfold line_start_patch_of in Hl.
  destruct (patch f) as [header|] eqn:Hp; [|discriminate].
  exists f, header, parsed. repeat split; try assumption; lia.
Qed.

(** C10. [files_for_review] is a function of the commits, their files
    and the patterns, and its records stand in the order in which their
    names first occur among the selected entries, commit after commit
    and file after file. *)
Theorem files_for_review_deterministic_ordered (pull : PullRequest)
    (patterns : list string) :
  (forall pull' patterns',
     get_commits pull' = get_commits pull -> patterns' = patterns ->
     files_for_review fnmatch pull' patterns'
     = files_for_review fnmatch pull patterns)
  /\ forall out,
       files_for_review fnmatch pull patterns = Ok out ->
       map Spec.record_name out =
       Spec.first_occurrences (Spec.selected_names fnmatch patterns pull).
Proof.
  split.
  - intros pull' patterns' Hc ->. unfold files_for_review. now rewrite Hc.
  - intros out. apply files_for_review_names.
Qed.

(** X6. The pass fails only at a selected entry; when every selected
    entry carries a patch that opens with a hunk header,
    [files_for_review] returns a list. *)
Lemma files_for_review_returns (pull : PullRequest) (patterns : list string) :
  (forall commit f, In commit (get_commits pull) -> In f (files commit) ->
     Spec.selected fnmatch patterns f = true ->
     exists header, patch f = Some header
                    /\ Spec.is_hunk_header header = true) ->
  exists out, files_for_review fnmatch pull patterns = Ok out.
Proof.
  intros Hall. unfold files_for_review. rewrite for_commits_select.
  assert (forall e, In e (Spec.entries (get_commits pull)) ->
            Spec.selected fnmatch patterns (snd e) = true ->
            exists n, line_start_patch_of (patch (snd e)) = Ok n) as Hes.
  { intros [c f] Hin Hs. unfold Spec.entries in Hin.
    apply in_flat_map in Hin as (c' & Hc' & Hin).
    apply in_map_iff in Hin as (f' & E & Hf'). inversion E; subst.
    destruct (Hall _ _ Hc' Hf' Hs) as (header & Hp & Hh). simpl. rewrite Hp.
    simpl. now apply line_start_patch_header_ok. }
  clear Hall. revert Hes. generalize (@nil (string * (Z * Commit))).
  induction (Spec.entries (get_commits pull)) as [|[c f] es IH];
    intros recorded Hes; simpl.
  - eexists. reflexivity.
  - assert (forall e, In e es ->
              Spec.selected fnmatch patterns (snd e) = true ->
              exists n, line_start_patch_of (patch (snd e)) = Ok n) as Hes'
      by (intros e He; apply Hes; now right).
    destruct (Spec.selected fnmatch patterns f) eqn:Hs; simpl;
      [|now apply IH].
    destruct (str_in (filename f) (map fst recorded)); simpl; [now apply IH|].
    destruct (Hes (c, f) (or_introl eq_refl) Hs) as [n Hn]. simpl in Hn.
    rewrite Hn. simpl. now apply IH.
Qed.

End ChangeSelectorTheorems.

Lemma files_for_review_first_commit_witness :
  files_for_review fnmatch_wildcard Samples.twice ["*.py"]
  = Ok [("a.py", 3, Samples.c1)]
  /\ NoDup (map Spec.record_name [("a.py", 3, Samples.c1)])
  /\ forall name line commit, In (name, line, commit) [("a.py", 3, Samples.c1)] ->
       exists i,
         nth_error (get_commits Samples.twice) i = Some commit
         /\ Spec.touches fnmatch_wildcard ["*.py"] commit name = true
         /\ forall j earlier, (j < i)%nat ->
              nth_error (get_commits Samples.twice) j = Some earlier ->
              Spec.touches fnmatch_wildcard ["*.py"] earlier name = false.
Proof.
  split; [reflexivity|].
  exact (files_for_review_first_commit fnmatch_wildcard Samples.twice ["*.py"]
           [("a.py", 3, Samples.c1)] eq_refl).
Defined.

Lemma files_for_review_skips_removed_unchanged_witness :
  files_for_review fnmatch_wildcard Samples.twice ["*.py"]
  = Ok [("a.py", 3, Samples.c1)]
  /\ ~ In "gone.py" (map Spec.record_name [("a.py", 3, Samples.c1)]).
Proof.
  split; [reflexivity|].
  refine (proj2 (files_for_review_skips_removed_unchanged fnmatch_wildcard
                   Samples.twice ["*.py"] [("a.py", 3, Samples.c1)] eq_refl)
                "gone.py" _).
  intros commit f [<-|[<-|[]]] Hf Hn; simpl in Hf;
    repeat (destruct Hf as [<-|Hf]; [try discriminate Hn; auto|]);
    destruct Hf.
Defined.

Lemma files_for_review_line_clamped_witness :
  files_for_review fnmatch_wildcard Samples.one_file ["*.ts"]
  = Ok [("app.ts", 1, Samples.commit1)]
  /\ exists f header parsed,
       In f (files Samples.commit1) /\ filename f = "app.ts"
       /\ patch f = Some header
       /\ line_start_patch header = Ok parsed
       /\ 1 = Z.max 1 parsed
       /\ (parsed <= 0 -> 1 = 1)
       /\ (1 <= parsed -> 1 = parsed)
       /\ 1 <= 1.
Proof.
  split; [reflexivity|].
  exact (files_for_review_line_clamped fnmatch_wildcard Samples.one_file
           ["*.ts"] [("app.ts", 1, Samples.commit1)] eq_refl
           "app.ts" 1 Samples.commit1 (or_introl eq_refl)).
Defined.

Lemma files_for_review_deterministic_ordered_witness :
  files_for_review fnmatch_wildcard Samples.unordered ["*.py"]
  = Ok [("z.py", 1, Samples.k1); ("b.py", 5, Samples.k1);
        ("a.py", 7, Samples.k2)]
  /\ map Spec.record_name
         [("z.py", 1, Samples.k1); ("b.py", 5, Samples.k1);
          ("a.py", 7, Samples.k2)]
     = Spec.first_occurrences
         (Spec.selected_names fnmatch_wildcard ["*.py"] Samples.unordered).
Proof.
  split; [reflexivity|].
  exact (proj2 (files_for_review_deterministic_ordered fnmatch_wildcard
                  Samples.unordered ["*.py"]) _ eq_refl).
Defined.

Example files_for_review_line_kept :
  files_for_review fnmatch_wildcard Samples.unordered ["b.*"]
  = Ok [("b.py", 5, Samples.k1)].
Proof. reflexivity. Qed.

Example files_for_review_bad_patch :
  files_for_review fnmatch_wildcard
    (mkPull [mkCommit "c" [mkFile "x.py" "added" (Some "Binary files differ")]])
    ["*.py"]
  = Raise AttributeError
  /\ files_for_review fnmatch_wildcard
       (mkPull [mkCommit "c" [mkFile "x.py" "added" None]]) ["*"]
     = Raise TypeError.
Proof. split; reflexivity. Qed.

(* ================================================================= *)
(** ** Threads of comments *)

Section Threads.

Local Open Scope list_scope.

Lemma NoDup_map_inj {A B} (f : A -> B) (l : list A) (x y : A) :
  NoDup (map f l) -> In x l -> In y l -> f x = f y -> x = y.
Proof.
  induction l as [|a l IH]; simpl; intros Hnd Hx Hy E; [destruct Hx|].
  inversion Hnd as [|? ? Hnotin Hnd']; subst.
  destruct Hx as [->|Hx], Hy as [->|Hy]; auto.
  - elim Hnotin. rewrite E. now apply in_map.
  - elim Hnotin. rewrite <- E. now apply in_map.
Qed.

Lemma NoDup_map_filter {A B} (f : A -> B) (keep : A -> bool) (l : list A) :
  NoDup (map f l) -> NoDup (map f (filter keep l)).
Proof.
  induction l as [|a l IH]; simpl; intros Hnd; [constructor|].
  inversion Hnd as [|? ? Hnotin Hnd']; subst.
  destruct (keep a); simpl; [|now apply IH].
  constructor; [|now apply IH].
  intros Hin. apply Hnotin. apply in_map_iff in Hin as (x & E & Hx).
  apply filter_In in Hx as [Hx _]. rewrite <- E. now apply in_map.
Qed.

Lemma NoDup_flat_map {A B} (f : A -> list B) (l : list A) :
  NoDup l ->
  (forall x, In x l -> NoDup (f x)) ->
  (forall x y z, In x l -> In y l -> x <> y -> In z (f x) -> ~ In z (f y)) ->
  NoDup (flat_map f l).
Proof.
  induction l as [|a l IH]; simpl; intros Hnd Hf Hdisj; [constructor|].
  inversion Hnd as [|? ? Hnotin Hnd']; subst.
  apply NoDup_app.
  - apply Hf. now left.
  - apply IH; [assumption | intros x Hx; apply Hf; now right |].
    intros x y z Hx Hy. apply Hdisj; now right.
  - intros z Hz Hin. apply in_flat_map in Hin as (y & Hy & Hzy).
    apply (Hdisj a y z); auto.
    intros ->. contradiction.
Qed.

Variable comments : list Comment.

Lemma pending_of_In (comment reply : Comment) :
  In reply (Spec.pending_of comments comment) <->
  is_bot comment = true /\ In reply comments
  /\ replies_to reply comment = true /\ is_bot reply = false
  /\ existsb (Spec.bot_answers reply) comments = false.
Proof.
  unfold Spec.pending_of, human_replies. destruct (is_bot comment).
  - rewrite !filter_In, andb_true_iff, !negb_true_iff. tauto.
  - simpl. split; [tauto | intros [H _]; discriminate H].
Qed.

Lemma unanswered_In (reply : Comment) :
  In reply (Spec.unanswered comments) <->
  In reply comments /\ is_bot reply = false
  /\ (exists comment, In comment comments /\ is_bot comment = true
                       /\ replies_to reply comment = true)
  /\ existsb (Spec.bot_answers reply) comments = false.
Proof.
  unfold Spec.unanswered.
  rewrite filter_In, !andb_true_iff, !negb_true_iff, existsb_exists.
  split.
  - intros (Hin & (Hb & c & Hc & Hbc) & Ha).
    apply andb_true_iff in Hbc as [Hbot Hr].
    repeat split; try assumption. now exists c.
  - intros (Hin & Hb & (c & Hc & Hbot & Hr) & Ha).
    repeat split; try assumption. exists c. now rewrite Hbot, Hr.
Qed.

Lemma replies_to_id (reply c1 c2 : Comment) :
  replies_to reply c1 = true -> replies_to reply c2 = true -> id c1 = id c2.
Proof.
  unfold replies_to. destruct (reply_to_id reply) as [n|]; [|discriminate].
  rewrite !Z.eqb_eq. congruence.
Qed.

(** The replies the handler answers, in its own order, are the unanswered
    replies, each once, when no two comments share an identifier. *)
Lemma pending_unanswered :
  NoDup (map id comments) ->
  Permutation (flat_map (Spec.pending_of comments) comments)
              (Spec.unanswered comments).
Proof.
  intros Hids. pose proof (NoDup_map_inv _ _ Hids) as Hnd.
  apply NoDup_Permutation.
  - apply NoDup_flat_map; [assumption| |].
    + intros c _. unfold Spec.pending_of, human_replies.
      destruct (is_bot c); [|constructor]. now do 2 apply NoDup_filter.
    + intros c1 c2 r Hc1 Hc2 Hne H1 H2.
      apply pending_of_In in H1 as (_ & _ & Hr1 & _).
      apply pending_of_In in H2 as (_ & _ & Hr2 & _).
      apply Hne. apply (NoDup_map_inj id comments); auto.
      exact (replies_to_id _ _ _ Hr1 Hr2).
  - unfold Spec.unanswered. now apply NoDup_filter.
  - intros r. rewrite in_flat_map, unanswered_In. split.
    + intros (c & Hc & Hr). apply pending_of_In in Hr as (Hb & Hin & Hrc & Hh & Ha).
      repeat split; try assumption. now exists c.
    + intros (Hin & Hh & (c & Hc & Hb & Hrc) & Ha).
      exists c. split; [assumption|]. now apply pending_of_In.
Qed.

(** An unanswered reply is posted to once, an answered one never. *)
Lemma unanswered_count (comment reply : Comment) :
  NoDup (map id comments) ->
  In comment comments -> is_bot comment = true ->
  In reply comments -> is_bot reply = false ->
  replies_to reply comment = true ->
  count_occ Z.eq_dec (map id (Spec.unanswered comments)) (id reply)
  = if existsb (Spec.bot_answers reply) comments then 0%nat else 1%nat.
Proof.
  intros Hids Hc Hb Hr Hh Hrc.
  destruct (existsb (Spec.bot_answers reply) comments) eqn:Ha.
  - apply count_occ_not_In. intros Hi.
    apply in_map_iff in Hi as (r & Hid & Hin).
    pose proof Hin as Hin'. apply unanswered_In in Hin' as (Hrin & _).
    assert (r = reply) by (apply (NoDup_map_inj id comments); auto).
    subst r. apply unanswered_In in Hin as (_ & _ & _ & Ha'). congruence.
  - apply NoDup_count_occ'.
    + unfold Spec.unanswered. now apply NoDup_map_filter.
    + apply in_map. apply unanswered_In. repeat split; try assumption.
      now exists comment.
Qed.

End Threads.

(* ================================================================= *)
(** ** Runs of the program *)

Local Open Scope list_scope.

Section ProgramFacts.

Context {float : Type} (env : Env float).

Lemma fetches_app (a b : trace float) :
  Spec.fetches (a ++ b) = (Spec.fetches a ++ Spec.fetches b)%list.
Proof. apply flat_map_app. Qed.

Lemma chats_app (a b : trace float) :
  Spec.chats (a ++ b) = (Spec.chats a ++ Spec.chats b)%list.
Proof. apply flat_map_app. Qed.

Lemma asked_app (a b : trace float) :
  Spec.asked (a ++ b) = (Spec.asked a ++ Spec.asked b)%list.
Proof. apply flat_map_app. Qed.

Lemma posts_app (a b : trace float) :
  Spec.posts (a ++ b) = (Spec.posts a ++ Spec.posts b)%list.
Proof. apply flat_map_app. Qed.

Lemma reviews_app (a b : trace float) :
  Spec.reviews (a ++ b) = (Spec.reviews a ++ Spec.reviews b)%list.
Proof. apply flat_map_app. Qed.

(** A bind runs its first part, then, unless that raised, the rest. *)
Lemma mbind_run {A B} (m : M float A) (k : A -> M float B)
    (t t' : trace float) (r : result B) :
  mbind m k t = (t', r) ->
  (exists t1 a, m t = (t1, Ok a) /\ k a t1 = (t', r))
  \/ (exists e, m t = (t', Raise e) /\ r = Raise e).
Proof.
  unfold mbind. destruct (m t) as [t1 [a|e]]; intros H.
  - left. now exists t1, a.
  - right. inversion H; subst. now exists e.
Qed.

(** The loop of [main]: what it adds to the trace, what it returns. *)
Lemma main_loop_run (args : Args float) (records : list (string * Z * Commit))
    (comments : list ReviewComment) (t t' : trace float)
    (r : result (list ReviewComment)) :
  main_loop env args records comments t = (t', r) ->
  exists added,
    t' = (t ++ added)%list
    /\ forallb Spec.loop_event added = true
    /\ Spec.chats added =
       map Spec.prompt_of (filter Spec.nonempty (Spec.fetches added))
    /\ (exists rest,
          map Spec.record_name records =
          (map fst (Spec.fetches added) ++ rest)%list
          /\ (Py.is_ok r = true -> rest = []))
    /\ match r with
       | Ok comments' =>
           map rc_path comments' =
           (map rc_path comments
            ++ map fst (filter Spec.nonempty (Spec.fetches added)))%list
       | Raise e =>
           exists before last,
             added = (before ++ [last])%list /\ Spec.failure last = Some e
       end.
Proof.
  revert comments t.
  induction records as [|[[path line] commit] records IH]; intros comments t H.
  - cbn in H. inversion H; subst. exists []. rewrite !app_nil_r.
    repeat split; try reflexivity. now exists [].
  - cbn [main_loop] in H. unfold mbind at 1, get_contents, call in H.
    destruct (host_get_contents env t path (sha commit)) as [content|e] eqn:Hc.
    + destruct (String.length content =? 0)%nat eqn:Hlen.
      * apply IH in H as (added & -> & Hev & Hchats & (rest & Hnames & Hrest) & Hr).
        exists (GetContents path (sha commit) (Ok content) :: added).
        split; [now rewrite <- app_assoc|].
        split; [exact Hev|].
        assert (Spec.nonempty (path, content) = false) as Hne
          by (unfold Spec.nonempty; simpl; now rewrite Hlen).
        cbn [Spec.fetches Spec.chats flat_map app filter].
        fold (Spec.fetches added). fold (Spec.chats added). rewrite Hne.
        split; [exact Hchats|]. split.
        -- exists rest. split; [|exact Hrest]. cbn. now rewrite Hnames.
        -- destruct r as [comments'|e]; [exact Hr|].
           destruct Hr as (before & last & -> & Hlast).
           now exists (GetContents path (sha commit) (Ok content) :: before), last.
      * unfold review, mbind, chat_completion_create, call, ret in H.
        set (t1 := (t ++ [GetContents path (sha commit) (Ok content)])%list) in *.
        destruct (openai_chat env t1 (openai_model args)
                    (openai_temperature args) (openai_max_tokens args)
                    (prompt path content)) as [text|e] eqn:Hchat.
        -- apply IH in H as (added & -> & Hev & Hchats & (rest & Hnames & Hrest) & Hr).
           exists (GetContents path (sha commit) (Ok content)
                   :: ChatCompletionCreate (openai_model args)
                        (openai_temperature args) (openai_max_tokens args)
                        (prompt path content) (Ok text) :: added).
           split; [unfold t1; now rewrite <- !app_assoc|].
           split; [exact Hev|].
           assert (Spec.nonempty (path, content) = true) as Hne
             by (unfold Spec.nonempty; simpl; now rewrite Hlen).
           cbn [Spec.fetches Spec.chats flat_map app filter].
           fold (Spec.fetches added). fold (Spec.chats added). rewrite Hne.
           split; [cbn; now rewrite Hchats|]. split.
           ++ exists rest. split; [|exact Hrest]. cbn. now rewrite Hnames.
           ++ destruct r as [comments'|e].
              ** rewrite Hr, map_app, <- app_assoc. reflexivity.
              ** destruct Hr as (before & last & -> & Hlast).
                 now exists (GetContents path (sha commit) (Ok content)
                         :: ChatCompletionCreate (openai_model args)
                              (openai_temperature args) (openai_max_tokens args)
                              (prompt path content) (Ok text) :: before), last.
        -- inversion H; subst.
           exists [GetContents path (sha commit) (Ok content);
                   ChatCompletionCreate (openai_model args)
                     (openai_temperature args) (openai_max_tokens args)
                     (prompt path content) (Raise e)].
           split; [unfold t1; now rewrite <- !app_assoc|].
           split; [reflexivity|].
           assert (Spec.nonempty (path, content) = true) as Hne
             by (unfold Spec.nonempty; simpl; now rewrite Hlen).
           cbn [Spec.fetches Spec.chats flat_map app filter]. rewrite Hne.
           split; [reflexivity|]. split.
           ++ exists (map Spec.record_name records). split; [reflexivity|].
              discriminate.
           ++ now exists [GetContents path (sha commit) (Ok content)],
                (ChatCompletionCreate (openai_model args)
                   (openai_temperature args) (openai_max_tokens args)
                   (prompt path content) (Raise e)).
    + inversion H; subst.
      exists [GetContents path (sha commit) (Raise e)].
      repeat split.
      * exists (map Spec.record_name ((path, line, commit) :: records)).
        split; [reflexivity | discriminate].
      * now exists [], (GetContents path (sha commit) (Raise e)).
Qed.

(** A [for] loop runs its body on each element in turn, each run adding
    its part to the trace, until a run raises. *)
Lemma for_each_run {A} (body : A -> M float unit)
    (Q : A -> trace float -> Prop) (P : event float -> bool) (l : list A) :
  (forall x t t' r, In x l -> body x t = (t', r) ->
     exists added,
       t' = t ++ added /\ forallb P added = true
       /\ match r with
          | Ok _ => Q x added
          | Raise e => exists before last,
              added = before ++ [last] /\ Spec.failure last = Some e
          end) ->
  forall t t' r, for_each body l t = (t', r) ->
    exists added,
      t' = t ++ added /\ forallb P added = true
      /\ match r with
         | Ok _ => exists parts, added = List.concat parts /\ Forall2 Q l parts
         | Raise e => exists before last,
             added = before ++ [last] /\ Spec.failure last = Some e
         end.
Proof.
  induction l as [|x l IH]; intros Hbody t t' r H.
  - cbn in H. inversion H; subst. exists []. rewrite app_nil_r.
    repeat split. exists []. split; [reflexivity | constructor].
  - cbn [for_each] in H. apply mbind_run in H as [(t1 & [] & Hx & Hl)|(e & Hx & ->)].
    + apply (Hbody x t t1 (Ok tt) (or_introl eq_refl)) in Hx
        as (a1 & -> & HP1 & HQ).
      apply IH in Hl as (a2 & -> & HP2 & Hr);
        [|intros y u u' ru Hy; apply Hbody; now right].
      exists (a1 ++ a2). split; [now rewrite app_assoc|].
      split; [rewrite forallb_app; now rewrite HP1, HP2|].
      destruct r as [[]|e].
      * destruct Hr as (parts & -> & HF). exists (a1 :: parts).
        split; [reflexivity | now constructor].
      * destruct Hr as (before & last & -> & Hlast).
        exists (a1 ++ before), last. now rewrite app_assoc.
    + apply (Hbody x t t' (Raise e) (or_introl eq_refl)) in Hx
        as (a1 & -> & HP1 & HQ).
      now exists a1.
Qed.

Lemma filter_nil_existsb {A} (f : A -> bool) (l : list A) :
  filter f l = [] <-> existsb f l = false.
Proof.
  induction l as [|x l IH]; simpl; [tauto|].
  destruct (f x); simpl; [split; discriminate | exact IH].
Qed.

Ltac flatten_trace :=
  repeat rewrite <- app_assoc; cbn [app].

Lemma handle_reply_run (comments : list Comment) (model : string)
    (temperature : float) (max_tokens : Z) (reply : Comment)
    (t t' : trace float) (r : result unit) :
  handle_reply env comments model temperature max_tokens reply t = (t', r) ->
  exists added,
    t' = t ++ added /\ forallb Spec.handler_event added = true
    /\ match r with
       | Ok _ => Spec.reply_part comments model temperature max_tokens
                                 reply added
       | Raise e => exists before last,
           added = before ++ [last] /\ Spec.failure last = Some e
       end.
Proof.
  unfold handle_reply, Spec.reply_part.
  destruct (bot_replies comments reply) as [|b bs] eqn:Hb.
  - apply filter_nil_existsb in Hb. change (existsb _ comments)
      with (existsb (Spec.bot_answers reply) comments) in Hb. rewrite Hb.
    unfold mbind, completion_create, create_reply, call, print.
    destruct (openai_completion env t model (reply_prompt reply) temperature
                max_tokens) as [text|e] eqn:Hc.
    + match goal with
      | |- context [host_create_reply env ?u (id reply) text] =>
          destruct (host_create_reply env u (id reply) text) as [[]|e] eqn:Hp
      end; intros H; inversion H; subst; eexists;
        (split; [flatten_trace; reflexivity|]); (split; [reflexivity|]).
      * now exists text; eexists.
      * eexists [_], _. split; reflexivity.
    + intros H; inversion H; subst. eexists.
      split; [reflexivity|]. split; [reflexivity|].
      exists [], (CompletionCreate model (reply_prompt reply) temperature
                    max_tokens (Raise e)). split; reflexivity.
  - assert (existsb (Spec.bot_answers reply) comments = true) as ->.
    { destruct (existsb (Spec.bot_answers reply) comments) eqn:E;
        [reflexivity|].
      apply filter_nil_existsb in E. unfold bot_replies in Hb.
      change (filter _ comments) with (filter (Spec.bot_answers reply) comments) in Hb.
      congruence. }
    unfold print. intros H; inversion H; subst. eexists.
    split; [reflexivity|]. split; [reflexivity|]. eexists. reflexivity.
Qed.

Lemma handle_comment_run (comments : list Comment) (model : string)
    (temperature : float) (max_tokens : Z) (comment : Comment)
    (t t' : trace float) (r : result unit) :
  handle_comment env comments model temperature max_tokens comment t = (t', r) ->
  exists added,
    t' = t ++ added /\ forallb Spec.handler_event added = true
    /\ match r with
       | Ok _ => Spec.comment_part comments model temperature max_tokens
                                   comment added
       | Raise e => exists before last,
           added = before ++ [last] /\ Spec.failure last = Some e
       end.
Proof.
  unfold handle_comment, Spec.comment_part.
  destruct (is_bot comment).
  - apply for_each_run. intros reply u u' ru _. apply handle_reply_run.
  - unfold print. intros H; inversion H; subst. eexists.
    split; [reflexivity|]. split; [reflexivity|]. eexists. reflexivity.
Qed.

(** A run of [handle_replies]: the pull request is looked up again, the
    comments are listed, and every comment leaves its part. *)
Lemma handle_replies_run (token : string) (pr_id : Z) (api_key model : string)
    (temperature : float) (max_tokens : Z) (t t' : trace float)
    (r : result unit) :
  handle_replies env token pr_id api_key model temperature max_tokens t
  = (t', r) ->
  exists added,
    t' = t ++ added /\ forallb Spec.handler_event added = true
    /\ added <> []
    /\ match r with
       | Ok _ => exists pull comments parts,
           added = GetPull token pr_id (Ok pull)
                   :: GetIssueComments (Ok comments) :: List.concat parts
           /\ Forall2 (Spec.comment_part comments model temperature max_tokens)
                      comments parts
       | Raise e => exists before last,
           added = before ++ [last] /\ Spec.failure last = Some e
       end.
Proof.
  unfold handle_replies, mbind at 1, get_pull, call.
  destruct (host_get_pull env t token pr_id) as [pull|e] eqn:Hpull.
  - unfold mbind at 1, get_issue_comments, call.
    match goal with
    | |- context [host_get_issue_comments env ?u] =>
        destruct (host_get_issue_comments env u) as [comments|e] eqn:Hcs
    end.
    + intros H.
      apply (for_each_run _
               (Spec.comment_part comments model temperature max_tokens)
               Spec.handler_event) in H as (added & -> & HP & Hr);
        [|intros c u u' ru _; apply handle_comment_run].
      exists (GetPull token pr_id (Ok pull)
              :: GetIssueComments (Ok comments) :: added).
      split; [flatten_trace; reflexivity|]. split; [exact HP|].
      split; [discriminate|].
      destruct r as [[]|e].
      * destruct Hr as (parts & -> & HF). now exists pull, comments, parts.
      * destruct Hr as (before & last & -> & Hlast).
        now exists (GetPull token pr_id (Ok pull)
                    :: GetIssueComments (Ok comments) :: before), last.
    + intros H; inversion H; subst. eexists.
      split; [flatten_trace; reflexivity|]. split; [reflexivity|].
      split; [discriminate|].
      now exists [GetPull token pr_id (Ok pull)], (GetIssueComments (Raise e)).
  - intros H; inversion H; subst. eexists.
    split; [reflexivity|]. split; [reflexivity|]. split; [discriminate|].
    now exists [], (GetPull token pr_id (Raise e)).
Qed.

(** What a projection of the trace shows of a loop is what it shows of
    each part, in order. *)
Lemma flat_map_parts {A B} (f : event float -> list B)
    (Q : A -> trace float -> Prop) (g : A -> list B)
    (l : list A) (parts : list (trace float)) :
  Forall2 Q l parts ->
  (forall x p, In x l -> Q x p -> flat_map f p = g x) ->
  flat_map f (List.concat parts) = flat_map g l.
Proof.
  induction 1 as [|x p l parts HQ HF IH]; intros Hg; [reflexivity|].
  cbn. rewrite flat_map_app, (Hg x p (or_introl eq_refl) HQ), IH;
    [reflexivity|].
  intros y q Hy. apply Hg. now right.
Qed.

(** The part of an element of the loop sits somewhere in the whole. *)
Lemma part_in_parts {A} (Q : A -> trace float -> Prop)
    (l : list A) (parts : list (trace float)) (x : A) :
  Forall2 Q l parts -> In x l ->
  exists before p after,
    List.concat parts = before ++ p ++ after /\ Q x p.
Proof.
  induction 1 as [|y p l parts HQ HF IH]; intros Hin; [destruct Hin|].
  destruct Hin as [->|Hin].
  - exists [], p, (List.concat parts). now split.
  - destruct (IH Hin) as (before & q & after & E & Hq).
    exists (p ++ before), q, after. cbn. rewrite E. now rewrite app_assoc.
Qed.

Lemma flat_map_if_filter {A B} (keep : A -> bool) (f : A -> B) (l : list A) :
  flat_map (fun x => if keep x then [f x] else []) l = map f (filter keep l).
Proof.
  induction l as [|x l IH]; [reflexivity|]. cbn.
  destruct (keep x); cbn; now rewrite IH.
Qed.

Lemma flat_map_map {A B C} (f : B -> C) (g : A -> list B) (l : list A) :
  flat_map (fun x => map f (g x)) l = map f (flat_map g l).
Proof.
  induction l as [|x l IH]; [reflexivity|]. cbn. now rewrite map_app, IH.
Qed.

Section Replies.

Variables (comments : list Comment) (model : string) (temperature : float)
          (max_tokens : Z).

Abbreviation answered := (fun reply => existsb (Spec.bot_answers reply) comments).

Lemma reply_part_posts (reply : Comment) (part : trace float) :
  Spec.reply_part comments model temperature max_tokens reply part ->
  Spec.posts part = (if negb (answered reply) then [id reply] else [])
  /\ Spec.asked part =
     (if negb (answered reply) then [reply_prompt reply] else []).
Proof.
  unfold Spec.reply_part. destruct (existsb _ comments); cbn [negb].
  - now intros (line & ->).
  - now intros (text & line & ->).
Qed.

Lemma comment_part_posts (comment : Comment) (part : trace float) :
  Spec.comment_part comments model temperature max_tokens comment part ->
  Spec.posts part = map id (Spec.pending_of comments comment)
  /\ Spec.asked part = map reply_prompt (Spec.pending_of comments comment).
Proof.
  unfold Spec.comment_part, Spec.pending_of. destruct (is_bot comment).
  - intros (parts & -> & HF). split.
    + rewrite <- flat_map_if_filter. unfold Spec.posts.
      apply (flat_map_parts _ _ _ _ _ HF). intros r p _ Hp.
      exact (proj1 (reply_part_posts _ _ Hp)).
    + rewrite <- flat_map_if_filter. unfold Spec.asked.
      apply (flat_map_parts _ _ _ _ _ HF). intros r p _ Hp.
      exact (proj2 (reply_part_posts _ _ Hp)).
  - now intros (line & ->).
Qed.

Lemma comments_parts_posts (l : list Comment) (parts : list (trace float)) :
  Forall2 (Spec.comment_part comments model temperature max_tokens) l parts ->
  Spec.posts (List.concat parts)
  = map id (flat_map (Spec.pending_of comments) l)
  /\ Spec.asked (List.concat parts)
     = map reply_prompt (flat_map (Spec.pending_of comments) l).
Proof.
  intros HF. split; rewrite <- flat_map_map.
  - apply (flat_map_parts _ _ _ _ _ HF). intros c p _ Hp.
    exact (proj1 (comment_part_posts _ _ Hp)).
  - apply (flat_map_parts _ _ _ _ _ HF). intros c p _ Hp.
    exact (proj2 (comment_part_posts _ _ Hp)).
Qed.

End Replies.

(** What a projection of the trace shows of a loop in any run: the
    beginning of what a complete run would show, and all of it when the
    loop returns. *)
Lemma for_each_prefix {A B} (obs : trace float -> list B) (g : A -> list B)
    (body : A -> M float unit) (l : list A) :
  obs [] = [] ->
  (forall a b, obs (a ++ b) = obs a ++ obs b) ->
  (forall x t t' r, In x l -> body x t = (t', r) ->
     exists added,
       t' = t ++ added
       /\ exists rest, g x = obs added ++ rest
                       /\ (Py.is_ok r = true -> rest = [])) ->
  forall t t' r, for_each body l t = (t', r) ->
    exists added,
      t' = t ++ added
      /\ exists rest, flat_map g l = obs added ++ rest
                      /\ (Py.is_ok r = true -> rest = []).
Proof.
  intros Hnil Happ. induction l as [|x l IH]; intros Hbody t t' r H.
  - cbn in H. inversion H; subst. exists []. rewrite app_nil_r.
    split; [reflexivity|]. exists []. now rewrite Hnil.
  - cbn [for_each] in H.
    apply mbind_run in H as [(t1 & [] & Hx & Hl)|(e & Hx & ->)].
    + apply (Hbody x t t1 (Ok tt) (or_introl eq_refl)) in Hx
        as (a1 & -> & s1 & E1 & Hs1).
      rewrite (Hs1 eq_refl), app_nil_r in E1.
      apply IH in Hl as (a2 & -> & s2 & E2 & Hs2);
        [|intros y u u' ru Hy; apply Hbody; now right].
      exists (a1 ++ a2). split; [now rewrite app_assoc|].
      exists s2. split; [|exact Hs2].
      cbn [flat_map]. now rewrite E1, E2, Happ, app_assoc.
    + apply (Hbody x t t' (Raise e) (or_introl eq_refl)) in Hx
        as (a1 & -> & s1 & E1 & _).
      exists a1. split; [reflexivity|]. exists (s1 ++ flat_map g l).
      split; [|discriminate]. cbn [flat_map]. now rewrite E1, app_assoc.
Qed.

(** One reply, in any run: at most its own request and its own post. *)
Lemma handle_reply_prefix (comments : list Comment) (model : string)
    (temperature : float) (max_tokens : Z) (reply : Comment)
    (t t' : trace float) (r : result unit) :
  handle_reply env comments model temperature max_tokens reply t = (t', r) ->
  exists added,
    t' = t ++ added
    /\ (exists rest,
          (if negb (existsb (Spec.bot_answers reply) comments)
           then [id reply] else []) = Spec.posts added ++ rest
          /\ (Py.is_ok r = true -> rest = []))
    /\ (exists rest,
          (if negb (existsb (Spec.bot_answers reply) comments)
           then [reply_prompt reply] else []) = Spec.asked added ++ rest
          /\ (Py.is_ok r = true -> rest = [])).
Proof.
  unfold handle_reply.
  destruct (bot_replies comments reply) as [|b bs] eqn:Hb.
  - apply filter_nil_existsb in Hb. change (existsb _ comments)
      with (existsb (Spec.bot_answers reply) comments) in Hb. rewrite Hb.
    cbn [negb].
    unfold mbind, completion_create, create_reply, call, print.
    destruct (openai_completion env t model (reply_prompt reply) temperature
                max_tokens) as [text|e] eqn:Hc.
    + match goal with
      | |- context [host_create_reply env ?u (id reply) text] =>
          destruct (host_create_reply env u (id reply) text) as [[]|e] eqn:Hp
      end; intros H; inversion H; subst; eexists;
        (split; [flatten_trace; reflexivity|]);
        split; exists []; split; auto.
    + intros H; inversion H; subst. eexists. split; [reflexivity|].
      split.
      * exists [id reply]. split; [reflexivity | discriminate].
      * exists []. split; auto.
  - assert (existsb (Spec.bot_answers reply) comments = true) as ->.
    { destruct (existsb (Spec.bot_answers reply) comments) eqn:E;
        [reflexivity|].
      apply filter_nil_existsb in E. unfold bot_replies in Hb.
      change (filter _ comments) with (filter (Spec.bot_answers reply) comments) in Hb.
      congruence. }
    cbn [negb]. unfold print. intros H; inversion H; subst. eexists.
    split; [reflexivity|]. split; exists []; split; auto.
Qed.

(** One comment, in any run. *)
Lemma handle_comment_prefix (comments : list Comment) (model : string)
    (temperature : float) (max_tokens : Z) (comment : Comment)
    (t t' : trace float) (r : result unit) :
  handle_comment env comments model temperature max_tokens comment t = (t', r) ->
  exists added,
    t' = t ++ added
    /\ (exists rest,
          map id (Spec.pending_of comments comment) = Spec.posts added ++ rest
          /\ (Py.is_ok r = true -> rest = []))
    /\ (exists rest,
          map reply_prompt (Spec.pending_of comments comment)
          = Spec.asked added ++ rest
          /\ (Py.is_ok r = true -> rest = [])).
Proof.
  unfold handle_comment, Spec.pending_of. destruct (is_bot comment).
  - intros H.
    destruct (for_each_prefix Spec.posts
                (fun reply => if negb (existsb (Spec.bot_answers reply) comments)
                              then [id reply] else [])
                _ _ eq_refl posts_app
                (fun x u u' ru _ Hx =>
                   match handle_reply_prefix comments model temperature
                           max_tokens x u u' ru Hx with
                   | ex_intro _ a (conj E (conj P _)) => ex_intro _ a (conj E P)
                   end) t t' r H) as (a1 & E1 & P1).
    destruct (for_each_prefix Spec.asked
                (fun reply => if negb (existsb (Spec.bot_answers reply) comments)
                              then [reply_prompt reply] else [])
                _ _ eq_refl asked_app
                (fun x u u' ru _ Hx =>
                   match handle_reply_prefix comments model temperature
                           max_tokens x u u' ru Hx with
                   | ex_intro _ a (conj E (conj _ P)) => ex_intro _ a (conj E P)
                   end) t t' r H) as (a2 & E2 & P2).
    rewrite E1 in E2. apply app_inv_head in E2. subst a2.
    rewrite flat_map_if_filter in P1. rewrite flat_map_if_filter in P2.
    now exists a1.
  - unfold print. intros H; inversion H; subst. eexists.
    split; [reflexivity|]. split; exists []; split; auto.
Qed.

(** All comments, in any run. *)
Lemma handle_comments_prefix (comments : list Comment) (model : string)
    (temperature : float) (max_tokens : Z) (l : list Comment)
    (t t' : trace float) (r : result unit) :
  for_each (handle_comment env comments model temperature max_tokens) l t
  = (t', r) ->
  exists added,
    t' = t ++ added
    /\ (exists rest,
          map id (flat_map (Spec.pending_of comments) l)
          = Spec.posts added ++ rest
          /\ (Py.is_ok r = true -> rest = []))
    /\ (exists rest,
          map reply_prompt (flat_map (Spec.pending_of comments) l)
          = Spec.asked added ++ rest
          /\ (Py.is_ok r = true -> rest = [])).
Proof.
  intros H.
  destruct (for_each_prefix Spec.posts
              (fun c => map id (Spec.pending_of comments c))
              _ _ eq_refl posts_app
              (fun x u u' ru _ Hx =>
                 match handle_comment_prefix comments model temperature
                         max_tokens x u u' ru Hx with
                 | ex_intro _ a (conj E (conj P _)) => ex_intro _ a (conj E P)
                 end) t t' r H) as (a1 & E1 & P1).
  destruct (for_each_prefix Spec.asked
              (fun c => map reply_prompt (Spec.pending_of comments c))
              _ _ eq_refl asked_app
              (fun x u u' ru _ Hx =>
                 match handle_comment_prefix comments model temperature
                         max_tokens x u u' ru Hx with
                 | ex_intro _ a (conj E (conj _ P)) => ex_intro _ a (conj E P)
                 end) t t' r H) as (a2 & E2 & P2).
  rewrite E1 in E2. apply app_inv_head in E2. subst a2.
  rewrite flat_map_map in P1. rewrite flat_map_map in P2. now exists a1.
Qed.

(** A run of [handle_replies]: a lookup fails, or the comments are
    listed and the loop over them runs.  The answers are those of the
    host. *)
Lemma handle_replies_cases (token : string) (pr_id : Z)
    (api_key model : string) (temperature : float) (max_tokens : Z)
    (t t' : trace float) (r : result unit) :
  handle_replies env token pr_id api_key model temperature max_tokens t
  = (t', r) ->
  (exists e,
     host_get_pull env t token pr_id = Raise e
     /\ r = Raise e /\ t' = t ++ [GetPull token pr_id (Raise e)])
  \/ (exists pull e,
        host_get_pull env t token pr_id = Ok pull
        /\ host_get_issue_comments env (t ++ [GetPull token pr_id (Ok pull)])
           = Raise e
        /\ r = Raise e
        /\ t' = t ++ [GetPull token pr_id (Ok pull); GetIssueComments (Raise e)])
  \/ (exists pull comments,
        host_get_pull env t token pr_id = Ok pull
        /\ host_get_issue_comments env (t ++ [GetPull token pr_id (Ok pull)])
           = Ok comments
        /\ for_each (handle_comment env comments model temperature max_tokens)
             comments
             (t ++ [GetPull token pr_id (Ok pull);
                    GetIssueComments (Ok comments)])
           = (t', r)).
Proof.
  unfold handle_replies, mbind at 1, get_pull, call.
  destruct (host_get_pull env t token pr_id) as [pull|e] eqn:Hpull.
  - unfold mbind at 1, get_issue_comments, call.
    destruct (host_get_issue_comments env (t ++ [GetPull token pr_id (Ok pull)]))
      as [comments|e] eqn:Hcs; intros H.
    + right. right. exists pull, comments. split; [reflexivity|].
      split; [exact Hcs|]. rewrite <- H. f_equal.
      now rewrite <- app_assoc.
    + right. left. inversion H; subst. exists pull, e.
      split; [reflexivity|]. split; [exact Hcs|].
      split; [reflexivity|]. now rewrite <- app_assoc.
  - intros H. left. inversion H; subst. now exists e.
Qed.

Lemma count_occ_prefix (whole part rest : list Z) (x : Z) :
  whole = part ++ rest ->
  (count_occ Z.eq_dec part x <= count_occ Z.eq_dec whole x)%nat.
Proof. intros ->. rewrite count_occ_app. lia. Qed.

(** C8. Every run of [handle_replies], returning or raising.  Either a
    lookup fails and the run raises what the host raised, with no other
    event; or the comments are listed and the replies are handled.
    Then a run raises only what a failed call raised, right after that
    call, and it returns when no call fails.  Every completion request
    carries the prompt of a human reply to a comment of the bot that no
    comment of the bot answers, and every post goes to one.  With
    identifiers that are pairwise distinct (as the host numbers them),
    for a human reply to a comment of the bot: when a comment of the bot
    answers it, nothing is posted to it; when none does, at most one
    post goes to it, and in a run that returns exactly one, right after
    the completion request that carries its prompt, whose answer is the
    text posted.  In a run that returns the posts and the requests are,
    each once, those of all such unanswered replies. *)
Theorem handle_replies_answers_once (token : string) (pr_id : Z)
    (api_key model : string) (temperature : float) (max_tokens : Z)
    (t t' : trace float) (r : result unit) :
  handle_replies env token pr_id api_key model temperature max_tokens t
  = (t', r) ->
  exists events,
    t' = t ++ events
    /\ ((forall ev, In ev events -> Spec.failure ev = None) -> r = Ok tt)
    /\ ((exists e,
           r = Raise e
           /\ ((host_get_pull env t token pr_id = Raise e
                /\ events = [GetPull token pr_id (Raise e)])
               \/ exists pull,
                    host_get_pull env t token pr_id = Ok pull
                    /\ host_get_issue_comments env
                         (t ++ [GetPull token pr_id (Ok pull)])
                       = Raise e
                    /\ events = [GetPull token pr_id (Ok pull);
                                 GetIssueComments (Raise e)]))
        \/ exists pull comments added,
             host_get_pull env t token pr_id = Ok pull
             /\ host_get_issue_comments env
                  (t ++ [GetPull token pr_id (Ok pull)])
                = Ok comments
             /\ events = GetPull token pr_id (Ok pull)
                         :: GetIssueComments (Ok comments) :: added
             /\ (forall e, r = Raise e ->
                   exists before last,
                     added = before ++ [last] /\ Spec.failure last = Some e)
             /\ (forall p, In p (Spec.asked added) ->
                   exists reply, In reply (Spec.unanswered comments)
                                 /\ reply_prompt reply = p)
             /\ (forall cid, In cid (Spec.posts added) ->
                   exists reply, In reply (Spec.unanswered comments)
                                 /\ id reply = cid)
             /\ (NoDup (map id comments) ->
                 (r = Ok tt ->
                  Permutation (Spec.posts added)
                              (map id (Spec.unanswered comments))
                  /\ Permutation (Spec.asked added)
                                 (map reply_prompt (Spec.unanswered comments)))
                 /\ forall comment reply,
                      In comment comments -> is_bot comment = true ->
                      In reply comments -> is_bot reply = false ->
                      replies_to reply comment = true ->
                      if existsb (Spec.bot_answers reply) comments
                      then count_occ Z.eq_dec (Spec.posts added) (id reply)
                           = 0%nat
                      else (count_occ Z.eq_dec (Spec.posts added) (id reply)
                            <= 1)%nat
                           /\ (r = Ok tt ->
                               count_occ Z.eq_dec (Spec.posts added) (id reply)
                               = 1%nat
                               /\ exists before text after,
                                    added = before
                                      ++ CompletionCreate model
                                           (reply_prompt reply) temperature
                                           max_tokens (Ok text)
                                      :: CreateReply (id reply) text (Ok tt)
                                      :: after))).
Proof.
  intros H. pose proof H as Hrun.
  apply handle_replies_run in Hrun as (events & -> & _ & _ & Hshape).
  exists events. split; [reflexivity|].
  split.
  { intros Hclean. destruct r as [[]|e]; [reflexivity|].
    destruct Hshape as (before & last & -> & Hlast).
    rewrite (Hclean last) in Hlast; [discriminate Hlast|].
    apply in_app_iff. right. now left. }
  apply handle_replies_cases in H
    as [(e & Hpull & -> & E)
       |[(pull & e & Hpull & Hcs & -> & E)
        |(pull & comments & Hpull & Hcs & Hloop)]].
  - left. exists e. split; [reflexivity|]. left. split; [exact Hpull|].
    now apply app_inv_head in E.
  - left. exists e. split; [reflexivity|]. right. exists pull.
    split; [exact Hpull|]. split; [exact Hcs|].
    now apply app_inv_head in E.
  - right. pose proof Hloop as Hloop'.
    apply handle_comments_prefix in Hloop'
      as (added & E & (ps & Hposts & Hps) & (qs & Hasked & Hqs)).
    rewrite <- app_assoc in E. apply app_inv_head in E. cbn [app] in E.
    subst events. exists pull, comments, added. split; [exact Hpull|].
    split; [exact Hcs|]. split; [reflexivity|].
    assert (forall reply,
              In reply (flat_map (Spec.pending_of comments) comments) ->
              In reply (Spec.unanswered comments)) as Hpend.
    { intros reply Hin. apply in_flat_map in Hin as (c & Hc & Hr).
      apply pending_of_In in Hr as (Hb & Hin & Hrc & Hh & Ha).
      apply unanswered_In. repeat split; try assumption. now exists c. }
    split.
    { intros e ->.
      apply (for_each_run _
               (Spec.comment_part comments model temperature max_tokens)
               Spec.handler_event) in Hloop as (added' & E' & _ & Hr);
        [|intros c u u' ru _; apply handle_comment_run].
      rewrite <- app_assoc in E'. apply app_inv_head in E'. cbn [app] in E'.
      inversion E'; subst added'. exact Hr. }
    split.
    { intros p Hin.
      assert (In p (map reply_prompt
                      (flat_map (Spec.pending_of comments) comments))) as Hp
        by (rewrite Hasked; apply in_app_iff; now left).
      apply in_map_iff in Hp as (reply & Ep & Hr). eauto. }
    split.
    { intros cid Hin.
      assert (In cid (map id (flat_map (Spec.pending_of comments) comments)))
        as Hp by (rewrite Hposts; apply in_app_iff; now left).
      apply in_map_iff in Hp as (reply & Ep & Hr). eauto. }
    intros Hids. pose proof (pending_unanswered comments Hids) as Hperm.
    split.
    { intros ->. rewrite (Hps eq_refl), app_nil_r in Hposts.
      rewrite (Hqs eq_refl), app_nil_r in Hasked.
      rewrite <- Hposts, <- Hasked. split; now apply Permutation_map. }
    intros comment reply Hc Hb Hr Hh Hrc.
    pose proof (unanswered_count comments comment reply Hids Hc Hb Hr Hh Hrc)
      as Hcount.
    rewrite <- (proj1 (Permutation_count_occ Z.eq_dec _ _)
                      (Permutation_map id Hperm)) in Hcount.
    pose proof (count_occ_prefix _ _ _ (id reply) Hposts) as Hle.
    rewrite Hcount in Hle.
    destruct (existsb (Spec.bot_answers reply) comments) eqn:Ha; [lia|].
    split; [exact Hle|]. intros ->.
    rewrite (Hps eq_refl), app_nil_r in Hposts. rewrite <- Hposts.
    split; [exact Hcount|].
    apply (for_each_run _
             (Spec.comment_part comments model temperature max_tokens)
             Spec.handler_event) in Hloop as (added' & E' & _ & parts & -> & HF);
      [|intros c u u' ru _; apply handle_comment_run].
    rewrite <- app_assoc in E'. apply app_inv_head in E'. cbn [app] in E'.
    inversion E' as [Eadded].
    destruct (part_in_parts _ _ _ comment HF Hc) as (b1 & p & a1 & E1 & Hp).
    unfold Spec.comment_part in Hp. rewrite Hb in Hp.
    destruct Hp as (rparts & -> & HFr).
    assert (In reply (human_replies comments comment)) as Hrin
      by (apply filter_In; rewrite Hrc, Hh; auto).
    destruct (part_in_parts _ _ _ reply HFr Hrin) as (b2 & q & a2 & E2 & Hq).
    unfold Spec.reply_part in Hq. rewrite Ha in Hq.
    destruct Hq as (text & line & ->).
    exists (b1 ++ b2), text, (Print line :: a2 ++ a1).
    rewrite E1, E2. now repeat (rewrite <- app_assoc; cbn [app]).
Qed.

(** The final [if] of [main]: nothing without comments; with comments
    the whole of [handle_replies], then, if it returned, one review. *)
Lemma main_submit_run (args : Args float) (comments : list ReviewComment)
    (t t' : trace float) (r : result unit) :
  main_submit env args comments t = (t', r) ->
  match comments with
  | [] => t' = t /\ r = Ok tt
  | _ :: _ =>
      exists hr rh,
        handle_replies env (github_token args) (github_pr_id args)
          (openai_api_key args) (openai_model args)
          (openai_temperature args) (openai_max_tokens args) t
        = (t ++ hr, rh)
        /\ hr <> [] /\ forallb Spec.handler_event hr = true
        /\ match rh with
           | Ok _ =>
               t' = t ++ hr ++ [CreateReview review_title "COMMENT" comments r]
           | Raise e => t' = t ++ hr /\ r = Raise e
           end
  end.
Proof.
  unfold main_submit. destruct comments as [|c comments]; cbn [List.length Nat.ltb Nat.leb].
  - intros H. now inversion H.
  - intros H. apply mbind_run in H as [(t1 & [] & Hh & Hrev)|(e & Hh & ->)].
    + pose proof Hh as Hrun.
      apply handle_replies_run in Hrun as (hr & -> & HP & Hne & _).
      exists hr, (Ok tt). repeat split; try assumption.
      unfold create_review, call in Hrev. inversion Hrev; subst.
      now rewrite <- app_assoc.
    + pose proof Hh as Hrun.
      apply handle_replies_run in Hrun as (hr & -> & HP & Hne & _).
      exists hr, (Raise e). repeat split; assumption.
Qed.

Lemma loop_trace_nil : Spec.loop_trace (@nil (event float)).
Proof. repeat split. constructor. Qed.

Lemma handler_events_silent (hr : trace float) :
  forallb Spec.handler_event hr = true ->
  Spec.fetches hr = [] /\ Spec.chats hr = [] /\ Spec.reviews hr = [].
Proof.
  induction hr as [|e hr IH]; [now repeat split|].
  cbn [forallb]. intros H. apply andb_true_iff in H as [He Hhr].
  destruct (IH Hhr) as (Hf & Hc & Hr).
  destruct e; try discriminate He; cbn; now rewrite ?Hf, ?Hc, ?Hr.
Qed.

Lemma loop_events_silent (loop : trace float) :
  forallb Spec.loop_event loop = true ->
  Spec.reviews loop = [] /\ Spec.posts loop = [] /\ Spec.asked loop = [].
Proof.
  induction loop as [|e loop IH]; [now repeat split|].
  cbn [forallb]. intros H. apply andb_true_iff in H as [He Hl].
  destruct (IH Hl) as (Hr & Hp & Ha).
  destruct e; try discriminate He; cbn; now rewrite ?Hr, ?Hp, ?Ha.
Qed.

(** A file fetched empty is not among the files fetched with content,
    when no path is fetched twice. *)
Lemma empty_not_nonempty (l : list (string * string)) (path : string) :
  NoDup (map fst l) -> In (path, "") l ->
  ~ In path (map fst (filter Spec.nonempty l)).
Proof.
  intros Hnd Hin Hpath. apply in_map_iff in Hpath as ([p c] & E & Hpc).
  simpl in E. subst p. apply filter_In in Hpc as [Hpc Hne].
  assert ((path, c) = (path, "")) as Heq
    by (apply (NoDup_map_inj fst l); auto).
  inversion Heq; subst. discriminate Hne.
Qed.

Variable fnmatch : string -> string -> bool.

(** A run of [main]: it stops with an exception before the final [if],
    or it reaches the final [if] with the comments of the loop. *)
Lemma main_run (args : Args float) (t t' : trace float) (r : result unit) :
  main fnmatch env args t = (t', r) ->
  (exists e head loop,
     r = Raise e /\ t' = t ++ head ++ loop
     /\ (head = []
         \/ exists a, head = [GetPull (github_token args) (github_pr_id args) a])
     /\ Spec.loop_trace loop)
  \/ (exists pull loop comments,
        Spec.loop_trace loop
        /\ map rc_path comments
           = map fst (filter Spec.nonempty (Spec.fetches loop))
        /\ main_submit env args comments
             (t ++ GetPull (github_token args) (github_pr_id args) (Ok pull)
                :: loop)
           = (t', r)).
Proof.
  unfold main. intros H.
  apply mbind_run in H as [(t1 & patterns & Hargs & H)|(e & Hargs & ->)].
  2:{ left. exists e, [], []. destruct (arg_files args); inversion Hargs; subst.
      rewrite app_nil_r. repeat split; auto. apply loop_trace_nil. }
  assert (t1 = t) as -> by (destruct (arg_files args); now inversion Hargs).
  apply mbind_run in H as [(t1 & pull & Hpull & H)|(e & Hpull & ->)].
  2:{ left. unfold get_pull, call in Hpull. inversion Hpull as [[Ht Hr]].
      exists e, [GetPull (github_token args) (github_pr_id args) (Raise e)], [].
      rewrite Hr, app_nil_r. repeat split; eauto. apply loop_trace_nil. }
  unfold get_pull, call in Hpull. inversion Hpull as [[Ht Hr]]. rewrite Hr in *.
  clear Hpull. subst t1.
  apply mbind_run in H as [(t2 & records & Hrec & H)|(e & Hrec & ->)].
  2:{ left. unfold lift in Hrec. inversion Hrec; subst.
      exists e, [GetPull (github_token args) (github_pr_id args) (Ok pull)], [].
      rewrite app_nil_r. repeat split; eauto. apply loop_trace_nil. }
  unfold lift in Hrec. inversion Hrec as [[Ht2 Hfiles]]. subst t2. clear Hrec.
  apply mbind_run in H as [(t3 & comments & Hloop & H)|(e & Hloop & ->)].
  - apply main_loop_run in Hloop
      as (loop & -> & Hev & Hchats & (rest & Hnames & Hrest) & Hpaths).
    right. exists pull, loop, comments.
    rewrite (Hrest eq_refl), app_nil_r in Hnames.
    split; [split; [exact Hev|split; [exact Hchats|]]|split].
    + rewrite <- Hnames, (files_for_review_names _ _ _ _ Hfiles).
      apply first_occurrences_NoDup.
    + exact Hpaths.
    + rewrite <- H. f_equal. now rewrite <- app_assoc.
  - apply main_loop_run in Hloop
      as (loop & -> & Hev & Hchats & (rest & Hnames & Hrest) & Hpaths).
    left.
    exists e, [GetPull (github_token args) (github_pr_id args) (Ok pull)], loop.
    split; [reflexivity|]. split; [now rewrite <- app_assoc|].
    split; [right; eauto|].
    split; [exact Hev|split; [exact Hchats|]].
    apply (NoDup_app_remove_r _ rest). rewrite <- Hnames.
    rewrite (files_for_review_names _ _ _ _ Hfiles).
    apply first_occurrences_NoDup.
Qed.

(** C7. A file whose fetched content is empty is passed over: the loop
    of [main] goes on with the remaining files and the same comments,
    raising nothing.  In every run of [main] the chat requests are those
    of the files fetched with some content, one each; a file fetched
    empty is not among them, and no review carries a comment for it. *)
Theorem main_skips_empty_content :
  (forall (args : Args float) path line commit records comments t,
     host_get_contents env t path (sha commit) = Ok "" ->
     main_loop env args ((path, line, commit) :: records) comments t
     = main_loop env args records comments
         (t ++ [GetContents path (sha commit) (Ok "")]))
  /\ (forall (args : Args float) t t' r,
        main fnmatch env args t = (t', r) ->
        exists added,
          t' = t ++ added
          /\ Spec.chats added
             = map Spec.prompt_of (filter Spec.nonempty (Spec.fetches added))
          /\ forall path,
               In (path, "") (Spec.fetches added) ->
               ~ In path (map fst (filter Spec.nonempty (Spec.fetches added)))
               /\ forall title ev comments,
                    In (title, ev, comments) (Spec.reviews added) ->
                    ~ In path (map rc_path comments)).
Proof.
  split.
  - intros args path line commit records comments t Hc.
    cbn [main_loop]. unfold mbind at 1, get_contents, call. now rewrite Hc.
  - intros args t t' r H. apply main_run in H
      as [(e & head & loop & -> & -> & Hhead & Hev & Hchats & Hnd)
         |(pull & loop & comments & (Hev & Hchats & Hnd) & Hpaths & Hsub)].
    + exists (head ++ loop). split; [reflexivity|].
      destruct (loop_events_silent loop Hev) as (Hrev & _ & _).
      assert (Spec.fetches (head ++ loop) = Spec.fetches loop
              /\ Spec.chats (head ++ loop) = Spec.chats loop
              /\ Spec.reviews (head ++ loop) = []) as (-> & -> & ->)
        by (destruct Hhead as [->|[a ->]]; now repeat split).
      split; [exact Hchats|]. intros path Hin.
      split; [now apply empty_not_nonempty | intros ? ? ? []].
    + set (G := GetPull (github_token args) (github_pr_id args) (Ok pull)) in *.
      destruct (loop_events_silent loop Hev) as (Hrev & _ & _).
      apply main_submit_run in Hsub. destruct comments as [|c comments].
      * destruct Hsub as [-> ->]. exists (G :: loop).
        split; [reflexivity|].
        change (Spec.fetches (G :: loop)) with (Spec.fetches loop).
        change (Spec.chats (G :: loop)) with (Spec.chats loop).
        change (Spec.reviews (G :: loop)) with (Spec.reviews loop).
        rewrite Hrev. split; [exact Hchats|]. intros path Hin.
        split; [now apply empty_not_nonempty | intros ? ? ? []].
      * destruct Hsub as (hr & rh & _ & _ & Hhr & Hend).
        destruct (handler_events_silent hr Hhr) as (Hf & Hc & Hr).
        destruct rh as [[]|e].
        -- subst t'.
           exists (G :: loop ++ hr
                   ++ [CreateReview review_title "COMMENT" (c :: comments) r]).
           split; [now rewrite <- app_assoc|].
           change (Spec.fetches (G :: ?l)) with (Spec.fetches l).
           change (Spec.chats (G :: ?l)) with (Spec.chats l).
           change (Spec.reviews (G :: ?l)) with (Spec.reviews l).
           rewrite !fetches_app, !chats_app, !reviews_app, Hf, Hc, Hr, Hrev.
           cbn. rewrite !app_nil_r.
           split; [exact Hchats|]. intros path Hin.
           split; [now apply empty_not_nonempty|].
           intros title ev cs [E|[]]. inversion E; subst.
           rewrite Hpaths. now apply empty_not_nonempty.
        -- destruct Hend as [-> ->]. exists (G :: loop ++ hr).
           split; [now rewrite <- app_assoc|].
           change (Spec.fetches (G :: ?l)) with (Spec.fetches l).
           change (Spec.chats (G :: ?l)) with (Spec.chats l).
           change (Spec.reviews (G :: ?l)) with (Spec.reviews l).
           rewrite !fetches_app, !chats_app, !reviews_app, Hf, Hc, Hr, Hrev.
           rewrite !app_nil_r.
           split; [exact Hchats|]. intros path Hin.
           split; [now apply empty_not_nonempty | intros ? ? ? []].
Qed.

(** The final [if] of [main] once more, with the answer of the host to
    the review. *)
Lemma main_submit_cases (args : Args float) (comments : list ReviewComment)
    (t t' : trace float) (r : result unit) :
  main_submit env args comments t = (t', r) ->
  match comments with
  | [] => t' = t /\ r = Ok tt
  | _ :: _ =>
      exists hr rh,
        handle_replies env (github_token args) (github_pr_id args)
          (openai_api_key args) (openai_model args)
          (openai_temperature args) (openai_max_tokens args) t
        = (t ++ hr, rh)
        /\ hr <> [] /\ forallb Spec.handler_event hr = true
        /\ match rh with
           | Ok _ =>
               r = host_create_review env (t ++ hr) review_title "COMMENT"
                     comments
               /\ t' = t ++ hr
                       ++ [CreateReview review_title "COMMENT" comments r]
           | Raise e => t' = t ++ hr /\ r = Raise e
           end
  end.
Proof.
  unfold main_submit. destruct comments as [|c comments]; cbn [List.length Nat.ltb Nat.leb].
  - intros H. now inversion H.
  - intros H. apply mbind_run in H as [(t1 & [] & Hh & Hrev)|(e & Hh & ->)].
    + pose proof Hh as Hrun.
      apply handle_replies_run in Hrun as (hr & -> & HP & Hne & _).
      exists hr, (Ok tt). repeat split; try assumption;
        unfold create_review, call in Hrev; inversion Hrev; subst;
        [reflexivity | now rewrite <- app_assoc].
    + pose proof Hh as Hrun.
      apply handle_replies_run in Hrun as (hr & -> & HP & Hne & _).
      exists hr, (Raise e). repeat split; assumption.
Qed.

(** C9. Every run of [main], case by case.  Before its final [if] a run
    stops only for one of four reasons, each raising: no [--files], a
    failed lookup of the pull request, an exception of
    [files_for_review], an exception of the loop over the records.
    Otherwise the loop returns its comments, one for each chat request
    and each file fetched with content, and the final [if] is reached
    with exactly these comments.  With no comment the run ends there,
    returning: no review, nothing of [handle_replies].  With at least
    one comment [handle_replies] runs first, from start to end; if it
    raises, the run raises the same and no review is created; if it
    returns, one review is created, as the last event of the run, with
    the fixed title, the event "COMMENT" and all the comments of the
    loop, and the answer of the host to it is the outcome of the run. *)
Theorem main_replies_before_review (args : Args float) (t t' : trace float)
    (r : result unit) :
  main fnmatch env args t = (t', r) ->
  (arg_files args = None /\ t' = t /\ r = Raise AttributeError)
  \/ exists flag,
       arg_files args = Some flag
       /\ ((exists e,
              host_get_pull env t (github_token args) (github_pr_id args)
              = Raise e
              /\ t' = t ++ [GetPull (github_token args) (github_pr_id args)
                              (Raise e)]
              /\ r = Raise e)
           \/ exists pull,
                host_get_pull env t (github_token args) (github_pr_id args)
                = Ok pull
                /\ let looked_up :=
                     t ++ [GetPull (github_token args) (github_pr_id args)
                             (Ok pull)] in
                   (exists e,
                      files_for_review fnmatch pull (Py.split_on "," flag)
                      = Raise e
                      /\ t' = looked_up /\ r = Raise e)
                   \/ exists records loop,
                        files_for_review fnmatch pull (Py.split_on "," flag)
                        = Ok records
                        /\ forallb Spec.loop_event loop = true
                        /\ ((exists e,
                               main_loop env args records [] looked_up
                               = (looked_up ++ loop, Raise e)
                               /\ t' = looked_up ++ loop /\ r = Raise e)
                            \/ exists comments,
                                 main_loop env args records [] looked_up
                                 = (looked_up ++ loop, Ok comments)
                                 /\ List.length comments
                                    = List.length (Spec.chats loop)
                                 /\ map rc_path comments
                                    = map fst (filter Spec.nonempty
                                                 (Spec.fetches loop))
                                 /\ let before := looked_up ++ loop in
                                    match comments with
                                    | [] => t' = before /\ r = Ok tt
                                    | _ :: _ =>
                                        exists hr rh,
                                          handle_replies env
                                            (github_token args)
                                            (github_pr_id args)
                                            (openai_api_key args)
                                            (openai_model args)
                                            (openai_temperature args)
                                            (openai_max_tokens args) before
                                          = (before ++ hr, rh)
                                          /\ hr <> []
                                          /\ forallb Spec.handler_event hr
                                             = true
                                          /\ match rh with
                                             | Ok _ =>
                                                 r = host_create_review env
                                                       (before ++ hr)
                                                       review_title "COMMENT"
                                                       comments
                                                 /\ t' = before ++ hr
                                                    ++ [CreateReview
                                                          review_title
                                                          "COMMENT" comments r]
                                             | Raise e =>
                                                 t' = before ++ hr
                                                 /\ r = Raise e
                                             end
                                    end)).
Proof.
  unfold main. intros H.
  apply mbind_run in H as [(t1 & patterns & Hargs & H)|(e & Hargs & ->)].
  2:{ left. destruct (arg_files args); inversion Hargs; subst. now repeat split. }
  destruct (arg_files args) as [flag|] eqn:Hflag; [|discriminate Hargs].
  inversion Hargs; subst t1 patterns. clear Hargs.
  right. exists flag. split; [reflexivity|].
  apply mbind_run in H as [(t1 & pull & Hpull & H)|(e & Hpull & ->)].
  2:{ left. unfold get_pull, call in Hpull. inversion Hpull as [[Ht Hr]].
      exists e. rewrite Hr. now repeat split. }
  unfold get_pull, call in Hpull. inversion Hpull as [[Ht Hr]]. rewrite Hr in *.
  clear Hpull. subst t1.
  right. exists pull. split; [reflexivity|]. cbv zeta.
  apply mbind_run in H as [(t2 & records & Hrec & H)|(e & Hrec & ->)].
  2:{ left. unfold lift in Hrec. inversion Hrec; subst. now exists e. }
  unfold lift in Hrec. inversion Hrec as [[Ht2 Hfiles]]. subst t2. clear Hrec.
  right.
  apply mbind_run in H as [(t3 & comments & Hloop & H)|(e & Hloop & ->)].
  - pose proof Hloop as Hrun.
    apply main_loop_run in Hrun as (loop & -> & Hev & Hchats & _ & Hpaths).
    exists records, loop. split; [exact Hfiles|]. split; [exact Hev|].
    right. exists comments. split; [exact Hloop|].
    change (map rc_path [] ++ ?x)%list with x in Hpaths. split.
    { rewrite Hchats, length_map, <- (length_map fst), <- Hpaths.
      now rewrite length_map. }
    split; [exact Hpaths|].
    now apply main_submit_cases in H.
  - pose proof Hloop as Hrun.
    apply main_loop_run in Hrun as (loop & -> & Hev & _).
    exists records, loop. split; [exact Hfiles|]. split; [exact Hev|].
    left. now exists e.
Qed.

End ProgramFacts.

(* ================================================================= *)
(** ** The statements on sample runs *)

(** A pull request with a file that has content and an empty file: one
    chat request, none for the empty file, and the run returns. *)
Lemma main_skips_empty_content_witness :
  let env := Samples.env_of Samples.with_empty Samples.thread_open in
  let args := Samples.args_of "*.py" in
  let run := main fnmatch_wildcard env args [] in
  (host_get_contents env [] "empty.py" (sha Samples.e1) = Ok ""
   /\ main_loop env args [("empty.py", 1, Samples.e1)] [] []
      = main_loop env args [] []
          ([] ++ [GetContents "empty.py" (sha Samples.e1) (Ok "")]))
  /\ snd run = Ok tt
  /\ In ("empty.py", "") (Spec.fetches (fst run))
  /\ List.length (Spec.chats (fst run)) = 1%nat
  /\ exists added,
       fst run = [] ++ added
       /\ Spec.chats added
          = map Spec.prompt_of (filter Spec.nonempty (Spec.fetches added))
       /\ forall path,
            In (path, "") (Spec.fetches added) ->
            ~ In path (map fst (filter Spec.nonempty (Spec.fetches added)))
            /\ forall title ev comments,
                 In (title, ev, comments) (Spec.reviews added) ->
                 ~ In path (map rc_path comments).
Proof.
  intros env args run.
  split.
  { split; [reflexivity|].
    exact (proj1 (main_skips_empty_content env fnmatch_wildcard)
             args "empty.py" 1 Samples.e1 [] [] [] eq_refl). }
  split; [reflexivity|].
  split; [vm_compute; auto|].
  split; [reflexivity|].
  exact (proj2 (main_skips_empty_content env fnmatch_wildcard)
           args [] (fst run) (snd run) eq_refl).
Defined.

(** The thread with one human reply that nobody answered: one request,
    one reply posted to it.  The same thread with the answer of the bot:
    no request, nothing posted.  The open thread with the completion
    service down: the run raises what the service raised, having posted
    nothing. *)
Lemma handle_replies_answers_once_witness :
  let run env :=
    handle_replies env "ghp-token" 7 "sk-key" "gpt-3.5-turbo" "0.5" 2048 [] in
  let open := run (Samples.env_of Samples.twice Samples.thread_open) in
  let closed := run (Samples.env_of Samples.twice Samples.thread_closed) in
  let down :=
    run (Samples.env_completion_down Samples.twice Samples.thread_open) in
  (snd open = Ok tt
   /\ NoDup (map id Samples.thread_open)
   /\ exists added,
        fst open
        = GetPull "ghp-token" 7 (Ok Samples.twice)
          :: GetIssueComments (Ok Samples.thread_open) :: added
        /\ Permutation (Spec.posts added) [3]
        /\ Permutation (Spec.asked added) [reply_prompt Samples.human_reply])
  /\ (snd closed = Ok tt
      /\ NoDup (map id Samples.thread_closed)
      /\ exists added,
           fst closed
           = GetPull "ghp-token" 7 (Ok Samples.twice)
             :: GetIssueComments (Ok Samples.thread_closed) :: added
           /\ Permutation (Spec.posts added) []
           /\ Permutation (Spec.asked added) [])
  /\ (snd down = Raise (ServiceError "overloaded")
      /\ exists added,
           fst down
           = GetPull "ghp-token" 7 (Ok Samples.twice)
             :: GetIssueComments (Ok Samples.thread_open) :: added
           /\ Spec.posts added = []
           /\ exists before last,
                added = before ++ [last]
                /\ Spec.failure last = Some (ServiceError "overloaded")).
Proof.
  intros run open closed down.
  assert (NoDup (map id Samples.thread_open)) as Hopen
    by (repeat constructor; simpl; intuition discriminate).
  assert (NoDup (map id Samples.thread_closed)) as Hclosed
    by (repeat constructor; simpl; intuition discriminate).
  split; [|split].
  - split; [reflexivity|]. split; [exact Hopen|].
    destruct (handle_replies_answers_once
                (Samples.env_of Samples.twice Samples.thread_open)
                "ghp-token" 7 "sk-key" "gpt-3.5-turbo" "0.5" 2048 []
                (fst open) (snd open) eq_refl)
      as (events & E & _ & [(e & Hr & _)
                           |(pull & comments & added & _ & _ & Ev & _ & _ & _
                             & Hthread)]);
      [discriminate Hr|].
    subst events. cbn in E. inversion E; subst pull comments.
    exists added. split; [exact E|].
    destruct (Hthread Hopen) as (Hperm & _).
    exact (Hperm eq_refl).
  - split; [reflexivity|]. split; [exact Hclosed|].
    destruct (handle_replies_answers_once
                (Samples.env_of Samples.twice Samples.thread_closed)
                "ghp-token" 7 "sk-key" "gpt-3.5-turbo" "0.5" 2048 []
                (fst closed) (snd closed) eq_refl)
      as (events & E & _ & [(e & Hr & _)
                           |(pull & comments & added & _ & _ & Ev & _ & _ & _
                             & Hthread)]);
      [discriminate Hr|].
    subst events. cbn in E. inversion E; subst pull comments.
    exists added. split; [exact E|].
    destruct (Hthread Hclosed) as (Hperm & _).
    exact (Hperm eq_refl).
  - split; [reflexivity|].
    destruct (handle_replies_answers_once
                (Samples.env_completion_down Samples.twice Samples.thread_open)
                "ghp-token" 7 "sk-key" "gpt-3.5-turbo" "0.5" 2048 []
                (fst down) (snd down) eq_refl)
      as (events & E & _ & [(e & Hr & [(_ & Ev)|(pull & _ & _ & Ev)])
                           |(pull & comments & added & _ & _ & Ev & Hraise
                             & _)]);
      subst events; cbn in E; try discriminate E.
    inversion E as [[Hpull Hcs Hadded]]. subst pull comments.
    exists added. split; [exact E|]. split; [now rewrite <- Hadded|].
    exact (Hraise _ eq_refl).
Defined.

(** One comment produced: the reply handler runs, then the review is
    created, last. *)
Lemma main_replies_before_review_witness :
  let env := Samples.env_of Samples.with_empty Samples.thread_open in
  let args := Samples.args_of "*.py" in
  let run := main fnmatch_wildcard env args [] in
  let t' := fst run in
  let r := snd run in
  r = Ok tt
  /\ Spec.reviews t'
     = [(review_title, "COMMENT",
         [mkReviewComment "full.py" 1
            ("*ChatGPT review for full.py:*" ++ nl ++ "No obvious bugs.")%string])]
  /\ Spec.posts t' = [3]
  /\ (exists before, t' = before ++ [CreateReview review_title "COMMENT"
         [mkReviewComment "full.py" 1
            ("*ChatGPT review for full.py:*" ++ nl ++ "No obvious bugs.")%string]
         (Ok tt)]
        /\ Spec.posts before = [3] /\ Spec.reviews before = [])
  /\ ((arg_files args = None /\ t' = [] /\ r = Raise AttributeError)
      \/ exists flag,
           arg_files args = Some flag
           /\ ((exists e,
                  host_get_pull env [] (github_token args) (github_pr_id args)
                  = Raise e
                  /\ t' = [] ++ [GetPull (github_token args)
                                   (github_pr_id args) (Raise e)]
                  /\ r = Raise e)
               \/ exists pull,
                    host_get_pull env [] (github_token args)
                      (github_pr_id args)
                    = Ok pull
                    /\ let looked_up :=
                         [] ++ [GetPull (github_token args)
                                  (github_pr_id args) (Ok pull)] in
                       (exists e,
                          files_for_review fnmatch_wildcard pull
                            (Py.split_on "," flag)
                          = Raise e
                          /\ t' = looked_up /\ r = Raise e)
                       \/ exists records loop,
                            files_for_review fnmatch_wildcard pull
                              (Py.split_on "," flag)
                            = Ok records
                            /\ forallb Spec.loop_event loop = true
                            /\ ((exists e,
                                   main_loop env args records [] looked_up
                                   = (looked_up ++ loop, Raise e)
                                   /\ t' = looked_up ++ loop /\ r = Raise e)
                                \/ exists comments,
                                     main_loop env args records [] looked_up
                                     = (looked_up ++ loop, Ok comments)
                                     /\ List.length comments
                                        = List.length (Spec.chats loop)
                                     /\ map rc_path comments
                                        = map fst (filter Spec.nonempty
                                                     (Spec.fetches loop))
                                     /\ let before := looked_up ++ loop in
                                        match comments with
                                        | [] => t' = before /\ r = Ok tt
                                        | _ :: _ =>
                                            exists hr rh,
                                              handle_replies env
                                                (github_token args)
                                                (github_pr_id args)
                                                (openai_api_key args)
                                                (openai_model args)
                                                (openai_temperature args)
                                                (openai_max_tokens args) before
                                              = (before ++ hr, rh)
                                              /\ hr <> []
                                              /\ forallb Spec.handler_event hr
                                                 = true
                                              /\ match rh with
                                                 | Ok _ =>
                                                     r = host_create_review
                                                           env (before ++ hr)
                                                           review_title
                                                           "COMMENT" comments
                                                     /\ t' = before ++ hr
                                                        ++ [CreateReview
                                                              review_title
                                                              "COMMENT"
                                                              comments r]
                                                 | Raise e =>
                                                     t' = before ++ hr
                                                     /\ r = Raise e
                                                 end
                                        end))).
Proof.
  intros env args run t' r.
  split; [reflexivity|]. split; [reflexivity|]. split; [reflexivity|].
  split; [eexists; split; [reflexivity|split; reflexivity]|].
  exact (main_replies_before_review env fnmatch_wildcard args [] t' r eq_refl).
Defined.

(** No comment produced: the run ends after the loop, with no review
    and nothing of the reply handler. *)
Example main_no_comment_no_review :
  main fnmatch_wildcard
    (Samples.env_of Samples.only_empty Samples.thread_open)
    (Samples.args_of "*.py") []
  = ([GetPull "ghp-token" 7 (Ok Samples.only_empty);
      GetContents "empty.py" "e2" (Ok "")],
     Ok tt).
Proof. reflexivity. Qed.

(** Without [--files] the run stops at [args.files.split]. *)
Example main_without_files :
  main fnmatch_wildcard
    (Samples.env_of Samples.only_empty Samples.thread_open)
    (mkArgs "sk-key" "ghp-token" 7 "gpt-3.5-turbo" "0.5" 2048 None) []
  = ([], Raise AttributeError).
Proof. reflexivity. Qed.

(* ================================================================= *)
(** * Further properties of the functions *)

Local Open Scope string_scope.

(* ================================================================= *)
(** ** [code_type] and [prompt] *)

Lemma split_last_dot_spec (s stem ext : string) :
  Spec.split_last_dot s = Some (stem, ext) <->
  s = stem ++ "." ++ ext /\ Spec.has_char "." ext = false.
Proof.
  split.
  - revert stem. induction s as [|c s IH]; intros stem H; [discriminate H|].
    cbn [Spec.split_last_dot] in H.
    destruct (Spec.split_last_dot s) as [[stem' ext']|] eqn:E.
    + inversion H; subst. destruct (IH stem' eq_refl) as [-> Hext].
      now split.
    + destruct (Ascii.eqb_spec c ".") as [->|]; [|discriminate H].
      inversion H; subst. split; [reflexivity|]. now apply split_last_dot_none.
  - intros [-> Hext]. induction stem as [|c stem IH].
    + cbn. apply split_last_dot_none in Hext. now rewrite Hext.
    + cbn [append Spec.split_last_dot]. cbn [append] in IH. now rewrite IH.
Qed.

Lemma lookup_languages (ext language : string) :
  Spec.lookup ext Spec.languages = Some language <->
  In (ext, language) Spec.languages.
Proof.
  unfold Spec.languages. cbn [Spec.lookup In]. split.
  - repeat match goal with
           | |- context [String.eqb ext ?x] =>
               destruct (String.eqb_spec ext x) as [->|]
           end; intros H; inversion H; subst; tauto.
  - intros H.
    repeat destruct H as [H|H]; try (inversion H; subst; reflexivity).
Qed.

(** X1. [code_type] returns a language exactly for the names of the form
    stem, dot, extension where the extension is one of the five listed
    with its language, holds no dot, and the stem holds no line feed; for
    every other name it returns [None]. *)
Theorem code_type_language (filename language : string) :
  code_type filename = Some language <->
  exists stem ext,
    filename = stem ++ "." ++ ext
    /\ Spec.has_char "." ext = false
    /\ Spec.has_char LF stem = false
    /\ In (ext, language) Spec.languages.
Proof.
  rewrite code_type_unfold. split.
  - destruct (Spec.split_last_dot filename) as [[stem ext]|] eqn:E;
      [|discriminate].
    destruct (Spec.has_char LF stem) eqn:Hlf; [discriminate|].
    intros H. apply split_last_dot_spec in E as [-> Hext].
    exists stem, ext. repeat split; try assumption.
    now apply lookup_languages.
  - intros (stem & ext & -> & Hext & Hlf & Hin).
    rewrite (proj2 (split_last_dot_spec _ stem ext) (conj eq_refl Hext)), Hlf.
    now apply lookup_languages.
Qed.

Lemma append_inv_head (a x y : string) : a ++ x = a ++ y -> x = y.
Proof.
  induction a as [|c a IH]; cbn; [trivial|]. intros H. inversion H. auto.
Qed.

Lemma append_inv_tail (x y z : string) : x ++ z = y ++ z -> x = y.
Proof.
  revert y. induction x as [|c x IH]; intros y H.
  - destruct y as [|d y]; [reflexivity|]. exfalso.
    apply (f_equal String.length) in H. cbn in H.
    rewrite length_append in H. lia.
  - destruct y as [|d y].
    + exfalso. apply (f_equal String.length) in H. cbn in H.
      rewrite length_append in H. lia.
    + cbn in H. inversion H. f_equal. now apply IH.
Qed.

(** The six labels a prompt can carry. *)
Lemma code_label_cases (filename : string) :
  In (code_label filename)
     ["code"; "JavaScript code"; "TypeScript code"; "Java code";
      "Python code"; "Bash code"].
Proof.
  unfold code_label. rewrite code_type_unfold.
  destruct (Spec.split_last_dot filename) as [[stem ext]|]; [|now left].
  destruct (Spec.has_char LF stem); [now left|].
  unfold Spec.languages, Spec.lookup.
  repeat match goal with
         | |- context [String.eqb ext ?x] => destruct (String.eqb ext x)
         end; cbn; tauto.
Qed.

(** X2. Two prompts are equal only if they embed the same file content
    and carry the same label: the content is recovered from the prompt,
    whatever it holds, and the name counts only through its label. *)
Theorem prompt_determines_contents (f1 f2 c1 c2 : string) :
  prompt f1 c1 = prompt f2 c2 ->
  c1 = c2 /\ code_label f1 = code_label f2.
Proof.
  unfold prompt. intros H. apply append_inv_head in H.
  assert (code_label f1 = code_label f2) as Hl.
  { pose proof (code_label_cases f1) as H1.
    pose proof (code_label_cases f2) as H2.
    revert H H1 H2.
    generalize (code_label f1) as l1. generalize (code_label f2) as l2.
    intros l2 l1 H H1 H2. cbn [In] in H1, H2.
    destruct H1 as [<-|[<-|[<-|[<-|[<-|[<-|[]]]]]]];
      destruct H2 as [<-|[<-|[<-|[<-|[<-|[<-|[]]]]]]];
      try reflexivity; cbn in H; discriminate H. }
  split; [|exact Hl].
  rewrite Hl in H. apply append_inv_head in H.
  repeat (apply append_inv_head in H).
  exact (append_inv_tail _ _ _ H).
Qed.

Lemma prompt_determines_contents_witness :
  prompt "lib/a.py" "x = 1" = prompt "b.py" "x = 1"
  /\ "x = 1" = "x = 1" /\ code_label "lib/a.py" = code_label "b.py".
Proof.
  split; [reflexivity|].
  exact (prompt_determines_contents "lib/a.py" "b.py" "x = 1" "x = 1" eq_refl).
Defined.

(* ================================================================= *)
(** ** [line_start_patch] *)

Lemma line_start_patch_str_of_int_witness :
  0 <= 2048
  /\ line_start_patch ("@@ -" ++ str_of_int 2048 ++ "," ++ "7 +2050,9 @@") = Ok 2048
  /\ line_start_patch ("@@ +" ++ str_of_int 2048 ++ "," ++ "7 +2050,9 @@") = Ok 2048
  /\ Spec.decimal (str_of_int 2048) = 2048.
Proof.
  split; [lia|].
  exact (line_start_patch_str_of_int 2048 "7 +2050,9 @@" ltac:(lia)).
Defined.

Lemma decimal_nonneg (ds : string) : 0 <= Spec.decimal ds.
Proof.
  induction ds as [|d ds IH]; cbn [Spec.decimal]; [lia|].
  assert (0 <= 10 ^ Z.of_nat (String.length ds)) by (apply Z.pow_nonneg; lia).
  nia.
Qed.

Lemma int_from_raises (s : string) (acc : Z) (e : exn) :
  Py.int_from acc s = Raise e -> e = ValueError.
Proof.
  revert acc. induction s as [|c s IH]; intros acc; cbn [Py.int_from];
    [discriminate|].
  destruct (Py.digit_value c); [apply IH|]. intros H. now inversion H.
Qed.

(** The two exceptions of the parser. *)
Lemma line_start_patch_exceptions (s : string) (e : exn) :
  line_start_patch s = Raise e -> e = AttributeError \/ e = ValueError.
Proof.
  rewrite line_start_patch_unfold.
  destruct (Spec.header_digits s) as [ds|].
  - unfold Py.int. destruct ds; intros H.
    + right. now inversion H.
    + right. now apply int_from_raises in H.
  - intros H. left. now inversion H.
Qed.

(** X4. Whenever [line_start_patch] returns a number, the text starts
    with two at signs, a space, a minus or a plus, a non-empty run of
    decimal digits and a comma; the number is the one those digits
    denote, and it is never negative. *)
Theorem line_start_patch_returns_only_headers (s : string) (n : Z) :
  line_start_patch s = Ok n ->
  0 <= n
  /\ exists sign ds rest,
       (sign = "-"%char \/ sign = "+"%char)
       /\ ds <> "" /\ Spec.all_digits ds = true
       /\ s = "@@ " ++ String sign ds ++ "," ++ rest
       /\ n = Spec.decimal ds.
Proof.
  intros H. pose proof H as H'. rewrite line_start_patch_unfold in H'.
  assert (Spec.is_hunk_header s = true) as Hh.
  { unfold Spec.is_hunk_header.
    destruct (Spec.header_digits s) as [[|d ds]|]; try discriminate H'.
    reflexivity. }
  apply is_hunk_header_iff in Hh as (sign & ds & rest & Hs & Hne & Hall & ->).
  rewrite (header_digits_app _ _ _ Hs Hall), (int_digits _ Hne Hall) in H'.
  inversion H'; subst n. split; [apply decimal_nonneg|].
  exists sign, ds, rest. repeat split; assumption.
Qed.

Lemma line_start_patch_returns_only_headers_witness :
  line_start_patch "@@ -17,6 +17,8 @@ class A:" = Ok 17
  /\ 0 <= 17
  /\ exists sign ds rest,
       (sign = "-"%char \/ sign = "+"%char)
       /\ ds <> "" /\ Spec.all_digits ds = true
       /\ "@@ -17,6 +17,8 @@ class A:" = "@@ " ++ String sign ds ++ "," ++ rest
       /\ 17 = Spec.decimal ds.
Proof.
  split; [reflexivity|].
  exact (line_start_patch_returns_only_headers
           "@@ -17,6 +17,8 @@ class A:" 17 eq_refl).
Defined.

Lemma span_digits_stop (ds rest : string) (c : ascii) :
  Spec.all_digits ds = true -> Re.digit c = false ->
  Spec.span_digits (ds ++ String c rest) = (ds, String c rest).
Proof.
  intros Hall Hc. induction ds as [|d ds IH]; cbn [append Spec.span_digits].
  - now rewrite Hc.
  - cbn [Spec.all_digits] in Hall. apply andb_true_iff in Hall as [Hd Hds].
    now rewrite Hd, (IH Hds).
Qed.

Lemma span_digits_all (ds : string) :
  Spec.all_digits ds = true -> Spec.span_digits ds = (ds, "").
Proof.
  induction ds as [|d ds IH]; cbn [Spec.all_digits Spec.span_digits];
    [reflexivity|].
  intros H. apply andb_true_iff in H as [Hd Hds]. now rewrite Hd, (IH Hds).
Qed.

(** X5. A header whose first range has no comma after its digits, as a
    unified diff writes a range of one line ([@@ -5 +5 @@]), is refused:
    whatever character other than a digit and a comma follows the
    digits, and also when the text ends there, [line_start_patch] raises
    [AttributeError]. *)
Theorem line_start_patch_needs_comma (sign : ascii) (ds rest : string)
    (c : ascii) :
  sign = "-"%char \/ sign = "+"%char ->
  Spec.all_digits ds = true ->
  Re.digit c = false -> c <> ","%char ->
  line_start_patch ("@@ " ++ String sign ds ++ String c rest)
  = Raise AttributeError
  /\ line_start_patch ("@@ " ++ String sign ds) = Raise AttributeError.
Proof.
  intros Hs Hall Hc Hcomma. rewrite !line_start_patch_unfold.
  unfold Spec.header_digits. cbn [append].
  assert (Ascii.eqb sign "-" || Ascii.eqb sign "+" = true) as ->
    by (destruct Hs as [->| ->]; reflexivity).
  rewrite (span_digits_stop _ _ _ Hall Hc), (span_digits_all _ Hall).
  split; [|reflexivity].
  destruct c as [[] [] [] [] [] [] [] []]; try reflexivity. now elim Hcomma.
Qed.

Lemma line_start_patch_needs_comma_witness :
  line_start_patch "@@ -5 +5 @@" = Raise AttributeError
  /\ line_start_patch "@@ -5" = Raise AttributeError.
Proof.
  exact (line_start_patch_needs_comma "-" "5" "+5 @@" " "
           (or_introl eq_refl) eq_refl eq_refl ltac:(discriminate)).
Defined.

(* ================================================================= *)
(** ** [files_for_review] *)

Local Open Scope list_scope.

Lemma files_for_review_returns_witness :
  (forall commit f,
     In commit (get_commits Samples.unordered) -> In f (files commit) ->
     Spec.selected fnmatch_wildcard ["*.py"] f = true ->
     exists header, patch f = Some header
                    /\ Spec.is_hunk_header header = true)
  /\ exists out,
       files_for_review fnmatch_wildcard Samples.unordered ["*.py"] = Ok out.
Proof.
  assert (forall commit f,
     In commit (get_commits Samples.unordered) -> In f (files commit) ->
     Spec.selected fnmatch_wildcard ["*.py"] f = true ->
     exists header, patch f = Some header
                    /\ Spec.is_hunk_header header = true) as Hall.
  { intros commit f [<-|[<-|[]]] [<-|[<-|[]]] _; eexists; split; reflexivity. }
  split; [exact Hall|].
  exact (files_for_review_returns fnmatch_wildcard Samples.unordered ["*.py"]
           Hall).
Defined.

Section ChangeSelectorMore.

Variable fnmatch : string -> string -> bool.
Variable patterns : list string.

Abbreviation selected' := (Spec.selected fnmatch patterns).
Abbreviation select' := (Spec.select fnmatch patterns).

Lemma select_raises (es : list (Commit * File)) (recorded : changes_t)
    (e : exn) :
  select' es recorded = Raise e ->
  exists es1 c f es2 recorded1,
    es = es1 ++ (c, f) :: es2
    /\ select' es1 recorded = Ok recorded1
    /\ selected' f = true
    /\ str_in (filename f) (map fst recorded1) = false
    /\ line_start_patch_of (patch f) = Raise e.
Proof.
  revert recorded. induction es as [|[c0 f0] es IH]; intros recorded;
    cbn [Spec.select]; [discriminate|].
  destruct (selected' f0 && negb (str_in (filename f0) (map fst recorded)))
    eqn:Hcond.
  - destruct (line_start_patch_of (patch f0)) as [line|e0] eqn:Hline;
      cbn [Py.bind]; intros H.
    + apply IH in H as (es1 & c & f & es2 & rec1 & -> & Hsel & Hs & Hnew & Hl).
      exists ((c0, f0) :: es1), c, f, es2, rec1.
      repeat split; try assumption.
      cbn [Spec.select]. now rewrite Hcond, Hline.
    + inversion H; subst e0. apply andb_true_iff in Hcond as [Hs Hnew].
      apply negb_true_iff in Hnew.
      now exists [], c0, f0, es, recorded.
  - intros H.
    apply IH in H as (es1 & c & f & es2 & rec1 & -> & Hsel & Hs & Hnew & Hl).
    exists ((c0, f0) :: es1), c, f, es2, rec1.
    repeat split; try assumption.
    cbn [Spec.select]. now rewrite Hcond.
Qed.

Lemma select_extends (es : list (Commit * File)) (recorded recorded' : changes_t) :
  select' es recorded = Ok recorded' -> exists new, recorded' = recorded ++ new.
Proof.
  revert recorded. induction es as [|[c f] es IH]; intros recorded;
    cbn [Spec.select]; intros H.
  - inversion H. exists []. now rewrite app_nil_r.
  - destruct (selected' f && negb (str_in (filename f) (map fst recorded)));
      [|now apply IH].
    destruct (line_start_patch_of (patch f)) as [line|e]; [|discriminate H].
    apply IH in H as (new & ->). rewrite <- app_assoc. now eexists.
Qed.

Lemma entries_app (a b : list Commit) :
  Spec.entries (a ++ b) = Spec.entries a ++ Spec.entries b.
Proof. apply flat_map_app. Qed.

(** X7. When [files_for_review] raises, the exception is the one
    [line_start_patch] raised on the patch of a selected entry that is
    the first selected entry of its name; it is [AttributeError],
    [ValueError] or, for a missing patch, [TypeError].  An unparsable
    patch in a later entry of a name never fails the pass. *)
Theorem files_for_review_raises (pull : PullRequest) (e : exn) :
  files_for_review fnmatch pull patterns = Raise e ->
  exists es1 commit f es2,
    Spec.entries (get_commits pull) = es1 ++ (commit, f) :: es2
    /\ selected' f = true
    /\ (forall e', In e' es1 -> selected' (snd e') = true ->
                   filename (snd e') <> filename f)
    /\ line_start_patch_of (patch f) = Raise e
    /\ (e = AttributeError \/ e = ValueError \/ e = TypeError).
Proof.
  unfold files_for_review. rewrite for_commits_select.
  destruct (select' (Spec.entries (get_commits pull)) []) as [rec|e0] eqn:Hsel;
    cbn [Py.bind]; [discriminate|].
  intros H. inversion H; subst e0.
  apply select_raises in Hsel
    as (es1 & c & f & es2 & rec1 & Hes & Hsel1 & Hs & Hnew & Hl).
  exists es1, c, f, es2. repeat split; try assumption.
  - intros e' He' Hse' Heq. apply select_keys in Hsel1. cbn [map app] in Hsel1.
    apply str_in_false in Hnew. apply Hnew. rewrite Hsel1.
    apply first_occurrences_from_In. split; [|intros []].
    rewrite <- Heq. apply in_map_iff. exists e'. split; [reflexivity|].
    apply filter_In. now split.
  - unfold line_start_patch_of in Hl. destruct (patch f) as [header|].
    + apply line_start_patch_exceptions in Hl. tauto.
    + inversion Hl. tauto.
Qed.

(** X8. Commits pushed later only add records: the output for a longer
    list of commits starts with the output for the shorter list, record
    for record, and a failure on the shorter list is the failure on the
    longer one. *)
Theorem files_for_review_more_commits (commits more : list Commit) :
  (forall out',
     files_for_review fnmatch (mkPull (commits ++ more)) patterns = Ok out' ->
     exists out extra,
       files_for_review fnmatch (mkPull commits) patterns = Ok out
       /\ out' = out ++ extra)
  /\ (forall e,
        files_for_review fnmatch (mkPull commits) patterns = Raise e ->
        files_for_review fnmatch (mkPull (commits ++ more)) patterns = Raise e).
Proof.
  unfold files_for_review. cbn [get_commits].
  rewrite !for_commits_select, entries_app, select_app.
  destruct (select' (Spec.entries commits) []) as [rec|e0] eqn:Hsel;
    cbn [Py.bind].
  - split; [|discriminate]. intros out' H.
    destruct (select' (Spec.entries more) rec) as [rec'|e1] eqn:Hmore;
      cbn [Py.bind] in H; [|discriminate H].
    inversion H. apply select_extends in Hmore as (new & ->).
    unfold Dict.items. rewrite map_app. eauto.
  - split; [discriminate|]. trivial.
Qed.

Lemma selected_ext (patterns' : list string) (f : File) :
  (forall p, In p patterns <-> In p patterns') ->
  Spec.selected fnmatch patterns f = Spec.selected fnmatch patterns' f.
Proof.
  intros H. unfold Spec.selected. f_equal.
  destruct (existsb (fnmatch (filename f)) patterns') eqn:E.
  - apply existsb_exists in E as (p & Hp & Hm). apply existsb_exists.
    exists p. split; [now apply H | exact Hm].
  - destruct (existsb (fnmatch (filename f)) patterns) eqn:E'; [|reflexivity].
    apply existsb_exists in E' as (p & Hp & Hm).
    assert (existsb (fnmatch (filename f)) patterns' = true); [|congruence].
    apply existsb_exists. exists p. split; [now apply H | exact Hm].
Qed.

(** X9. Only the set of patterns counts: two pattern lists with the
    same elements, in any order and with any repeats, give the same
    result, list or exception. *)
Theorem files_for_review_pattern_set (pull : PullRequest)
    (patterns' : list string) :
  (forall p, In p patterns <-> In p patterns') ->
  files_for_review fnmatch pull patterns
  = files_for_review fnmatch pull patterns'.
Proof.
  intros H. unfold files_for_review. rewrite !for_commits_select.
  f_equal. generalize (@nil (string * (Z * Commit))).
  induction (Spec.entries (get_commits pull)) as [|[c f] es IH];
    intros recorded; cbn [Spec.select]; [reflexivity|].
  rewrite (selected_ext patterns' f H).
  destruct (Spec.selected fnmatch patterns' f
            && negb (str_in (filename f) (map fst recorded))); [|apply IH].
  destruct (line_start_patch_of (patch f)); cbn [Py.bind];
    [apply IH | reflexivity].
Qed.

(** X10. A name has a record in the output exactly when some commit of
    the pull request has an entry of that name that is neither
    "unchanged" nor "removed" and matches a pattern. *)
Theorem files_for_review_records_every_match (pull : PullRequest)
    (out : list (string * Z * Commit)) (name : string) :
  files_for_review fnmatch pull patterns = Ok out ->
  (In name (map Spec.record_name out) <->
   exists commit, In commit (get_commits pull)
                  /\ Spec.touches fnmatch patterns commit name = true).
Proof.
  intros H. rewrite (files_for_review_names _ _ _ _ H), first_occurrences_In.
  unfold Spec.selected_names, Spec.touches, Spec.entries.
  rewrite in_map_iff. split.
  - intros ([c f] & Hn & Hin). apply filter_In in Hin as [Hin Hs].
    apply in_flat_map in Hin as (c' & Hc' & Hin).
    apply in_map_iff in Hin as (f' & E & Hf'). inversion E; subst c' f'.
    exists c. split; [assumption|]. apply existsb_exists. exists f.
    split; [assumption|]. cbn in Hn, Hs. rewrite Hs, andb_true_r.
    now apply String.eqb_eq.
  - intros (c & Hc & Ht). apply existsb_exists in Ht as (f & Hf & Hcond).
    apply andb_true_iff in Hcond as [Hn Hs]. apply String.eqb_eq in Hn.
    exists (c, f). split; [exact Hn|]. apply filter_In. split; [|exact Hs].
    apply in_flat_map. exists c. split; [assumption|]. now apply in_map.
Qed.

(** X11. When every entry is "unchanged", "removed" or matched by no
    pattern, [files_for_review] returns the empty list without parsing
    any patch: missing or malformed patches of such entries raise
    nothing.  So it is with no pattern at all. *)
Theorem files_for_review_nothing_selected (pull : PullRequest) :
  (forall commit f, In commit (get_commits pull) -> In f (files commit) ->
     status f = "unchanged" \/ status f = "removed"
     \/ forall pattern, In pattern patterns ->
                        fnmatch (filename f) pattern = false) ->
  files_for_review fnmatch pull patterns = Ok [].
Proof.
  intros Hall. unfold files_for_review. rewrite for_commits_select.
  assert (forall e, In e (Spec.entries (get_commits pull)) ->
            selected' (snd e) = false) as Hes.
  { intros [c f] Hin. apply in_flat_map in Hin as (c' & Hc' & Hin).
    apply in_map_iff in Hin as (f' & E & Hf'). inversion E; subst c' f'.
    cbn [snd]. destruct (selected' f) eqn:Hs; [|reflexivity].
    apply selected_true in Hs as (Hu & Hr & p & Hp & Hm).
    destruct (Hall c f Hc' Hf') as [Hst|[Hst|Hno]]; try contradiction.
    rewrite (Hno p Hp) in Hm. discriminate Hm. }
  assert (select' (Spec.entries (get_commits pull)) [] = Ok []) as ->;
    [|reflexivity].
  revert Hes. induction (Spec.entries (get_commits pull)) as [|[c f] es IH];
    intros Hes; cbn [Spec.select]; [reflexivity|].
  pose proof (Hes (c, f) (or_introl eq_refl)) as Hf. cbn [snd] in Hf.
  rewrite Hf. cbn [andb].
  apply IH. intros e He. apply Hes. now right.
Qed.

End ChangeSelectorMore.

Lemma files_for_review_raises_witness :
  files_for_review fnmatch_wildcard Samples.broken ["*.py"]
  = Raise AttributeError
  /\ exists es1 commit f es2,
       Spec.entries (get_commits Samples.broken) = es1 ++ (commit, f) :: es2
       /\ Spec.selected fnmatch_wildcard ["*.py"] f = true
       /\ (forall e', In e' es1 ->
              Spec.selected fnmatch_wildcard ["*.py"] (snd e') = true ->
              filename (snd e') <> filename f)
       /\ line_start_patch_of (patch f) = Raise AttributeError
       /\ (AttributeError = AttributeError \/ AttributeError = ValueError
           \/ AttributeError = TypeError).
Proof.
  split; [reflexivity|].
  exact (files_for_review_raises fnmatch_wildcard ["*.py"] Samples.broken
           AttributeError eq_refl).
Defined.

Lemma files_for_review_more_commits_witness :
  files_for_review fnmatch_wildcard (mkPull ([Samples.k1] ++ [Samples.k2]))
    ["*.py"]
  = Ok [("z.py", 1, Samples.k1); ("b.py", 5, Samples.k1);
        ("a.py", 7, Samples.k2)]
  /\ exists out extra,
       files_for_review fnmatch_wildcard (mkPull [Samples.k1]) ["*.py"] = Ok out
       /\ [("z.py", 1, Samples.k1); ("b.py", 5, Samples.k1);
           ("a.py", 7, Samples.k2)] = out ++ extra.
Proof.
  split; [reflexivity|].
  exact (proj1 (files_for_review_more_commits fnmatch_wildcard ["*.py"]
                  [Samples.k1] [Samples.k2]) _ eq_refl).
Defined.

Lemma files_for_review_pattern_set_witness :
  (forall p, In p ["*.py"; "*.md"] <-> In p ["*.md"; "*.py"; "*.py"])
  /\ files_for_review fnmatch_wildcard Samples.twice ["*.py"; "*.md"]
     = files_for_review fnmatch_wildcard Samples.twice ["*.md"; "*.py"; "*.py"].
Proof.
  assert (forall p, In p ["*.py"; "*.md"] <-> In p ["*.md"; "*.py"; "*.py"])
    as Hset by (intros p; cbn [In]; tauto).
  split; [exact Hset|].
  exact (files_for_review_pattern_set fnmatch_wildcard ["*.py"; "*.md"]
           Samples.twice ["*.md"; "*.py"; "*.py"] Hset).
Defined.

Lemma files_for_review_records_every_match_witness :
  files_for_review fnmatch_wildcard Samples.twice ["*.py"]
  = Ok [("a.py", 3, Samples.c1)]
  /\ (In "gone.py" (map Spec.record_name [("a.py", 3, Samples.c1)]) <->
      exists commit, In commit (get_commits Samples.twice)
                     /\ Spec.touches fnmatch_wildcard ["*.py"] commit "gone.py"
                        = true).
Proof.
  split; [reflexivity|].
  exact (files_for_review_records_every_match fnmatch_wildcard ["*.py"]
           Samples.twice [("a.py", 3, Samples.c1)] "gone.py" eq_refl).
Defined.

Lemma files_for_review_nothing_selected_witness :
  (forall commit f,
     In commit (get_commits Samples.nothing_to_review) -> In f (files commit) ->
     status f = "unchanged" \/ status f = "removed"
     \/ forall pattern, In pattern ["*.py"] ->
                        fnmatch_wildcard (filename f) pattern = false)
  /\ files_for_review fnmatch_wildcard Samples.nothing_to_review ["*.py"]
     = Ok [].
Proof.
  assert (forall commit f,
     In commit (get_commits Samples.nothing_to_review) -> In f (files commit) ->
     status f = "unchanged" \/ status f = "removed"
     \/ forall pattern, In pattern ["*.py"] ->
                        fnmatch_wildcard (filename f) pattern = false) as Hall.
  { intros commit f [<-|[]] [<-|[<-|[<-|[]]]]; cbn; auto.
    right; right. intros pattern [<-|[]]. reflexivity. }
  split; [exact Hall|].
  exact (files_for_review_nothing_selected fnmatch_wildcard ["*.py"]
           Samples.nothing_to_review Hall).
Defined.

(* ================================================================= *)
(** ** [main], [review] and [handle_replies] *)

Lemma split_on_nonempty (sep : ascii) (s : string) : Py.split_on sep s <> [].
Proof.
  destruct s as [|c s]; cbn [Py.split_on]; [discriminate|].
  destruct (Ascii.eqb c sep); [discriminate|].
  destruct (Py.split_on sep s); discriminate.
Qed.

(** X12. [split] loses nothing: the patterns [main] gets from the text
    of [--files] hold no comma, there is at least one of them (the empty
    text gives one empty pattern), and joined with commas they give the
    text back. *)
Theorem split_on_join (s : string) :
  String.concat "," (Py.split_on "," s) = s
  /\ Forall (fun piece => Spec.has_char "," piece = false) (Py.split_on "," s)
  /\ Py.split_on "," s <> [].
Proof.
  split; [|split; [|apply split_on_nonempty]].
  - induction s as [|c s IH]; [reflexivity|]. cbn [Py.split_on].
    pose proof (split_on_nonempty "," s) as Hne.
    destruct (Ascii.eqb_spec c ",") as [->|Hc].
    + destruct (Py.split_on "," s) as [|p ps]; [now elim Hne|].
      cbn [String.concat] in *. now rewrite IH.
    + destruct (Py.split_on "," s) as [|p ps]; [now elim Hne|].
      destruct ps as [|q ps]; cbn [String.concat append] in *; now rewrite IH.
  - induction s as [|c s IH]; [repeat constructor|]. cbn [Py.split_on].
    destruct (Ascii.eqb_spec c ",") as [->|Hc]; [now constructor|].
    destruct (Py.split_on "," s) as [|p ps]; [repeat constructor|].
    + cbn. apply orb_false_iff. split; [now apply Ascii.eqb_neq | reflexivity].
    + inversion IH; subst. constructor; [|assumption].
      cbn [Spec.has_char]. apply orb_false_iff.
      split; [now apply Ascii.eqb_neq | assumption].
Qed.

Section ProgramMore.

Context {float : Type} (env : Env float).

Lemma fail_fast_app (a b : trace float) (o : option exn) :
  Spec.fail_fast a None -> Spec.fail_fast b o -> Spec.fail_fast (a ++ b) o.
Proof.
  induction a as [|ev a IH]; cbn [app Spec.fail_fast]; [trivial|].
  destruct (Spec.failure ev); [intros [_ H]; discriminate H | exact IH].
Qed.

Lemma fail_fast_split (added : trace float) (o : option exn) :
  Spec.fail_fast added o ->
  forall before ev after e,
    added = before ++ ev :: after -> Spec.failure ev = Some e ->
    after = [] /\ o = Some e.
Proof.
  intros H before. revert added H.
  induction before as [|b before IH]; intros added H ev after e -> Hev;
    cbn [app Spec.fail_fast] in H.
  - now rewrite Hev in H.
  - destruct (Spec.failure b).
    + destruct H as [Hnil _]. now destruct before.
    + exact (IH _ H ev after e eq_refl Hev).
Qed.

Lemma fails_fast_ret {A} (a : A) : Spec.fails_fast (ret (float := float) a).
Proof.
  intros t t' r H. inversion H; subst. exists []. now rewrite app_nil_r.
Qed.

Lemma fails_fast_raise {A} (e : exn) :
  Spec.fails_fast (raise (float := float) (A := A) e).
Proof.
  intros t t' r H. inversion H; subst. exists []. now rewrite app_nil_r.
Qed.

Lemma fails_fast_lift {A} (x : result A) :
  Spec.fails_fast (lift (float := float) x).
Proof.
  intros t t' r H. inversion H; subst. exists []. now rewrite app_nil_r.
Qed.

Lemma fails_fast_print (line : string) :
  Spec.fails_fast (print (float := float) line).
Proof. intros t t' r H. inversion H; subst. now exists [Print line]. Qed.

Lemma fails_fast_bind {A B} (m : M float A) (k : A -> M float B) :
  Spec.fails_fast m -> (forall a, Spec.fails_fast (k a)) ->
  Spec.fails_fast (mbind m k).
Proof.
  intros Hm Hk t t' r H.
  apply mbind_run in H as [(t1 & a & H1 & H2)|(e & H1 & ->)].
  - apply Hm in H1 as (a1 & -> & F1). apply Hk in H2 as (a2 & -> & F2).
    exists (a1 ++ a2). split; [now rewrite app_assoc|].
    now apply fail_fast_app.
  - now apply Hm in H1.
Qed.

Lemma fails_fast_for_each {A} (body : A -> M float unit) (l : list A) :
  (forall x, Spec.fails_fast (body x)) -> Spec.fails_fast (for_each body l).
Proof.
  intros Hbody. induction l as [|x l IH]; cbn [for_each].
  - apply fails_fast_ret.
  - apply fails_fast_bind; [apply Hbody | intros _; exact IH].
Qed.

Ltac one_call :=
  intros t t' r H; unfold call in H; inversion H; subst;
  eexists [_]; split; [reflexivity|];
  cbn [Spec.fail_fast Spec.failure];
  match goal with
  | |- context [Spec.raised ?x] => destruct x; cbn [Spec.raised]; auto
  end.

Lemma fails_fast_get_pull token pr_id :
  Spec.fails_fast (get_pull env token pr_id).
Proof. unfold get_pull. one_call. Qed.

Lemma fails_fast_get_contents path ref :
  Spec.fails_fast (get_contents env path ref).
Proof. unfold get_contents. one_call. Qed.

Lemma fails_fast_get_issue_comments :
  Spec.fails_fast (get_issue_comments env).
Proof. unfold get_issue_comments. one_call. Qed.

Lemma fails_fast_create_reply comment_id text :
  Spec.fails_fast (create_reply env comment_id text).
Proof. unfold create_reply. one_call. Qed.

Lemma fails_fast_create_review title ev comments :
  Spec.fails_fast (create_review env title ev comments).
Proof. unfold create_review. one_call. Qed.

Lemma fails_fast_chat model (temperature : float) max_tokens content :
  Spec.fails_fast (chat_completion_create env model temperature max_tokens content).
Proof. unfold chat_completion_create. one_call. Qed.

Lemma fails_fast_completion engine prompt (temperature : float) max_tokens :
  Spec.fails_fast (completion_create env engine prompt temperature max_tokens).
Proof. unfold completion_create. one_call. Qed.

Lemma fails_fast_review filename content model (temperature : float)
    max_tokens :
  Spec.fails_fast (review env filename content model temperature max_tokens).
Proof.
  unfold review. apply fails_fast_bind; [apply fails_fast_chat|].
  intros a. apply fails_fast_ret.
Qed.

Lemma fails_fast_handle_replies token pr_id api_key model
    (temperature : float) max_tokens :
  Spec.fails_fast
    (handle_replies env token pr_id api_key model temperature max_tokens).
Proof.
  unfold handle_replies.
  apply fails_fast_bind; [apply fails_fast_get_pull|]. intros _.
  apply fails_fast_bind; [apply fails_fast_get_issue_comments|].
  intros comments. apply fails_fast_for_each. intros comment.
  unfold handle_comment. destruct (is_bot comment); [|apply fails_fast_print].
  apply fails_fast_for_each. intros reply. unfold handle_reply.
  destruct (bot_replies comments reply); [|apply fails_fast_print].
  apply fails_fast_bind; [apply fails_fast_completion|]. intros response.
  apply fails_fast_bind; [apply fails_fast_create_reply|]. intros _.
  apply fails_fast_print.
Qed.

Lemma fails_fast_main_loop (args : Args float) records comments :
  Spec.fails_fast (main_loop env args records comments).
Proof.
  revert comments.
  induction records as [|[[filename line] commit] records IH]; intros comments;
    cbn [main_loop]; [apply fails_fast_ret|].
  apply fails_fast_bind; [apply fails_fast_get_contents|]. intros content.
  destruct (String.length content =? 0)%nat; [apply IH|].
  apply fails_fast_bind; [apply fails_fast_review|]. intros body. apply IH.
Qed.

Variable fnmatch : string -> string -> bool.

(** X13. [main] stops at the first call that fails: in every run, a call
    to the host or to the completion service that is answered with an
    exception is the last event of the run, and that exception is what
    the run raises; nothing is retried and nothing is swallowed.  A run
    that returns saw no failed call. *)
Theorem main_fails_fast (args : Args float) (t t' : trace float)
    (r : result unit) :
  main fnmatch env args t = (t', r) ->
  exists added,
    t' = t ++ added
    /\ (forall before ev after e,
          added = before ++ ev :: after -> Spec.failure ev = Some e ->
          after = [] /\ r = Raise e)
    /\ (r = Ok tt -> forall ev, In ev added -> Spec.failure ev = None).
Proof.
  intros H.
  assert (Spec.fails_fast (main fnmatch env args)) as Hff.
  { unfold main. apply fails_fast_bind.
    - destruct (arg_files args); [apply fails_fast_ret | apply fails_fast_raise].
    - intros file_patterns.
      apply fails_fast_bind; [apply fails_fast_get_pull|]. intros pull.
      apply fails_fast_bind; [apply fails_fast_lift|]. intros records.
      apply fails_fast_bind; [apply fails_fast_main_loop|]. intros comments.
      unfold main_submit. destruct (0 <? List.length comments)%nat;
        [|apply fails_fast_ret].
      apply fails_fast_bind; [apply fails_fast_handle_replies|]. intros _.
      apply fails_fast_create_review. }
  apply Hff in H as (added & -> & F). exists added. split; [reflexivity|].
  assert (forall before ev after e,
            added = before ++ ev :: after -> Spec.failure ev = Some e ->
            after = [] /\ r = Raise e) as Hsplit.
  { intros before ev after e E Hev.
    destruct (fail_fast_split _ _ F before ev after e E Hev) as [Hnil Ho].
    split; [exact Hnil|]. destruct r; inversion Ho. reflexivity. }
  split; [exact Hsplit|].
  intros -> ev Hin. destruct (Spec.failure ev) as [e|] eqn:Hev; [|reflexivity].
  apply in_split in Hin as (before & after & E).
  destruct (Hsplit before ev after e E Hev) as [_ Hr]. discriminate Hr.
Qed.

End ProgramMore.

Section ProgramRuns.

Context {float : Type} (env : Env float).

Lemma fetch_requests_app (a b : trace float) :
  Spec.fetch_requests (a ++ b) = Spec.fetch_requests a ++ Spec.fetch_requests b.
Proof. apply flat_map_app. Qed.

Lemma handler_events_fetch_nothing (hr : trace float) :
  forallb Spec.handler_event hr = true -> Spec.fetch_requests hr = [].
Proof.
  induction hr as [|e hr IH]; [reflexivity|]. cbn [forallb]. intros H.
  apply andb_true_iff in H as [He Hhr].
  destruct e; try discriminate He; exact (IH Hhr).
Qed.

Abbreviation comment_origin := Spec.comment_origin.

Lemma comment_origin_more (args : Args float) records added c
    (r : string * Z * Commit) (events : trace float) :
  comment_origin args records added c ->
  comment_origin args (r :: records) (events ++ added) c.
Proof.
  intros ((commit & Hrec) & content & text & Hne & Hf & Hc & Hb).
  split; [exists commit; now right|].
  exists content, text. repeat split; try assumption.
  - rewrite fetches_app. apply in_app_iff. now right.
  - apply in_app_iff. now right.
Qed.

Lemma main_loop_comments (args : Args float)
    (records : list (string * Z * Commit)) (comments : list ReviewComment)
    (t t' : trace float) (comments' : list ReviewComment) :
  main_loop env args records comments t = (t', Ok comments') ->
  exists added new,
    t' = t ++ added /\ comments' = comments ++ new
    /\ Spec.fetch_requests added
       = map (fun r => (Spec.record_name r, sha (snd r))) records
    /\ Forall (comment_origin args records added) new.
Proof.
  revert comments t.
  induction records as [|[[path line] commit] records IH]; intros comments t H.
  - cbn in H. inversion H; subst. exists [], []. now rewrite !app_nil_r.
  - cbn [main_loop] in H. unfold mbind at 1, get_contents, call in H.
    destruct (host_get_contents env t path (sha commit)) as [content|e] eqn:Hc;
      [|discriminate H].
    set (G := GetContents path (sha commit) (Ok content)) in *.
    destruct (String.length content =? 0)%nat eqn:Hlen.
    + apply IH in H as (added & new & -> & -> & Hreq & Hnew).
      exists (G :: added), new.
      split; [now rewrite <- app_assoc|]. split; [reflexivity|].
      split; [cbn; now rewrite <- Hreq|].
      eapply Forall_impl; [|exact Hnew]. intros c Hcm.
      exact (comment_origin_more args records added c _ [G] Hcm).
    + unfold review, mbind, chat_completion_create, call, ret in H.
      match type of H with
      | context [openai_chat env ?u ?m ?tp ?mx ?p] =>
          destruct (openai_chat env u m tp mx p) as [text|e] eqn:Hchat
      end; [|discriminate H].
      set (C := ChatCompletionCreate (openai_model args)
                  (openai_temperature args) (openai_max_tokens args)
                  (prompt path content) (Ok text)) in *.
      apply IH in H as (added & new & -> & -> & Hreq & Hnew).
      exists (G :: C :: added),
        (mkReviewComment path line
           ("*ChatGPT review for " ++ path ++ ":*" ++ nl ++ text)%string :: new).
      split; [now rewrite <- !app_assoc|].
      split; [now rewrite <- app_assoc|].
      split; [cbn; now rewrite <- Hreq|].
      constructor.
      * split; [exists commit; now left|].
        exists content, text. cbn [rc_path rc_body].
        repeat split.
        -- intros ->. discriminate Hlen.
        -- now left.
        -- right. now left.
      * eapply Forall_impl; [|exact Hnew]. intros c Hcm.
        exact (comment_origin_more args records added c _ [G; C] Hcm).
Qed.

Variable fnmatch : string -> string -> bool.

(** A run of [main] in full: stopped before the final [if], or at the
    final [if] with the records, the events of the loop and the
    comments. *)
Lemma main_cases (args : Args float) (t t' : trace float) (r : result unit) :
  main fnmatch env args t = (t', r) ->
  (exists e early, r = Raise e /\ t' = t ++ early /\ Spec.reviews early = [])
  \/ (exists flag pull records loop comments,
        arg_files args = Some flag
        /\ files_for_review fnmatch pull (Py.split_on "," flag) = Ok records
        /\ main_loop env args records []
             (t ++ [GetPull (github_token args) (github_pr_id args) (Ok pull)])
           = (t ++ GetPull (github_token args) (github_pr_id args) (Ok pull)
                 :: loop, Ok comments)
        /\ main_submit env args comments
             (t ++ GetPull (github_token args) (github_pr_id args) (Ok pull)
                :: loop)
           = (t', r)).
Proof.
  unfold main. intros H.
  apply mbind_run in H as [(t1 & patterns & Hargs & H)|(e & Hargs & ->)].
  2:{ left. exists e, []. destruct (arg_files args); inversion Hargs; subst.
      now rewrite app_nil_r. }
  destruct (arg_files args) as [flag|] eqn:Hflag; [|discriminate Hargs].
  inversion Hargs; subst t1 patterns. clear Hargs.
  apply mbind_run in H as [(t1 & pull & Hpull & H)|(e & Hpull & ->)].
  2:{ left. unfold get_pull, call in Hpull. inversion Hpull as [[Ht Hr]].
      exists e, [GetPull (github_token args) (github_pr_id args) (Raise e)].
      now rewrite Hr. }
  unfold get_pull, call in Hpull. inversion Hpull as [[Ht Hr]]. rewrite Hr in *.
  clear Hpull. subst t1.
  apply mbind_run in H as [(t2 & records & Hrec & H)|(e & Hrec & ->)].
  2:{ left. unfold lift in Hrec. inversion Hrec; subst.
      now exists e, [GetPull (github_token args) (github_pr_id args) (Ok pull)]. }
  unfold lift in Hrec. inversion Hrec as [[Ht2 Hfiles]]. subst t2. clear Hrec.
  apply mbind_run in H as [(t3 & comments & Hloop & H)|(e & Hloop & ->)].
  - right. pose proof Hloop as Hrun.
    apply main_loop_run in Hrun as (loop & -> & _).
    exists flag, pull, records, loop, comments.
    rewrite <- app_assoc in Hloop, H. now repeat split.
  - left. apply main_loop_run in Hloop as (loop & -> & Hev & _).
    exists e, (GetPull (github_token args) (github_pr_id args) (Ok pull) :: loop).
    split; [reflexivity|]. split; [now rewrite <- app_assoc|].
    exact (proj1 (loop_events_silent loop Hev)).
Qed.

(** X14. Every comment of a review that [main] creates sits on a line
    that is at least 1, and its body is the fixed heading naming its
    file followed by the text the chat endpoint answered to the prompt
    built from that file's fetched, non-empty content. *)
Theorem main_review_comments (args : Args float) (t t' : trace float)
    (r : result unit) :
  main fnmatch env args t = (t', r) ->
  exists added,
    t' = t ++ added
    /\ forall title ev comments c,
         In (title, ev, comments) (Spec.reviews added) -> In c comments ->
         1 <= rc_line c
         /\ exists content text,
              content <> ""%string
              /\ In (rc_path c, content) (Spec.fetches added)
              /\ In (ChatCompletionCreate (openai_model args)
                       (openai_temperature args) (openai_max_tokens args)
                       (prompt (rc_path c) content) (Ok text)) added
              /\ rc_body c
                 = ("*ChatGPT review for " ++ rc_path c ++ ":*" ++ nl
                    ++ text)%string.
Proof.
  intros H. apply main_cases in H
    as [(e & early & -> & -> & Hrev)
       |(flag & pull & records & loop & comments & Hflag & Hfiles & Hloop & Hsub)].
  - exists early. split; [reflexivity|]. rewrite Hrev. intros ? ? ? ? [].
  - set (G := GetPull (github_token args) (github_pr_id args) (Ok pull)) in *.
    pose proof Hloop as Hrun.
    apply main_loop_run in Hrun as (loop' & E & Hev & _).
    rewrite <- app_assoc in E. apply app_inv_head in E. inversion E; subst loop'.
    destruct (loop_events_silent loop Hev) as (Hrl & _ & _).
    apply main_loop_comments in Hloop as (added & new & E' & Hnew & _ & Horigin).
    rewrite <- app_assoc in E'. apply app_inv_head in E'.
    inversion E'; subst added. cbn [app] in Hnew. subst new.
    apply main_submit_run in Hsub. destruct comments as [|c0 comments].
    + destruct Hsub as [-> ->]. exists (G :: loop). split; [reflexivity|].
      change (Spec.reviews (G :: loop)) with (Spec.reviews loop). rewrite Hrl.
      intros ? ? ? ? [].
    + destruct Hsub as (hr & rh & _ & _ & Hhr & Hend).
      destruct (handler_events_silent hr Hhr) as (_ & _ & Hrh).
      assert (forall c tail, In c (c0 :: comments) ->
                1 <= rc_line c
                /\ exists content text,
                     content <> ""%string
                     /\ In (rc_path c, content)
                           (Spec.fetches (G :: loop ++ tail))
                     /\ In (ChatCompletionCreate (openai_model args)
                              (openai_temperature args) (openai_max_tokens args)
                              (prompt (rc_path c) content) (Ok text))
                           (G :: loop ++ tail)
                     /\ rc_body c
                        = ("*ChatGPT review for " ++ rc_path c ++ ":*" ++ nl
                           ++ text)%string) as Hall.
      { intros c tail Hc. rewrite Forall_forall in Horigin.
        destruct (Horigin c Hc)
          as ((commit & Hrec) & content & text & Hne & Hf & Hchat & Hbody).
        split.
        - destruct (files_for_review_origin _ _ _ _ Hfiles _ _ _ Hrec)
            as (_ & _ & _ & parsed & _ & _ & _ & _ & Hline & _).
          rewrite Hline. lia.
        - exists content, text. repeat split; try assumption.
          + change (Spec.fetches (G :: ?l)) with (Spec.fetches l).
            rewrite fetches_app. apply in_app_iff. now left.
          + right. apply in_app_iff. now left. }
      destruct rh as [[]|e].
      * subst t'.
        exists (G :: loop ++ hr
                ++ [CreateReview review_title "COMMENT" (c0 :: comments) r]).
        split; [now rewrite <- app_assoc|].
        change (Spec.reviews (G :: ?l)) with (Spec.reviews l).
        rewrite !reviews_app, Hrl, Hrh. cbn.
        intros title ev cs c [E1|[]] Hc. inversion E1; subst. now apply Hall.
      * destruct Hend as [-> ->]. exists (G :: loop ++ hr).
        split; [now rewrite <- app_assoc|].
        change (Spec.reviews (G :: ?l)) with (Spec.reviews l).
        rewrite !reviews_app, Hrl, Hrh. intros ? ? ? ? [].
Qed.

(** X15. In a run of [main] that returns, the files fetched are the
    records of [files_for_review] for the patterns split from [--files],
    each fetched once, in the order of the records, at the commit the
    record attributes it to. *)
Theorem main_fetches_records (args : Args float) (t t' : trace float) :
  main fnmatch env args t = (t', Ok tt) ->
  exists flag pull records rest,
    arg_files args = Some flag
    /\ t' = t ++ GetPull (github_token args) (github_pr_id args) (Ok pull)
              :: rest
    /\ files_for_review fnmatch pull (Py.split_on "," flag) = Ok records
    /\ Spec.fetch_requests rest
       = map (fun r => (Spec.record_name r, sha (snd r))) records.
Proof.
  intros H. apply main_cases in H
    as [(e & early & Hr & _)
       |(flag & pull & records & loop & comments & Hflag & Hfiles & Hloop & Hsub)];
    [discriminate Hr|].
  set (G := GetPull (github_token args) (github_pr_id args) (Ok pull)) in *.
  apply main_loop_comments in Hloop as (added & new & E' & _ & Hreq & _).
  rewrite <- app_assoc in E'. apply app_inv_head in E'.
  inversion E'; subst added.
  apply main_submit_run in Hsub. destruct comments as [|c0 comments].
  - destruct Hsub as [-> _]. now exists flag, pull, records, loop.
  - destruct Hsub as (hr & rh & _ & _ & Hhr & Hend).
    destruct rh as [[]|e]; [|destruct Hend as [_ Hr]; discriminate Hr].
    subst t'.
    exists flag, pull, records,
      (loop ++ hr ++ [CreateReview review_title "COMMENT" (c0 :: comments) (Ok tt)]).
    split; [assumption|]. split; [now rewrite <- app_assoc|].
    split; [assumption|].
    rewrite !fetch_requests_app, (handler_events_fetch_nothing hr Hhr).
    cbn. now rewrite app_nil_r.
Qed.

(** X16. In a run of [handle_replies] that returns, whatever the
    identifiers of the comments: every reply is posted to a comment a
    human wrote in reply to a comment of the bot and that no comment of
    the bot answers, and every completion request carries the prompt of
    such a comment; as many requests are made as replies are posted.
    When no such comment exists nothing is requested and nothing is
    posted.  The function fetches no file, makes no chat request and
    creates no review. *)
Theorem handle_replies_posts_unanswered (token : string) (pr_id : Z)
    (api_key model : string) (temperature : float) (max_tokens : Z)
    (t t' : trace float) :
  handle_replies env token pr_id api_key model temperature max_tokens t
  = (t', Ok tt) ->
  exists pull comments added,
    t' = t ++ GetPull token pr_id (Ok pull)
           :: GetIssueComments (Ok comments) :: added
    /\ (forall cid, In cid (Spec.posts added) ->
          exists reply, In reply (Spec.unanswered comments) /\ id reply = cid)
    /\ (forall p, In p (Spec.asked added) ->
          exists reply, In reply (Spec.unanswered comments)
                        /\ reply_prompt reply = p)
    /\ List.length (Spec.asked added) = List.length (Spec.posts added)
    /\ (Spec.unanswered comments = [] ->
        Spec.posts added = [] /\ Spec.asked added = [])
    /\ Spec.fetches added = [] /\ Spec.chats added = []
    /\ Spec.reviews added = [].
Proof.
  intros H. pose proof H as Hrun.
  apply handle_replies_run in Hrun
    as (added0 & -> & Hev & _ & (pull & comments & parts & -> & HF)).
  exists pull, comments, (List.concat parts). split; [reflexivity|].
  destruct (comments_parts_posts comments model temperature max_tokens
              comments parts HF) as [Hposts Hasked].
  assert (forall reply, In reply (flat_map (Spec.pending_of comments) comments) ->
                        In reply (Spec.unanswered comments)) as Hpend.
  { intros reply Hin. apply in_flat_map in Hin as (c & Hc & Hr).
    apply pending_of_In in Hr as (Hb & Hin & Hrc & Hh & Ha).
    apply unanswered_In. repeat split; try assumption. now exists c. }
  cbn [forallb Spec.handler_event andb] in Hev.
  destruct (handler_events_silent _ Hev) as (Hf & Hc & Hr).
  rewrite Hposts, Hasked.
  split; [intros cid Hin; apply in_map_iff in Hin as (reply & E & Hin); eauto|].
  split; [intros p Hin; apply in_map_iff in Hin as (reply & E & Hin); eauto|].
  split; [now rewrite !length_map|].
  split; [|now repeat split].
  intros Hnone.
  destruct (flat_map (Spec.pending_of comments) comments) as [|x l];
    [now split|].
  pose proof (Hpend x (or_introl eq_refl)) as Hx. rewrite Hnone in Hx.
  destruct Hx.
Qed.

End ProgramRuns.

(** A run in which the chat endpoint refuses the first request: the
    refused request is the last event, the empty file is never reached. *)
Lemma main_fails_fast_witness :
  let env := Samples.env_chat_down Samples.with_empty Samples.thread_open in
  let args := Samples.args_of "*.py" in
  let run := main fnmatch_wildcard env args [] in
  snd run = Raise (ServiceError "rate limit")
  /\ List.length (fst run) = 3%nat
  /\ exists added,
       fst run = [] ++ added
       /\ (forall before ev after e,
             added = before ++ ev :: after -> Spec.failure ev = Some e ->
             after = [] /\ snd run = Raise e)
       /\ (snd run = Ok tt ->
           forall ev, In ev added -> Spec.failure ev = None).
Proof.
  intros env args run.
  split; [reflexivity|]. split; [reflexivity|].
  exact (main_fails_fast env fnmatch_wildcard args [] (fst run) (snd run)
           eq_refl).
Defined.

Lemma main_review_comments_witness :
  let env := Samples.env_of Samples.with_empty Samples.thread_open in
  let args := Samples.args_of "*.py" in
  let run := main fnmatch_wildcard env args [] in
  snd run = Ok tt
  /\ List.length (Spec.reviews (fst run)) = 1%nat
  /\ exists added,
       fst run = [] ++ added
       /\ forall title ev comments c,
            In (title, ev, comments) (Spec.reviews added) -> In c comments ->
            1 <= rc_line c
            /\ exists content text,
                 content <> ""%string
                 /\ In (rc_path c, content) (Spec.fetches added)
                 /\ In (ChatCompletionCreate (openai_model args)
                          (openai_temperature args) (openai_max_tokens args)
                          (prompt (rc_path c) content) (Ok text)) added
                 /\ rc_body c
                    = ("*ChatGPT review for " ++ rc_path c ++ ":*" ++ nl
                       ++ text)%string.
Proof.
  intros env args run.
  split; [reflexivity|]. split; [reflexivity|].
  exact (main_review_comments env fnmatch_wildcard args [] (fst run) (snd run)
           eq_refl).
Defined.

Lemma main_fetches_records_witness :
  let env := Samples.env_of Samples.with_empty Samples.thread_open in
  let args := Samples.args_of "*.py,*.md" in
  let run := main fnmatch_wildcard env args [] in
  run = (fst run, Ok tt)
  /\ Spec.fetch_requests (fst run) = [("full.py", "e1"); ("empty.py", "e1")]
  /\ exists flag pull records rest,
       arg_files args = Some flag
       /\ fst run = [] ++ GetPull (github_token args) (github_pr_id args)
                           (Ok pull) :: rest
       /\ files_for_review fnmatch_wildcard pull (Py.split_on "," flag)
          = Ok records
       /\ Spec.fetch_requests rest
          = map (fun r => (Spec.record_name r, sha (snd r))) records.
Proof.
  intros env args run.
  split; [reflexivity|]. split; [reflexivity|].
  exact (main_fetches_records env fnmatch_wildcard args [] (fst run) eq_refl).
Defined.

Lemma handle_replies_posts_unanswered_witness :
  let env := Samples.env_of Samples.twice Samples.thread_closed in
  let run :=
    handle_replies env "ghp-token" 7 "sk-key" "gpt-3.5-turbo" "0.5" 2048 [] in
  run = (fst run, Ok tt)
  /\ Spec.unanswered Samples.thread_closed = []
  /\ exists pull comments added,
       fst run = [] ++ GetPull "ghp-token" 7 (Ok pull)
                   :: GetIssueComments (Ok comments) :: added
       /\ (forall cid, In cid (Spec.posts added) ->
             exists reply, In reply (Spec.unanswered comments)
                           /\ id reply = cid)
       /\ (forall p, In p (Spec.asked added) ->
             exists reply, In reply (Spec.unanswered comments)
                           /\ reply_prompt reply = p)
       /\ List.length (Spec.asked added) = List.length (Spec.posts added)
       /\ (Spec.unanswered comments = [] ->
           Spec.posts added = [] /\ Spec.asked added = [])
       /\ Spec.fetches added = [] /\ Spec.chats added = []
       /\ Spec.reviews added = [].
Proof.
  intros env run.
  split; [reflexivity|]. split; [reflexivity|].
  exact (handle_replies_posts_unanswered env "ghp-token" 7 "sk-key"
           "gpt-3.5-turbo" "0.5" 2048 [] (fst run) eq_refl).
Defined.

(** X17. For every name without a line feed before its last dot, the
    prompt opens with the label of the name's extension: the language
    listed for the extension followed by "code", or the bare "code" for
    any other extension and for a name without a dot; the comparison
    tells upper case from lower case. *)
Theorem prompt_label_by_extension (filename contents : string) :
  Spec.line_feed_before_last_dot filename = false ->
  exists rest,
    prompt filename contents
    = ("Please evaluate the  "
       ++ Spec.label_of_extension (Spec.extension filename)
       ++ " below." ++ rest)%string.
Proof.
  intros H. destruct (prompt_starts filename contents) as [rest E].
  exists rest. now rewrite <- (code_label_by_extension filename H).
Qed.

Lemma prompt_label_by_extension_witness :
  Spec.line_feed_before_last_dot "src/App.java" = false
  /\ Spec.label_of_extension (Spec.extension "src/App.java") = "Java code"%string
  /\ Spec.label_of_extension (Spec.extension "src/App.JAVA") = "code"%string
  /\ exists rest,
       prompt "src/App.java" "class App {}"
       = ("Please evaluate the  "
          ++ Spec.label_of_extension (Spec.extension "src/App.java")
          ++ " below." ++ rest)%string.
Proof.
  split; [reflexivity|]. split; [reflexivity|]. split; [reflexivity|].
  exact (prompt_label_by_extension "src/App.java" "class App {}" eq_refl).
Defined.
